(** * Potato Clock: the timer state machine and the markdown archive

    A shallow embedding of the timer logic of [src/App.tsx] (the [App]
    component: its state, its refs, its handlers and its two timer effects)
    and of the markdown archive functions of [utils/markdown.ts]
    ([generateDayMarkdown], [parseMarkdownToSnapshots]).

    Conventions of the embedding.
    - The numbers of the settings, of the countdown and of the clock are
      whole numbers, modelled as [Z]: the embedding covers the whole-number
      entries of the settings form, below 2^53 in size, where the arithmetic
      of JavaScript on whole numbers is exact.  The form stores
      [Number(input)] unchecked, so that a fraction can reach the code; what
      the scheduler does with one is given apart, on binary64 numbers
      ([randomSecondsNumber]).  [number | null] is [option Z]; the
      truthiness test [if (ref.current)] is [truthy].
    - A JavaScript string is the list of its UTF-16 code units.
    - A React render is a [State]: the [useState] cells and the [useRef]
      cells of [App].  A handler reads the cells of the render it closes
      over (its first argument) and writes into the pending state that it
      returns; every state update that one callback issues is applied, in
      order, before the effects run.
    - [Date.now()] is an argument of each event, read once for the handler
      and the effects it causes; [Math.random()] is an oracle indexed by the
      number of draws made so far.
    - Sounds, background audio and persistence to local storage are left
      out: no timer decision reads them. *)

From Stdlib Require Import ZArith List Bool Lia Permutation Sorted.
Import ListNotations.
Open Scope Z_scope.

(** ** Strings *)

Definition jsstring := list N.

Fixpoint str_eqb (a b : jsstring) : bool :=
  match a, b with
  | [], [] => true
  | x :: a', y :: b' => N.eqb x y && str_eqb a' b'
  | _, _ => false
  end.

(** ** Data model (types.ts) *)

Inductive TimerMode := WORK | SHORT_BREAK | MICRO_BREAK.

Definition mode_eqb (a b : TimerMode) : bool :=
  match a, b with
  | WORK, WORK | SHORT_BREAK, SHORT_BREAK | MICRO_BREAK, MICRO_BREAK => true
  | _, _ => false
  end.

(** The settings, with whole numbers of minutes and of seconds. *)
Record Settings := {
  workDuration : Z;            (* minutes *)
  breakDuration : Z;           (* minutes *)
  microBreakDuration : Z;      (* seconds *)
  microBreakMinInterval : Z;   (* minutes *)
  microBreakMaxInterval : Z;   (* minutes *)
  enableMicroBreaks : bool;
  autoStartBreak : bool;
  autoStartWork : bool
}.

Record DailyLog := {
  date : jsstring;
  secondsWorked : Z;
  tasksCompleted : option Z
}.

(** The value of [Math.random()]: a fraction in [0, 1). *)
Record UnitFrac := {
  uf_num : Z;
  uf_den : Z;
  uf_ok : ((0 <=? uf_num) && (uf_num <? uf_den)) = true
}.

(** ** Binary64 numbers

    A finite JavaScript number is a whole multiple of 2^-1074: it is given
    here by that multiple, its number of units.  The result of an operation
    is the exact result rounded to the nearest binary64, ties to the even
    mantissa.  No number here reaches 2^1024: there is no infinity. *)

Definition binary64 := Z.

(** The units of the number 1. *)
Definition unitsPerOne : Z := 2 ^ 1074.

(** The whole number nearest to [n / d], ties to the even one, for
    [0 <= n] and [0 < d]. *)
Definition roundHalfEven (n d : Z) : Z :=
  let q := n / d in
  let r := n mod d in
  if 2 * r <? d then q
  else if d <? 2 * r then q + 1
  else if Z.even q then q else q + 1.

(** The exponent [e] with [2^e <= n / d < 2^(e+1)] when [0 < d <= n]; a
    negative number when [n < d]. *)
Definition floorLog2 (n d : Z) : Z :=
  let t := Z.log2 n - Z.log2 d in
  if n <? d * 2 ^ t then t - 1 else t.

(** The binary64 numbers around [n / d] units are [2^u] units apart: 53
    bits of mantissa, and never less than one unit. *)
Definition ulpExponent (n d : Z) : Z := Z.max 0 (floorLog2 n d - 52).

(** The binary64 nearest to [n / d] units, for [0 <= n] and [0 < d]. *)
Definition nearestUnits (n d : Z) : Z :=
  let u := ulpExponent n d in
  roundHalfEven n (d * 2 ^ u) * 2 ^ u.

(** The greatest binary64 that is at most [n / d] units. *)
Definition unitsBelow (n d : Z) : Z :=
  let u := ulpExponent n d in
  n / (d * 2 ^ u) * 2 ^ u.

(** The binary64 nearest to [n / d] units, of either sign. *)
Definition roundUnits (n d : Z) : Z :=
  if n <? 0 then - nearestUnits (- n) d else nearestUnits n d.



Definition b64_mul (a b : binary64) : binary64 := roundUnits (a * b) unitsPerOne.

(** [Math.floor] *)
Definition b64_floor (a : binary64) : binary64 := a / unitsPerOne * unitsPerOne.

(** The number that [Math.random()] returns: a binary64 in [0, 1).  It
    is the greatest one that is at most the fraction of the oracle; every
    binary64 in [0, 1) is returned for some fraction, itself for one. *)
Definition randomUnits (r : UnitFrac) : binary64 :=
  unitsBelow (uf_num r * unitsPerOne) (uf_den r).

(** [Math.floor(Math.random() * k)] for a whole number [k] (below 2^53,
    where a whole number is a binary64): the floor of the rounded product. *)
Definition floor_mul (r : UnitFrac) (k : Z) : Z :=
  b64_floor (b64_mul (randomUnits r) (k * unitsPerOne)) / unitsPerOne.


(** The state of [App] that the timer reads and writes.  [settingsId]
    stands for the identity of the [settings] object (dependency arrays
    compare by identity); [randomCalls] counts the draws of [Math.random]. *)
Record State := {
  settings : Settings;
  settingsId : nat;
  mode : TimerMode;
  timeRemaining : Z;
  isActive : bool;
  showMicroBreakOverlay : bool;
  nextMicroBreakTimeRef : option Z;
  microBreakRemainingRef : option Z;
  workTimeSnapshotRef : option Z;
  logs : list DailyLog;
  randomCalls : nat
}.

Definition setSettings (v : Settings) (s : State) : State :=
  {| settings := v; settingsId := S (settingsId s); mode := mode s;
     timeRemaining := timeRemaining s; isActive := isActive s;
     showMicroBreakOverlay := showMicroBreakOverlay s;
     nextMicroBreakTimeRef := nextMicroBreakTimeRef s;
     microBreakRemainingRef := microBreakRemainingRef s;
     workTimeSnapshotRef := workTimeSnapshotRef s;
     logs := logs s; randomCalls := randomCalls s |}.

Definition setMode (v : TimerMode) (s : State) : State :=
  {| settings := settings s; settingsId := settingsId s; mode := v;
     timeRemaining := timeRemaining s; isActive := isActive s;
     showMicroBreakOverlay := showMicroBreakOverlay s;
     nextMicroBreakTimeRef := nextMicroBreakTimeRef s;
     microBreakRemainingRef := microBreakRemainingRef s;
     workTimeSnapshotRef := workTimeSnapshotRef s;
     logs := logs s; randomCalls := randomCalls s |}.

Definition setTimeRemaining (v : Z) (s : State) : State :=
  {| settings := settings s; settingsId := settingsId s; mode := mode s;
     timeRemaining := v; isActive := isActive s;
     showMicroBreakOverlay := showMicroBreakOverlay s;
     nextMicroBreakTimeRef := nextMicroBreakTimeRef s;
     microBreakRemainingRef := microBreakRemainingRef s;
     workTimeSnapshotRef := workTimeSnapshotRef s;
     logs := logs s; randomCalls := randomCalls s |}.

Definition setIsActive (v : bool) (s : State) : State :=
  {| settings := settings s; settingsId := settingsId s; mode := mode s;
     timeRemaining := timeRemaining s; isActive := v;
     showMicroBreakOverlay := showMicroBreakOverlay s;
     nextMicroBreakTimeRef := nextMicroBreakTimeRef s;
     microBreakRemainingRef := microBreakRemainingRef s;
     workTimeSnapshotRef := workTimeSnapshotRef s;
     logs := logs s; randomCalls := randomCalls s |}.

Definition setShowMicroBreakOverlay (v : bool) (s : State) : State :=
  {| settings := settings s; settingsId := settingsId s; mode := mode s;
     timeRemaining := timeRemaining s; isActive := isActive s;
     showMicroBreakOverlay := v;
     nextMicroBreakTimeRef := nextMicroBreakTimeRef s;
     microBreakRemainingRef := microBreakRemainingRef s;
     workTimeSnapshotRef := workTimeSnapshotRef s;
     logs := logs s; randomCalls := randomCalls s |}.

Definition setNextMicroBreakTime (v : option Z) (s : State) : State :=
  {| settings := settings s; settingsId := settingsId s; mode := mode s;
     timeRemaining := timeRemaining s; isActive := isActive s;
     showMicroBreakOverlay := showMicroBreakOverlay s;
     nextMicroBreakTimeRef := v;
     microBreakRemainingRef := microBreakRemainingRef s;
     workTimeSnapshotRef := workTimeSnapshotRef s;
     logs := logs s; randomCalls := randomCalls s |}.

Definition setMicroBreakRemaining (v : option Z) (s : State) : State :=
  {| settings := settings s; settingsId := settingsId s; mode := mode s;
     timeRemaining := timeRemaining s; isActive := isActive s;
     showMicroBreakOverlay := showMicroBreakOverlay s;
     nextMicroBreakTimeRef := nextMicroBreakTimeRef s;
     microBreakRemainingRef := v;
     workTimeSnapshotRef := workTimeSnapshotRef s;
     logs := logs s; randomCalls := randomCalls s |}.

Definition setWorkTimeSnapshot (v : option Z) (s : State) : State :=
  {| settings := settings s; settingsId := settingsId s; mode := mode s;
     timeRemaining := timeRemaining s; isActive := isActive s;
     showMicroBreakOverlay := showMicroBreakOverlay s;
     nextMicroBreakTimeRef := nextMicroBreakTimeRef s;
     microBreakRemainingRef := microBreakRemainingRef s;
     workTimeSnapshotRef := v;
     logs := logs s; randomCalls := randomCalls s |}.

Definition setLogs (v : list DailyLog) (s : State) : State :=
  {| settings := settings s; settingsId := settingsId s; mode := mode s;
     timeRemaining := timeRemaining s; isActive := isActive s;
     showMicroBreakOverlay := showMicroBreakOverlay s;
     nextMicroBreakTimeRef := nextMicroBreakTimeRef s;
     microBreakRemainingRef := microBreakRemainingRef s;
     workTimeSnapshotRef := workTimeSnapshotRef s;
     logs := v; randomCalls := randomCalls s |}.

Definition drawRandom (s : State) : State :=
  {| settings := settings s; settingsId := settingsId s; mode := mode s;
     timeRemaining := timeRemaining s; isActive := isActive s;
     showMicroBreakOverlay := showMicroBreakOverlay s;
     nextMicroBreakTimeRef := nextMicroBreakTimeRef s;
     microBreakRemainingRef := microBreakRemainingRef s;
     workTimeSnapshotRef := workTimeSnapshotRef s;
     logs := logs s; randomCalls := S (randomCalls s) |}.

(** [if (ref.current)] on a [number | null]: null and 0 are falsy. *)
Definition truthy (r : option Z) : bool :=
  match r with
  | Some z => negb (z =? 0)
  | None => false
  end.

(** ** DurationPolicy: [getDurationForMode] *)

Definition getDurationForMode (st : Settings) (m : TimerMode) : Z :=
  match m with
  | WORK => workDuration st * 60
  | SHORT_BREAK => breakDuration st * 60
  | MICRO_BREAK => microBreakDuration st
  end.

(** ** WorkTimeLedger: [recordWorkTime] *)

(** [prev.findIndex(l => l.date === today)] followed by the update of the
    record found (the updater adds to the [secondsWorked] of that very
    object; it is applied once per call), or by the append of a new record. *)
Fixpoint addSeconds (today : jsstring) (seconds : Z) (prev : list DailyLog)
  : list DailyLog :=
  match prev with
  | [] => [ {| date := today; secondsWorked := seconds; tasksCompleted := None |} ]
  | l :: rest =>
      if str_eqb (date l) today
      then {| date := date l; secondsWorked := secondsWorked l + seconds;
              tasksCompleted := tasksCompleted l |} :: rest
      else l :: addSeconds today seconds rest
  end.

Definition recordWorkTime (today : jsstring) (seconds : Z) (s : State) : State :=
  setLogs (addSeconds today seconds (logs s)) s.

(** Seconds logged for a day: the record that [findIndex] finds. *)
Fixpoint secondsOn (day : jsstring) (l : list DailyLog) : Z :=
  match l with
  | [] => 0
  | r :: rest => if str_eqb (date r) day then secondsWorked r else secondsOn day rest
  end.

Section Timer.

(** The successive values of [Math.random()]. *)
Variable Math_random : nat -> UnitFrac.

(** ** MicroBreakScheduler *)

Definition randomSeconds (st : Settings) (r : UnitFrac) : Z :=
  let min := microBreakMinInterval st * 60 in
  let max := microBreakMaxInterval st * 60 in
  let safeMin := Z.min min max in
  let safeMax := Z.max min max in
  floor_mul r (safeMax - safeMin + 1) + safeMin.

Definition scheduleNextMicroBreak (st : Settings) (now : Z) (s : State) : State :=
  if negb (enableMicroBreaks st) then
    setMicroBreakRemaining None (setNextMicroBreakTime None s)
  else
    let secs := randomSeconds st (Math_random (randomCalls s)) in
    let s1 := setMicroBreakRemaining (Some (secs * 1000)) (drawRandom s) in
    setNextMicroBreakTime (Some (now + secs * 1000)) s1.

(** The effect with dependencies
    [mode, isActive, settings.enableMicroBreaks, scheduleNextMicroBreak]. *)
Definition microBreakEffect (now : Z) (s : State) : State :=
  if mode_eqb (mode s) WORK && isActive s && enableMicroBreaks (settings s)
  then scheduleNextMicroBreak (settings s) now s
  else if negb (enableMicroBreaks (settings s))
  then setMicroBreakRemaining None (setNextMicroBreakTime None s)
  else s.

Definition microBreakEffectDeps (prev s : State) : bool :=
  negb (mode_eqb (mode prev) (mode s))
  || negb (Bool.eqb (isActive prev) (isActive s))
  || negb (Bool.eqb (enableMicroBreaks (settings prev)) (enableMicroBreaks (settings s)))
  || negb (Nat.eqb (settingsId prev) (settingsId s)).

(** ** TimerStateMachine *)

(** [switchMode(newMode, manualTrigger)], closed over the render [r]. *)
Definition switchMode (r : State) (newMode : TimerMode) (manualTrigger : bool)
    (now : Z) (s : State) : State :=
  let s := if mode_eqb (mode r) WORK && mode_eqb newMode MICRO_BREAK
           then setWorkTimeSnapshot (Some (timeRemaining r)) s else s in
  let returningFromMicroBreak :=
    mode_eqb (mode r) MICRO_BREAK && mode_eqb newMode WORK in
  let s := setMode newMode s in
  let s := match returningFromMicroBreak, workTimeSnapshotRef s with
           | true, Some snap => setWorkTimeSnapshot None (setTimeRemaining snap s)
           | _, _ => setTimeRemaining (getDurationForMode (settings r) newMode) s
           end in
  match newMode with
  | WORK =>
      let s := scheduleNextMicroBreak (settings r) now s in
      if returningFromMicroBreak then setIsActive true s
      else if autoStartWork (settings r) && negb manualTrigger
           then setIsActive true s else setIsActive false s
  | SHORT_BREAK =>
      if autoStartBreak (settings r) && negb manualTrigger
      then setIsActive true s else setIsActive false s
  | MICRO_BREAK =>
      setIsActive true (setShowMicroBreakOverlay true s)
  end.

(** The callback of [setInterval] in the main tick loop. *)
Definition intervalCallback (now : Z) (today : jsstring) (r : State) : State :=
  let s := setTimeRemaining (timeRemaining r - 1) r in
  let s :=
    if mode_eqb (mode r) WORK && enableMicroBreaks (settings r)
       && truthy (nextMicroBreakTimeRef s)
    then match nextMicroBreakTimeRef s with
         | Some deadline =>
             if deadline <=? now
             then switchMode r MICRO_BREAK false now
                    (setMicroBreakRemaining None (setNextMicroBreakTime None s))
             else s
         | None => s
         end
    else s in
  if mode_eqb (mode r) WORK then recordWorkTime today 1 s else s.

(** The second branch of the main tick loop: [timeRemaining === 0 && isActive]. *)
Definition countdownFinished (now : Z) (r : State) : State :=
  let s := setIsActive false r in
  match mode r with
  | WORK => switchMode r SHORT_BREAK false now s
  | SHORT_BREAK => switchMode r WORK false now s
  | MICRO_BREAK => switchMode r WORK false now (setShowMicroBreakOverlay false s)
  end.

(** The main tick loop effect: [None] when it issues no state update (it
    registers the interval, or does nothing). *)
Definition tickEffect (now : Z) (r : State) : option State :=
  if isActive r && (0 <? timeRemaining r) then None
  else if (timeRemaining r =? 0) && isActive r then Some (countdownFinished now r)
  else None.

Definition tickEffectDeps (prev s : State) : bool :=
  negb (Bool.eqb (isActive prev) (isActive s))
  || negb (timeRemaining prev =? timeRemaining s)
  || negb (mode_eqb (mode prev) (mode s))
  || negb (Nat.eqb (settingsId prev) (settingsId s)).

(** The effects that follow the render [s], [prev] being the render before
    it; when the tick effect updates the state, the next render and its
    effects follow.  [fuel] bounds the nested updates. *)
Fixpoint runEffects (fuel : nat) (now : Z) (prev s : State) : State :=
  let s1 := if microBreakEffectDeps prev s then microBreakEffect now s else s in
  if tickEffectDeps prev s then
    match tickEffect now s1 with
    | Some s2 =>
        match fuel with
        | O => s2
        | S fuel' => runEffects fuel' now s1 s2
        end
    | None => s1
    end
  else s1.

(** The number of nested updates that React counts before it reports an
    update loop.  The runs studied below settle within two rounds. *)
Definition updateDepth : nat := 50.

Definition toggleTimer (now : Z) (r : State) : State :=
  let s :=
    if negb (isActive r) then
      if mode_eqb (mode r) WORK && truthy (microBreakRemainingRef r) then
        match microBreakRemainingRef r with
        | Some rem => setNextMicroBreakTime (Some (now + rem)) r
        | None => r
        end
      else if mode_eqb (mode r) WORK && negb (truthy (nextMicroBreakTimeRef r))
      then scheduleNextMicroBreak (settings r) now r
      else r
    else
      if mode_eqb (mode r) WORK && truthy (nextMicroBreakTimeRef r) then
        match nextMicroBreakTimeRef r with
        | Some deadline =>
            setNextMicroBreakTime None
              (setMicroBreakRemaining (Some (Z.max 0 (deadline - now))) r)
        | None => r
        end
      else r in
  setIsActive (negb (isActive r)) s.

Definition resetTimer (r : State) : State :=
  let s := setIsActive false r in
  let s := setMode WORK s in
  let s := setTimeRemaining (workDuration (settings r) * 60) s in
  let s := setWorkTimeSnapshot None s in
  let s := setNextMicroBreakTime None s in
  let s := setMicroBreakRemaining None s in
  setShowMicroBreakOverlay false s.

Definition skipMicroBreak (now : Z) (r : State) : State :=
  switchMode r WORK false now (setShowMicroBreakOverlay false r).

(** [onSave] of the settings modal. *)
Definition onSave (newSettings : Settings) (r : State) : State :=
  let oldWork := workDuration (settings r) in
  let oldBreak := breakDuration (settings r) in
  let s := setSettings newSettings r in
  if mode_eqb (mode r) WORK && negb (oldWork =? workDuration newSettings)
  then setIsActive false (setTimeRemaining (workDuration newSettings * 60) s)
  else if mode_eqb (mode r) SHORT_BREAK && negb (oldBreak =? breakDuration newSettings)
  then setIsActive false (setTimeRemaining (breakDuration newSettings * 60) s)
  else s.

(** ** Events *)

Inductive Event :=
| Tick (now : Z) (today : jsstring)
| ToggleTimer (now : Z)
| ResetTimer (now : Z)
| SkipMicroBreak (now : Z)
| SaveSettings (now : Z) (newSettings : Settings).

(** One event: the handler, then the effects of the renders it causes.
    The interval exists only while [isActive && timeRemaining > 0]; the skip
    button only while the overlay is shown in a micro-break. *)
Definition step (e : Event) (s : State) : State :=
  match e with
  | Tick now today =>
      if isActive s && (0 <? timeRemaining s)
      then runEffects updateDepth now s (intervalCallback now today s)
      else s
  | ToggleTimer now => runEffects updateDepth now s (toggleTimer now s)
  | ResetTimer now => runEffects updateDepth now s (resetTimer s)
  | SkipMicroBreak now =>
      if showMicroBreakOverlay s && mode_eqb (mode s) MICRO_BREAK
      then runEffects updateDepth now s (skipMicroBreak now s)
      else s
  | SaveSettings now newSettings =>
      runEffects updateDepth now s (onSave newSettings s)
  end.

Definition run (es : list Event) (s : State) : State :=
  fold_left (fun acc e => step e acc) es s.

(** The first render of [App] and its effects. *)
Definition initialState (st : Settings) (savedLogs : list DailyLog) : State :=
  {| settings := st; settingsId := O; mode := WORK;
     timeRemaining := workDuration st * 60; isActive := false;
     showMicroBreakOverlay := false;
     nextMicroBreakTimeRef := None; microBreakRemainingRef := None;
     workTimeSnapshotRef := None; logs := savedLogs; randomCalls := O |}.

Definition mount (st : Settings) (savedLogs : list DailyLog) (now : Z) : State :=
  microBreakEffect now (initialState st savedLogs).

Inductive reachable : State -> Prop :=
| reach_mount st savedLogs now : reachable (mount st savedLogs now)
| reach_step e s : reachable s -> reachable (step e s).

End Timer.

(** ** The markdown archive (utils/markdown.ts) *)

Record Column := {
  col_id : jsstring;      (* id *)
  title : jsstring
}.

Record Task := {
  task_id : jsstring;     (* id *)
  text : jsstring;
  completed : bool;
  createdAt : Z;
  completedAt : option Z;
  columnId : jsstring
}.

(** [HistoricalTask] without its [id], which the parser fills with a fresh
    random identifier, and without [completedAt], which it leaves out. *)
Record HistoricalTask := {
  h_text : jsstring;
  h_completed : bool;
  columnTitle : jsstring
}.

Record DailySnapshot := {
  snap_date : jsstring;
  tasks : list HistoricalTask;
  focusMinutes : Z
}.

Definition LF : N := 10%N.

(** LineTerminator of ECMAScript: LF, CR, LS, PS. *)
Definition isLineTerminator (c : N) : bool :=
  (c =? 10)%N || (c =? 13)%N || (c =? 8232)%N || (c =? 8233)%N.

Definition isDigit (c : N) : bool := (48 <=? c)%N && (c <=? 57)%N.

(** [lines.join('\n')] *)
Fixpoint join (ls : list jsstring) : jsstring :=
  match ls with
  | [] => []
  | l :: rest =>
      match rest with
      | [] => l
      | _ :: _ => l ++ LF :: join rest
      end
  end.

Definition consHead (c : N) (l : list jsstring) : list jsstring :=
  match l with
  | h :: t => (c :: h) :: t
  | [] => [[c]]
  end.

(** [s.split('\n')] *)
Fixpoint splitLines (s : jsstring) : list jsstring :=
  match s with
  | [] => [[]]
  | c :: s' => if (c =? LF)%N then [] :: splitLines s' else consHead c (splitLines s')
  end.

(** Decimal numeral of a number: the template literal prints an integer
    below 10^21 in plain decimal, which is the range this model covers. *)
Fixpoint digitsOf (fuel : nat) (n : Z) (acc : jsstring) : jsstring :=
  match fuel with
  | O => acc
  | S fuel' =>
      let acc' := Z.to_N (48 + n mod 10) :: acc in
      if n / 10 =? 0 then acc' else digitsOf fuel' (n / 10) acc'
  end.

Definition numberToString (n : Z) : jsstring :=
  digitsOf (S (Z.to_nat (Z.log2 n))) n [].

(** [parseInt(digits, 10)] on a string of decimal digits. *)
Definition parseInt (digits : jsstring) : Z :=
  fold_left (fun acc c => acc * 10 + (Z.of_N c - 48)) digits 0.

(** The string literals of the format. *)
Definition str_h2 : jsstring := [35; 35; 32]%N.                      (* "## " *)
Definition str_tasks : jsstring := [32; 20219; 21153]%N.            (* " " U+4EFB U+52A1 *)
Definition str_h3 : jsstring := [35; 35; 35; 32]%N.                  (* "### " *)
Definition str_checked : jsstring := [45; 32; 91; 120; 93; 32]%N.    (* "- [x] " *)
Definition str_unchecked : jsstring := [45; 32; 91; 32; 93; 32]%N.   (* "- [ ] " *)
Definition str_focus : jsstring :=
  [62; 32; 19987; 27880; 26102; 38388; 58; 32]%N.  (* "> " U+4E13 U+6CE8 U+65F6 U+95F4 ": " *)
Definition str_minutes : jsstring := [32; 20998; 38047]%N.          (* " " U+5206 U+949F *)
Definition str_uncategorized : jsstring := [26410; 20998; 31867]%N. (* U+672A U+5206 U+7C7B *)

Definition taskLine (t : Task) : jsstring :=
  (if completed t then str_checked else str_unchecked) ++ text t.

Definition columnLines (tasks : list Task) (column : Column) : list jsstring :=
  let columnTasks := filter (fun t => str_eqb (columnId t) (col_id column)) tasks in
  match columnTasks with
  | [] => []
  | _ :: _ => (str_h3 ++ title column) :: map taskLine columnTasks ++ [[]]
  end.

Definition focusLines (focusMinutes : Z) : list jsstring :=
  if 0 <? focusMinutes
  then [str_focus ++ numberToString focusMinutes ++ str_minutes; []]
  else [].

Definition dayLines (date : jsstring) (tasks : list Task) (columns : list Column)
    (focusMinutes : Z) : list jsstring :=
  (str_h2 ++ date ++ str_tasks) :: [] ::
  flat_map (columnLines tasks) columns ++ focusLines focusMinutes.

Definition generateDayMarkdown (date : jsstring) (tasks : list Task)
    (columns : list Column) (focusMinutes : Z) : jsstring :=
  join (dayLines date tasks columns focusMinutes).

(** *** The regular expressions of the parser

    Each of them is a sequence of one-character classes, followed for three
    of them by a greedy run up to the end of the input. *)

Inductive CharClass :=
| Lit (c : N)
| Digit
| OneOf (cs : list N).

Definition classMatches (k : CharClass) (c : N) : bool :=
  match k with
  | Lit c' => (c =? c')%N
  | Digit => isDigit c
  | OneOf cs => existsb (N.eqb c) cs
  end.

(** Match a sequence of classes at the start of [s]: the matched text and
    what follows it. *)
Fixpoint matchPrefix (pat : list CharClass) (s : jsstring)
  : option (jsstring * jsstring) :=
  match pat with
  | [] => Some ([], s)
  | k :: pat' =>
      match s with
      | [] => None
      | c :: s' =>
          if classMatches k c then
            match matchPrefix pat' s' with
            | Some (m, r) => Some (c :: m, r)
            | None => None
            end
          else None
      end
  end.

Definition lits (s : jsstring) : list CharClass := map Lit s.

(** \d{4}-\d{2}-\d{2} *)
Definition datePattern : list CharClass :=
  [Digit; Digit; Digit; Digit; Lit 45%N; Digit; Digit; Lit 45%N; Digit; Digit].

Definition dayPattern : list CharClass :=
  lits str_h2 ++ datePattern ++ lits str_tasks.

(** [$] under the [m] flag: the end of the input, or just before a line
    terminator. *)
Definition atLineEnd (s : jsstring) : bool :=
  match s with
  | [] => true
  | c :: _ => isLineTerminator c
  end.

(** /^## (\d{4}-\d{2}-\d{2}) <tasks>$/gm tried at a position where [^]
    holds: the capture. *)
Definition matchDayHeader (s : jsstring) : option jsstring :=
  match matchPrefix dayPattern s with
  | Some (m, r) => if atLineEnd r then Some (firstn 10 (skipn 3 m)) else None
  | None => None
  end.

(** [content.split(dayRegex)]: the text before each match and the capture
    of each match, in order.  [skip] counts the code units of the current
    match still to pass; [bol] tells whether [^] holds here (the start of
    the input, or just after a line terminator). *)
Fixpoint splitDays (skip : nat) (bol : bool) (s : jsstring) : list jsstring :=
  match s with
  | [] => [[]]
  | c :: s' =>
      match skip with
      | S k => splitDays k false s'
      | O =>
          match (if bol then matchDayHeader s else None) with
          | Some d => [] :: d :: splitDays 15 false s'
          | None => consHead c (splitDays O (isLineTerminator c) s')
          end
      end
  end.

(** (.+)$ without the [m] flag: a non-empty run without line terminators
    that reaches the end of the input. *)
Definition matchDotPlusToEnd (s : jsstring) : option jsstring :=
  match s with
  | [] => None
  | _ :: _ => if forallb (fun c => negb (isLineTerminator c)) s then Some s else None
  end.

(** /^### (.+)$/ *)
Definition columnMatch (line : jsstring) : option jsstring :=
  match matchPrefix (lits str_h3) line with
  | Some (_, r) => matchDotPlusToEnd r
  | None => None
  end.

(** /^- \[([ x])\] (.+)$/ : the two captures. *)
Definition taskMatch (line : jsstring) : option (N * jsstring) :=
  match matchPrefix [Lit 45%N; Lit 32%N; Lit 91%N; OneOf [32%N; 120%N];
                     Lit 93%N; Lit 32%N] line with
  | Some (m, r) =>
      match matchDotPlusToEnd r with
      | Some t => Some (nth 3 m 0%N, t)
      | None => None
      end
  | None => None
  end.

(** The longest run of digits at the start of [s], and what follows. *)
Fixpoint spanDigits (s : jsstring) : jsstring * jsstring :=
  match s with
  | [] => ([], [])
  | c :: s' =>
      if isDigit c then let (d, r) := spanDigits s' in (c :: d, r)
      else ([], s)
  end.

(** /^> <focus>: (\d+) <minutes>$/ : the capture. *)
Definition focusMatch (line : jsstring) : option jsstring :=
  match matchPrefix (lits str_focus) line with
  | Some (_, r) =>
      match spanDigits r with
      | ([], _) => None
      | (d, r') => if str_eqb r' str_minutes then Some d else None
      end
  | None => None
  end.

(** The body of the loop over the lines of a day section; the state is
    [(columnTitle, tasks, focusMinutes)]. *)
Definition parseLine (st : jsstring * list HistoricalTask * Z) (line : jsstring)
  : jsstring * list HistoricalTask * Z :=
  let '(colTitle, ts, fm) := st in
  match columnMatch line with
  | Some t => (t, ts, fm)
  | None =>
      let ts' :=
        match taskMatch line with
        | Some (mark, txt) =>
            ts ++ [ {| h_text := txt; h_completed := (mark =? 120)%N;
                       columnTitle := colTitle |} ]
        | None => ts
        end in
      let fm' :=
        match focusMatch line with
        | Some d => parseInt d
        | None => fm
        end in
      (colTitle, ts', fm')
  end.

Definition parseSection (dateStr sectionContent : jsstring) : DailySnapshot :=
  let '(_, ts, fm) :=
    fold_left parseLine (splitLines sectionContent) (str_uncategorized, [], 0) in
  {| snap_date := dateStr; tasks := ts; focusMinutes := fm |}.

(** The loop [for (i = 1; i < sections.length; i += 2)] over what is left of
    [sections] from index [i] on. *)
Fixpoint parseSections (sections : list jsstring) : list DailySnapshot :=
  match sections with
  | [] => []
  | dateStr :: rest =>
      match rest with
      | [] => [parseSection dateStr []]
      | sectionContent :: rest' =>
          parseSection dateStr sectionContent :: parseSections rest'
      end
  end.

Definition parseMarkdownToSnapshots (content : jsstring) : list DailySnapshot :=
  parseSections (tl (splitDays O true content)).

(** A date of the form YYYY-MM-DD. *)
Definition isDateString (d : jsstring) : bool :=
  match matchPrefix datePattern d with
  | Some (_, []) => true
  | _ => false
  end.

(** A single line: no line terminator inside. *)
Definition singleLine (s : jsstring) : bool :=
  forallb (fun c => negb (isLineTerminator c)) s.

(** The tasks of a day grouped by column, in column order. *)
Definition groupedByColumn (tasks : list Task) (columns : list Column) : list Task :=
  flat_map (fun column =>
    filter (fun t => str_eqb (columnId t) (col_id column)) tasks) columns.

(** ** Vocabulary of the statements *)

(** The test of the tick loop for a due micro-break:
    [settings.enableMicroBreaks && nextMicroBreakTimeRef.current] and
    [Date.now() >= nextMicroBreakTimeRef.current]. *)
Definition microBreakDue (s : State) (now : Z) : bool :=
  enableMicroBreaks (settings s) && truthy (nextMicroBreakTimeRef s)
  && match nextMicroBreakTimeRef s with
     | Some deadline => deadline <=? now
     | None => false
     end.

(** Ticks of one day at the given clock readings. *)
Definition ticks (today : jsstring) (ts : list Z) : list Event :=
  map (fun t => Tick t today) ts.

(** An event that does not switch micro-breaks on. *)
Definition keepsDisabled (e : Event) : bool :=
  match e with
  | SaveSettings _ newSettings => negb (enableMicroBreaks newSettings)
  | _ => true
  end.

(** In a micro-break that preempted Work at [R] seconds, [n] seconds of
    the break being left. *)
Definition inMicroBreak (R n : Z) (s : State) : Prop :=
  mode s = MICRO_BREAK /\ isActive s = true /\ timeRemaining s = n
  /\ workTimeSnapshotRef s = Some R /\ showMicroBreakOverlay s = true.

(** Back in Work after a micro-break, with the [R] seconds of before. *)
Definition resumedWork (R : Z) (s : State) : Prop :=
  mode s = WORK /\ isActive s = true /\ timeRemaining s = R
  /\ workTimeSnapshotRef s = None.

(** Micro-breaks are switched off and nothing is scheduled. *)
Definition disabledAndEmpty (s : State) : Prop :=
  enableMicroBreaks (settings s) = false
  /\ nextMicroBreakTimeRef s = None /\ microBreakRemainingRef s = None.

(** [l] put in front of the first element of a split. *)
Definition prependHead (l : jsstring) (ls : list jsstring) : list jsstring :=
  match ls with
  | h :: t => (l ++ h) :: t
  | [] => [l]
  end.

(** A line that does not start like a day header. *)
Definition notDayHeader (l : jsstring) : bool :=
  match matchPrefix (lits str_h2) l with
  | Some _ => false
  | None => true
  end.

(** What the archive keeps of a task. *)
Definition taskFacts (t : Task) : jsstring * bool := (text t, completed t).
Definition historicalFacts (h : HistoricalTask) : jsstring * bool :=
  (h_text h, h_completed h).

(** ** The archive read line by line *)

(** The date of a line that is a day header. *)
Definition headerDate (l : jsstring) : option jsstring :=
  match matchPrefix dayPattern l with
  | Some (m, []) => Some (firstn 10 (skipn 3 m))
  | _ => None
  end.

(** The lines before the first day header, and for each day header its
    date with the lines that follow it up to the next day header. *)
Fixpoint daysOfLines (ls : list jsstring)
  : list jsstring * list (jsstring * list jsstring) :=
  match ls with
  | [] => ([], [])
  | l :: rest =>
      let (pre, days) := daysOfLines rest in
      match headerDate l with
      | Some d => ([], (d, pre) :: days)
      | None => (l :: pre, days)
      end
  end.

(** The snapshot of a day from the lines of the day. *)
Definition snapshotOfLines (d : jsstring) (body : list jsstring) : DailySnapshot :=
  let '(_, ts, fm) := fold_left parseLine body (str_uncategorized, [], 0) in
  {| snap_date := d; tasks := ts; focusMinutes := fm |}.

Definition snapshotsOfLines (ls : list jsstring) : list DailySnapshot :=
  map (fun p => snapshotOfLines (fst p) (snd p)) (snd (daysOfLines ls)).

(** A text whose only line terminator is the line feed. *)
Definition onlyLineFeeds (s : jsstring) : bool :=
  forallb (fun c => negb ((c =? 13)%N || (c =? 8232)%N || (c =? 8233)%N)) s.

(** The text before the first day header of the lines, and the pieces that
    the split leaves after it: dates and the texts that follow them. *)
Fixpoint preText (ls : list jsstring) : jsstring :=
  match ls with
  | [] => []
  | l :: rest =>
      match headerDate l with
      | Some _ => []
      | None => match rest with
                | [] => l
                | _ :: _ => l ++ LF :: preText rest
                end
      end
  end.

Fixpoint sectionChunks (ls : list jsstring) : list jsstring :=
  match ls with
  | [] => []
  | l :: rest =>
      match headerDate l with
      | Some d =>
          d :: match rest with
               | [] => []
               | _ :: _ => LF :: preText rest
               end :: sectionChunks rest
      | None => sectionChunks rest
      end
  end.

(** ** The countdown on the dial (components/TimerDisplay.tsx) *)




(** ** The month file (updateMonthlyMarkdown, exportTodayToMarkdown) *)

Definition str_rule : jsstring := [45; 45; 45]%N.                    (* "---" *)
Definition str_h1 : jsstring := [35; 32]%N.                          (* "# " *)
Definition str_record : jsstring :=
  [32; 20219; 21153; 35760; 24405]%N.        (* " " U+4EFB U+52A1 U+8BB0 U+5F55 *)

(** [s.includes(sub)] *)
Fixpoint includes (s sub : jsstring) : bool :=
  match matchPrefix (lits sub) s with
  | Some _ => true
  | None =>
      match s with
      | [] => false
      | _ :: s' => includes s' sub
      end
  end.

(** [a < b] on strings: the order of the code units. *)
Fixpoint str_ltb (a b : jsstring) : bool :=
  match a, b with
  | _, [] => false
  | [], _ :: _ => true
  | x :: a', y :: b' =>
      if (x <? y)%N then true
      else if (y <? x)%N then false
      else str_ltb a' b'
  end.

(** The day header of a date. *)
Definition dayHeader (date : jsstring) : jsstring := str_h2 ++ date ++ str_tasks.

(** The lookahead of [dayRegex]: a rule on a line of its own comes next, or
    the header of a day does, or the input ends. *)
Definition dayEndAhead (rest : jsstring) : bool :=
  match matchPrefix (lits (LF :: str_rule ++ [LF])) rest with
  | Some _ => true
  | None =>
      match matchPrefix (Lit LF :: dayPattern) rest with
      | Some _ => true
      | None =>
          match rest with
          | [] => true
          | _ :: _ => false
          end
      end
  end.

(** The lazy run of [dayRegex] up to the first place where the lookahead
    holds: the text it takes and what follows. *)
Fixpoint lazyToDayEnd (rest : jsstring) : jsstring * jsstring :=
  match rest with
  | [] => ([], [])
  | c :: rest' =>
      if dayEndAhead rest then ([], rest)
      else let (taken, after) := lazyToDayEnd rest' in (c :: taken, after)
  end.

(** The replacement text of [String.prototype.replace] for a pattern
    without groups: [$$] is a dollar sign, [$&] the match, [$`] the text
    before the match, [$'] the text after it; any other dollar sign stands
    for itself. *)
Fixpoint getSubstitution (matched before after template : jsstring) : jsstring :=
  match template with
  | [] => []
  | c :: rest =>
      if (c =? 36)%N then
        match rest with
        | [] => [36%N]
        | c2 :: rest2 =>
            if (c2 =? 36)%N then
              36%N :: getSubstitution matched before after rest2
            else if (c2 =? 38)%N then
              matched ++ getSubstitution matched before after rest2
            else if (c2 =? 96)%N then
              before ++ getSubstitution matched before after rest2
            else if (c2 =? 39)%N then
              after ++ getSubstitution matched before after rest2
            else 36%N :: getSubstitution matched before after rest
        end
      else c :: getSubstitution matched before after rest
  end.

(** [existingContent.replace(dayRegex, dayContent)] with the [g] flag, for
    a header without characters special to a regular expression (the digits
    and hyphens of a date): every match of the header followed by the lazy
    run, from left to right, is replaced.  [before] is the text passed so
    far and [skip] counts the code units of the current match still to
    pass. *)
Fixpoint replaceDayRegex (header : list CharClass) (template before : jsstring)
    (skip : nat) (s : jsstring) : jsstring :=
  match s with
  | [] => []
  | c :: s' =>
      match skip with
      | S k => replaceDayRegex header template (before ++ [c]) k s'
      | O =>
          match matchPrefix header s with
          | Some (m, r) =>
              let (taken, after) := lazyToDayEnd r in
              getSubstitution (m ++ taken) before after template
              ++ replaceDayRegex header template (before ++ [c])
                   (length (m ++ taken) - 1) s'
          | None => c :: replaceDayRegex header template (before ++ [c]) O s'
          end
      end
  end.

(** [existingDates]: the dates of the lines that are day headers, each
    with the index of its line. *)
Fixpoint existingDatesFrom (index : nat) (lines : list jsstring)
  : list (jsstring * nat) :=
  match lines with
  | [] => []
  | line :: rest =>
      match headerDate line with
      | Some d => (d, index) :: existingDatesFrom (S index) rest
      | None => existingDatesFrom (S index) rest
      end
  end.

(** [insertIndex]: the line of the first day that is later than [date],
    the number of lines when there is none. *)
Definition insertIndex (date : jsstring) (lines : list jsstring) : nat :=
  match find (fun ed => str_ltb date (fst ed)) (existingDatesFrom O lines) with
  | Some ed => snd ed
  | None => length lines
  end.

(** [updateMonthlyMarkdown] for a date of the form YYYY-MM-DD, as [format]
    gives it.  The source builds [dayRegex] from the date before anything
    else: for a date with characters special to regular expressions
    [new RegExp] throws or gives another pattern, which this embedding does
    not follow; the statements about it take a date of that form. *)
Definition updateMonthlyMarkdown (existingContent date dayContent : jsstring)
  : jsstring :=
  if includes existingContent (dayHeader date)
  then replaceDayRegex (lits (dayHeader date)) dayContent [] O existingContent
  else
    let lines := splitLines existingContent in
    let insertContent := dayContent ++ LF :: str_rule ++ [LF] in
    let i := insertIndex date lines in
    join (firstn i lines ++ insertContent :: skipn i lines).

(** [Math.round(todayLog.secondsWorked / 60)] on whole seconds, 0 without
    a record of today. *)
Definition exportedFocusMinutes (today : jsstring) (logs : list DailyLog) : Z :=
  match find (fun l => str_eqb (date l) today) logs with
  | Some todayLog => (secondsWorked todayLog + 30) / 60
  | None => 0
  end.

(** [exportTodayToMarkdown] past its guard: what is written to the month
    file, [fileContent] being what was read from it (empty when the file is
    missing or cannot be read), [today] and [yearMonth] the formatted date. *)
Definition exportTodayToMarkdown (today yearMonth : jsstring) (logs : list DailyLog)
    (tasks : list Task) (columns : list Column) (fileContent : jsstring) : jsstring :=
  let focusMinutes := exportedFocusMinutes today logs in
  let dayContent := generateDayMarkdown today tasks columns focusMinutes in
  let existingContent :=
    match fileContent with
    | [] => str_h1 ++ yearMonth ++ str_record ++ [LF; LF]
    | _ :: _ => fileContent
    end in
  updateMonthlyMarkdown existingContent today dayContent.

(** The content that an export starts from: the title of the month when
    nothing was read. *)
Definition contentOrTitle (yearMonth fileContent : jsstring) : jsstring :=
  match fileContent with
  | [] => str_h1 ++ yearMonth ++ str_record ++ [LF; LF]
  | _ :: _ => fileContent
  end.

(** A line that is neither a rule nor the start of a day header. *)
Definition plainLine (l : jsstring) : bool :=
  negb (str_eqb l str_rule)
  && match matchPrefix dayPattern l with
     | Some _ => false
     | None => true
     end.

(** The index of the first line that is the header of a day later than
    [date]. *)
Fixpoint firstLaterDay (date : jsstring) (lines : list jsstring) : nat :=
  match lines with
  | [] => O
  | line :: rest =>
      match headerDate line with
      | Some d => if str_ltb date d then O else S (firstLaterDay date rest)
      | None => S (firstLaterDay date rest)
      end
  end.

(** ** The task board (App.tsx handlers, components/TaskList.tsx) *)

Definition str_todo : jsstring := [116; 111; 100; 111]%N.   (* "todo" *)

Definition withText (v : jsstring) (t : Task) : Task :=
  {| task_id := task_id t; text := v; completed := completed t;
     createdAt := createdAt t; completedAt := completedAt t;
     columnId := columnId t |}.

Definition withColumn (v : jsstring) (t : Task) : Task :=
  {| task_id := task_id t; text := text t; completed := completed t;
     createdAt := createdAt t; completedAt := completedAt t;
     columnId := v |}.

Definition withCompletion (c : bool) (at_ : option Z) (t : Task) : Task :=
  {| task_id := task_id t; text := text t; completed := c;
     createdAt := createdAt t; completedAt := at_;
     columnId := columnId t |}.

(** [addTask]: the two readings of [Date.now()] are [nowId] and [nowCreated]. *)
Definition addTask (txt column : jsstring) (nowId nowCreated : Z) (prev : list Task)
  : list Task :=
  prev ++ [ {| task_id := numberToString nowId; text := txt; completed := false;
               createdAt := nowCreated; completedAt := None; columnId := column |} ].

Definition updateTask (id newText : jsstring) (prev : list Task) : list Task :=
  map (fun t => if str_eqb (task_id t) id then withText newText t else t) prev.

Definition toggleTask (id : jsstring) (now : Z) (prev : list Task) : list Task :=
  map (fun t =>
         if str_eqb (task_id t) id then
           let isCompleted := negb (completed t) in
           withCompletion isCompleted (if isCompleted then Some now else None) t
         else t) prev.

Definition deleteTask (id : jsstring) (prev : list Task) : list Task :=
  filter (fun t => negb (str_eqb (task_id t) id)) prev.

(** [deleteColumn]: the columns that stay and the tasks, moved to the
    fallback column when more than one column existed.  The fallback is
    [columns.find(c => c.id !== id)?.id || 'todo']. *)
Definition fallbackColumn (id : jsstring) (columns : list Column) : jsstring :=
  match find (fun c => negb (str_eqb (col_id c) id)) columns with
  | Some c => match col_id c with
              | [] => str_todo
              | _ :: _ => col_id c
              end
  | None => str_todo
  end.

Definition deleteColumn (id : jsstring) (columns : list Column) (ts : list Task)
  : list Column * list Task :=
  (filter (fun c => negb (str_eqb (col_id c) id)) columns,
   if (1 <? length columns)%nat then
     map (fun t => if str_eqb (columnId t) id
                   then withColumn (fallbackColumn id columns) t else t) ts
   else ts).

(** [findIndex] of an array. *)
Fixpoint findIndex {A : Type} (p : A -> bool) (l : list A) : option nat :=
  match l with
  | [] => None
  | x :: rest => if p x then Some O
                 else match findIndex p rest with
                      | Some i => Some (S i)
                      | None => None
                      end
  end.

(** [handleDropOnColumn]: [None] when the handler returns before
    [onReorderTasks]. *)
Definition handleDropOnColumn (taskId targetColumnId : jsstring) (ts : list Task)
  : option (list Task) :=
  match taskId with
  | [] => None
  | _ :: _ =>
      match findIndex (fun t => str_eqb (task_id t) taskId) ts with
      | None => None
      | Some taskIndex =>
          match nth_error ts taskIndex with
          | None => None
          | Some task =>
              let newTasks := firstn taskIndex ts ++ skipn (S taskIndex) ts in
              Some (newTasks ++ [withColumn targetColumnId task])
          end
      end
  end.

(** [handleDropOnTask] *)
Definition handleDropOnTask (draggedTaskId targetTaskId : jsstring) (ts : list Task)
  : option (list Task) :=
  match draggedTaskId with
  | [] => None
  | _ :: _ =>
      if str_eqb draggedTaskId targetTaskId then None else
      match findIndex (fun t => str_eqb (task_id t) draggedTaskId) ts with
      | None => None
      | Some draggedIndex =>
          match nth_error ts draggedIndex with
          | None => None
          | Some draggedTask =>
              let newTasks := firstn draggedIndex ts ++ skipn (S draggedIndex) ts in
              match findIndex (fun t => str_eqb (task_id t) targetTaskId) newTasks with
              | None => Some (newTasks ++ [draggedTask])
              | Some targetIndex =>
                  match nth_error newTasks targetIndex with
                  | None => None
                  | Some targetTask =>
                      Some (firstn targetIndex newTasks
                            ++ withColumn (columnId targetTask) draggedTask
                            :: skipn targetIndex newTasks)
                  end
              end
          end
      end
  end.

(** [Array.prototype.sort] with a comparator: a stable sort, here by
    insertion from the right (the result of a stable sort does not depend on
    the algorithm). *)
Fixpoint insertSorted {A : Type} (cmp : A -> A -> Z) (x : A) (sorted : list A) : list A :=
  match sorted with
  | [] => [x]
  | y :: rest => if 0 <? cmp x y then y :: insertSorted cmp x rest
                 else x :: y :: rest
  end.

Definition sortStable {A : Type} (cmp : A -> A -> Z) (l : list A) : list A :=
  fold_right (insertSorted cmp) [] l.

(** [Number(a.completed) - Number(b.completed)] *)
Definition byCompletion (a b : Task) : Z :=
  Z.b2z (completed a) - Z.b2z (completed b).

(** The tasks that a column shows, in the order it shows them. *)
Definition columnTasks (ts : list Task) (column : Column) : list Task :=
  sortStable byCompletion
    (filter (fun t => str_eqb (columnId t) (col_id column)) ts).

(** A completed task carries its completion time, an open one carries none. *)
Definition completionRecorded (t : Task) : Prop :=
  if completed t then completedAt t <> None else completedAt t = None.

(** Every task sits in a column of the board. *)
Definition allListed (ts : list Task) (columns : list Column) : Prop :=
  Forall (fun t => exists c, In c columns /\ columnId t = col_id c) ts.

Section Board.

(** [isSameDay] of date-fns on two instants: taken as given. *)
Variable isSameDay : Z -> Z -> bool.

(** [cleanupOldTasks], [today] being [new Date()]. *)
Definition cleanupOldTasks (today : Z) (prev : list Task) : list Task :=
  filter (fun t =>
            if negb (completed t) then true
            else if completed t && truthy (completedAt t)
                    && match completedAt t with
                       | Some doneAt => isSameDay doneAt today
                       | None => false
                       end
                 then true else false) prev.

(** The operations on the board. *)
Inductive BoardEvent :=
| AddTask (txt column : jsstring) (nowId nowCreated : Z)
| UpdateTask (id newText : jsstring)
| ToggleTask (id : jsstring) (now : Z)
| DeleteTask (id : jsstring)
| DropOnColumn (taskId targetColumnId : jsstring)
| DropOnTask (draggedTaskId targetTaskId : jsstring)
| DeleteColumn (id : jsstring)
| CleanupOldTasks (today : Z).

Definition boardStep (e : BoardEvent) (b : list Column * list Task)
  : list Column * list Task :=
  let (columns, ts) := b in
  match e with
  | AddTask txt column nowId nowCreated =>
      (columns, addTask txt column nowId nowCreated ts)
  | UpdateTask id newText => (columns, updateTask id newText ts)
  | ToggleTask id now => (columns, toggleTask id now ts)
  | DeleteTask id => (columns, deleteTask id ts)
  | DropOnColumn taskId targetColumnId =>
      match handleDropOnColumn taskId targetColumnId ts with
      | Some newTasks => (columns, newTasks)
      | None => b
      end
  | DropOnTask draggedTaskId targetTaskId =>
      match handleDropOnTask draggedTaskId targetTaskId ts with
      | Some newTasks => (columns, newTasks)
      | None => b
      end
  | DeleteColumn id => deleteColumn id columns ts
  | CleanupOldTasks today => (columns, cleanupOldTasks today ts)
  end.

End Board.

(** ** Import of an archive (handleImportMarkdown) *)

(** The updater of [setHistoricalSnapshots]. *)
Definition importSnapshots (snapshots prev : list DailySnapshot) : list DailySnapshot :=
  prev ++ filter (fun s => negb (existsb (str_eqb (snap_date s)) (map snap_date prev)))
            snapshots.

(** The updater of [setLogs]. *)
Definition importLogs (snapshots : list DailySnapshot) (prev : list DailyLog)
  : list DailyLog :=
  prev ++ map (fun s =>
                 {| date := snap_date s; secondsWorked := focusMinutes s * 60;
                    tasksCompleted :=
                      Some (Z.of_nat (length (filter h_completed (tasks s)))) |})
            (filter (fun s => negb (existsb (str_eqb (snap_date s)) (map date prev))
                              && (0 <? focusMinutes s)) snapshots).

(** ** The month file written at once (generateMonthlyMarkdown) *)

(** The default order of [Array.prototype.sort]: the strings by their
    code units. *)
Definition compareStrings (a b : jsstring) : Z :=
  if str_ltb a b then -1 else if str_ltb b a then 1 else 0.

(** [dailyContents.get(date) || ''], the Map being the list of its entries
    in the order of insertion, each key once. *)
Definition contentOf (date : jsstring) (dailyContents : list (jsstring * jsstring))
  : jsstring :=
  match find (fun e => str_eqb (fst e) date) dailyContents with
  | Some e => snd e
  | None => []
  end.

Definition generateMonthlyMarkdown (yearMonth : jsstring)
    (dailyContents : list (jsstring * jsstring)) : jsstring :=
  let sortedDates := sortStable compareStrings (map fst dailyContents) in
  join ([str_h1 ++ yearMonth ++ str_record; []]
        ++ flat_map (fun date => [contentOf date dailyContents; str_rule; []])
             sortedDates).

(** ** The statistics (components/Stats.tsx) *)


(** [getFocusMinutesForDate], [dateStr] being the formatted date. *)
Definition getFocusMinutesForDate (dateStr : jsstring) (logs : list DailyLog)
    (historicalSnapshots : list DailySnapshot) : Z :=
  let logMinutes :=
    match find (fun l => str_eqb (date l) dateStr) logs with
    | Some log => (secondsWorked log + 30) / 60
    | None => 0
    end in
  let snapshotMinutes :=
    match find (fun s => str_eqb (snap_date s) dateStr) historicalSnapshots with
    | Some snapshot => focusMinutes snapshot
    | None => 0
    end in
  Z.max logMinutes snapshotMinutes.

Section Stats.

Variable isSameDay : Z -> Z -> bool.

(** [getCompletedCountForDate]: the tasks of the board completed that
    day and the completed tasks of the snapshot of the day; [dateStr] is the
    formatted [day]. *)
Definition getCompletedCountForDate (day : Z) (dateStr : jsstring)
    (currentTasks : list Task) (historicalSnapshots : list DailySnapshot) : Z :=
  let completedTasks :=
    filter (fun t => completed t && truthy (completedAt t)
                     && match completedAt t with
                        | Some doneAt => isSameDay doneAt day
                        | None => false
                        end) currentTasks in
  let historicalTasks :=
    match find (fun s => str_eqb (snap_date s) dateStr) historicalSnapshots with
    | Some snapshot => filter h_completed (tasks snapshot)
    | None => []
    end in
  Z.of_nat (length completedTasks + length historicalTasks).

End Stats.


(** ** Vocabulary of the further statements *)

(** The snapshot and the overlay go with the micro-break. *)
Definition microBreakConsistent (s : State) : Prop :=
  match mode s with
  | MICRO_BREAK => workTimeSnapshotRef s <> None /\ showMicroBreakOverlay s = true
  | _ => workTimeSnapshotRef s = None /\ showMicroBreakOverlay s = false
  end.

(** Settings without a negative duration. *)
Definition durationsNonneg (st : Settings) : Prop :=
  0 <= workDuration st /\ 0 <= breakDuration st /\ 0 <= microBreakDuration st.

(** No negative duration, countdown or snapshot. *)
Definition countdownNonneg (s : State) : Prop :=
  durationsNonneg (settings s) /\ 0 <= timeRemaining s
  /\ match workTimeSnapshotRef s with
     | Some snap => 0 <= snap
     | None => True
     end.

(** An event that brings no negative duration. *)
Definition bringsNonnegDurations (e : Event) : Prop :=
  match e with
  | SaveSettings _ newSettings => durationsNonneg newSettings
  | _ => True
  end.

(** ** Concrete inputs *)

(** The settings of the sixty-tick scenario: 25 and 5 minutes, micro-breaks
    of 10 seconds every 1 to 1 minutes. *)
Definition scenarioSettings (startBreak startWork : bool) : Settings :=
  {| workDuration := 25; breakDuration := 5; microBreakDuration := 10;
     microBreakMinInterval := 1; microBreakMaxInterval := 1;
     enableMicroBreaks := true;
     autoStartBreak := startBreak; autoStartWork := startWork |}.

(** [n] clock readings one second apart, the first one second after [t0]. *)
Definition clockReadings (t0 : Z) (n : nat) : list Z :=
  map (fun k => t0 + 1000 * Z.of_nat k) (seq 1 n).

(** [DEFAULT_SETTINGS] of types.ts. *)
Definition DEFAULT_SETTINGS : Settings :=
  {| workDuration := 30; breakDuration := 10; microBreakDuration := 10;
     microBreakMinInterval := 3; microBreakMaxInterval := 5;
     enableMicroBreaks := true; autoStartBreak := true; autoStartWork := false |}.

(** The default settings with micro-breaks switched off. *)
Definition microBreaksOff : Settings :=
  {| workDuration := 30; breakDuration := 10; microBreakDuration := 10;
     microBreakMinInterval := 3; microBreakMaxInterval := 5;
     enableMicroBreaks := false; autoStartBreak := true; autoStartWork := false |}.

(** One minute of work, five of break, no micro-breaks. *)
Definition oneMinuteWork : Settings :=
  {| workDuration := 1; breakDuration := 5; microBreakDuration := 10;
     microBreakMinInterval := 3; microBreakMaxInterval := 5;
     enableMicroBreaks := false; autoStartBreak := true; autoStartWork := false |}.

(** A source of random numbers that always answers 1/2. *)
Definition halfFrac : UnitFrac := {| uf_num := 1; uf_den := 2; uf_ok := eq_refl |}.
Definition alwaysHalf (n : nat) : UnitFrac := halfFrac.


(** The draw 885954025056491 / 2^54, a binary64 itself: its product with 61
    is less than 3 by 2^-54 and rounds to 3. *)
Definition boundaryDraw : UnitFrac :=
  {| uf_num := 885954025056491; uf_den := 2 ^ 54; uf_ok := eq_refl |}.


(** "2024-01-01" *)
Definition newYear : jsstring := [50; 48; 50; 52; 45; 48; 49; 45; 48; 49]%N.

(** The application started with the default settings and the timer
    started at clock reading 0: the first micro-break is 240 seconds away. *)
Definition defaultRunning : State :=
  step alwaysHalf (ToggleTimer 0) (mount alwaysHalf DEFAULT_SETTINGS [] 0).

(** The sixty-tick scenario, taken to the micro-break of its sixtieth tick. *)
Definition scenarioAt59 : State :=
  run alwaysHalf (ticks newYear (clockReadings 0 59))
    (step alwaysHalf (ToggleTimer 0)
       (mount alwaysHalf (scenarioSettings true false) [] 0)).

Definition scenarioInMicroBreak : State :=
  step alwaysHalf (Tick 60000 newYear) scenarioAt59.

(** The settings of the scenario with micro-breaks of 20 seconds. *)
Definition longerMicroBreaks : Settings :=
  {| workDuration := 25; breakDuration := 5; microBreakDuration := 20;
     microBreakMinInterval := 1; microBreakMaxInterval := 1;
     enableMicroBreaks := true; autoStartBreak := true; autoStartWork := false |}.

(** One minute of work started at clock reading 0. *)
Definition oneMinuteRunning : State :=
  step alwaysHalf (ToggleTimer 0) (mount alwaysHalf oneMinuteWork [] 0).

(** One minute of work at its last second, and the break that follows at
    its last second. *)
Definition lastSecondOfWork : State :=
  run alwaysHalf (ticks newYear (clockReadings 0 59)) oneMinuteRunning.


(** A column whose title holds a line feed followed by "- [ ] ghost", and
    one unfinished task "a" in it. *)
Definition ghostColumn : Column :=
  {| col_id := [99]%N;
     title := [84; 10; 45; 32; 91; 32; 93; 32; 103; 104; 111; 115; 116]%N |}.

Definition taskA : Task :=
  {| task_id := [49]%N; text := [97]%N; completed := false;
     createdAt := 0; completedAt := None; columnId := [99]%N |}.

(** A board with the columns "Todo" and "Done" and three tasks. *)
Definition boardColumns : list Column :=
  [ {| col_id := [116]%N; title := [84; 111; 100; 111]%N |};
    {| col_id := [100]%N; title := [68; 111; 110; 101]%N |} ].

Definition boardTasks : list Task :=
  [ {| task_id := [49]%N; text := [119; 114; 105; 116; 101]%N; completed := true;
       createdAt := 0; completedAt := Some 5; columnId := [100]%N |};
    {| task_id := [50]%N; text := [114; 101; 97; 100]%N; completed := false;
       createdAt := 1; completedAt := None; columnId := [116]%N |};
    {| task_id := [51]%N; text := [114; 117; 110]%N; completed := true;
       createdAt := 2; completedAt := Some 7; columnId := [100]%N |} ].

(** Two instants are of the same day when they fall in the same span of
    86400000 milliseconds: one possible [isSameDay]. *)
Definition sameSpanOfDay (a b : Z) : bool := (a / 86400000 =? b / 86400000).

(** "2024-01-02" *)
Definition secondOfJanuary : jsstring := [50; 48; 50; 52; 45; 48; 49; 45; 48; 50]%N.

(** An archive of two days, and a ledger that knows the first of them. *)
Definition archiveSnapshots : list DailySnapshot :=
  [ {| snap_date := newYear; tasks := []; focusMinutes := 25 |};
    {| snap_date := secondOfJanuary;
       tasks := [ {| h_text := [97]%N; h_completed := true;
                     columnTitle := [68; 111; 110; 101]%N |} ];
       focusMinutes := 50 |} ].

Definition knownLedger : list DailyLog :=
  [ {| date := newYear; secondsWorked := 600; tasksCompleted := None |} ].

(** "2024-01" *)
Definition january : jsstring := [50; 48; 50; 52; 45; 48; 49]%N.

(** The content of the first of January: the board and 25 minutes. *)
Definition newYearContent : jsstring :=
  generateDayMarkdown newYear boardTasks boardColumns 25.

(** A month file that holds the second of January, written by an export
    into an empty file. *)
Definition januaryFile : jsstring :=
  exportTodayToMarkdown secondOfJanuary january [] boardTasks boardColumns [].

(** The title of January followed by an empty line. *)
Definition januaryTitle : jsstring := str_h1 ++ january ++ str_record ++ [LF; LF; LF].

(** * Proofs *)

Arguments runEffects : simpl never.
Arguments switchMode : simpl never.
Arguments scheduleNextMicroBreak : simpl never.


(** ** Strings and modes *)

Lemma str_eqb_eq (a b : jsstring) : str_eqb a b = true <-> a = b.
Proof.
  revert b; induction a as [|x a IH]; intros [|y b]; simpl; split;
    try congruence; try reflexivity.
  - rewrite andb_true_iff, N.eqb_eq, IH. intros [-> ->]; reflexivity.
  - intros E; injection E as -> ->. rewrite N.eqb_refl.
    apply IH; reflexivity.
Qed.

Lemma str_eqb_refl (a : jsstring) : str_eqb a a = true.
Proof. apply str_eqb_eq; reflexivity. Qed.

Lemma mode_eqb_eq (a b : TimerMode) : mode_eqb a b = true <-> a = b.
Proof. destruct a, b; simpl; split; congruence. Qed.

(** ** The timer *)

Lemma unitFrac_bounds (r : UnitFrac) : 0 <= uf_num r < uf_den r.
Proof.
  pose proof (uf_ok r) as H. apply andb_true_iff in H as [H1 H2].
  apply Z.leb_le in H1. apply Z.ltb_lt in H2. lia.
Qed.

(** ** Binary64 rounding *)

Lemma unitsPerOne_pos : 0 < unitsPerOne.
Proof. unfold unitsPerOne. apply Z.pow_pos_nonneg; lia. Qed.

Lemma roundHalfEven_close (n d : Z) :
  0 < d ->
  2 * n - d <= 2 * d * roundHalfEven n d <= 2 * n + d.
Proof.
  intros Hd. unfold roundHalfEven.
  pose proof (Z.div_mod n d ltac:(lia)) as E.
  pose proof (Z.mod_pos_bound n d Hd) as B.
  destruct (Z.ltb_spec (2 * (n mod d)) d); [nia|].
  destruct (Z.ltb_spec d (2 * (n mod d))); [nia|].
  destruct (Z.even (n / d)); nia.
Qed.

Lemma roundHalfEven_floor (n d : Z) :
  0 < d -> n / d <= roundHalfEven n d.
Proof.
  intros Hd. unfold roundHalfEven.
  destruct (2 * (n mod d) <? d); [lia|].
  destruct (d <? 2 * (n mod d)); [lia|].
  destruct (Z.even (n / d)); lia.
Qed.


Lemma floorLog2_spec (n d : Z) :
  0 < d <= n ->
  0 <= floorLog2 n d
  /\ d * 2 ^ floorLog2 n d <= n < d * 2 ^ (floorLog2 n d + 1).
Proof.
  intros [Hd Hn]. unfold floorLog2.
  destruct (Z.log2_spec n ltac:(lia)) as [A1 A2].
  destruct (Z.log2_spec d Hd) as [B1 B2].
  pose proof (Z.log2_le_mono d n Hn) as Hm.
  pose proof (Z.log2_nonneg d) as Hb.
  set (a := Z.log2 n) in *. set (b := Z.log2 d) in *.
  assert (Ea : 2 ^ a = 2 ^ b * 2 ^ (a - b)).
  { rewrite <- Z.pow_add_r by lia. f_equal. lia. }
  assert (P1 : 0 < 2 ^ b) by (apply Z.pow_pos_nonneg; lia).
  assert (P2 : 0 < 2 ^ (a - b)) by (apply Z.pow_pos_nonneg; lia).
  rewrite Z.pow_succ_r in A2, B2 by lia.
  destruct (Z.ltb_spec n (d * 2 ^ (a - b))) as [L|L].
  - assert (Ht : 1 <= a - b).
    { destruct (Z.eq_dec (a - b) 0) as [E|E]; [|lia].
      rewrite E in L. simpl in L. lia. }
    replace (a - b - 1 + 1) with (a - b) by lia.
    assert (E2 : 2 ^ (a - b) = 2 * 2 ^ (a - b - 1)).
    { rewrite <- Z.pow_succ_r by lia. f_equal. lia. }
    assert (P3 : 0 < 2 ^ (a - b - 1)) by (apply Z.pow_pos_nonneg; lia).
    split; [lia|]. split; [|exact L].
    nia.
  - split; [lia|]. split; [exact L|].
    replace (2 ^ (a - b + 1)) with (2 * 2 ^ (a - b))
      by (rewrite <- Z.pow_succ_r by lia; f_equal; lia).
    nia.
Qed.

Lemma floorLog2_small (n d : Z) :
  0 <= n < d -> floorLog2 n d < 0.
Proof.
  intros [Hn Hd]. unfold floorLog2.
  pose proof (Z.log2_le_mono n d ltac:(lia)) as Hm.
  destruct (Z.eq_dec (Z.log2 n - Z.log2 d) 0) as [E|E].
  - rewrite E. simpl. destruct (Z.ltb_spec n (d * 1)); lia.
  - assert (Ht : Z.log2 n - Z.log2 d < 0) by lia.
    rewrite Z.pow_neg_r by lia.
    destruct (Z.ltb_spec n (d * 0)); lia.
Qed.

Lemma ulpExponent_facts (n d : Z) :
  0 <= n -> 0 < d ->
  0 <= ulpExponent n d
  /\ (0 < ulpExponent n d -> d * 2 ^ (ulpExponent n d + 52) <= n)
  /\ n < d * 2 ^ (ulpExponent n d + 53).
Proof.
  intros Hn Hd. unfold ulpExponent.
  destruct (Z_lt_le_dec n d) as [Hs|Hl].
  - pose proof (floorLog2_small n d ltac:(lia)) as G.
    rewrite Z.max_l by lia. split; [lia|]. split; [lia|].
    assert (1 <= 2 ^ (0 + 53)) by (apply (Z.pow_le_mono_r 2 0 53); lia). nia.
  - destruct (floorLog2_spec n d ltac:(lia)) as (G0 & G1 & G2).
    set (g := floorLog2 n d) in *.
    split; [lia|]. split.
    + intros Hu. replace (Z.max 0 (g - 52) + 52) with g by lia. exact G1.
    + assert (2 ^ (g + 1) <= 2 ^ (Z.max 0 (g - 52) + 53))
        by (apply Z.pow_le_mono_r; lia).
      nia.
Qed.

Lemma nearestUnits_close (n d : Z) :
  0 <= n -> 0 < d ->
  2 * n - d * 2 ^ ulpExponent n d <= 2 * d * nearestUnits n d
    <= 2 * n + d * 2 ^ ulpExponent n d.
Proof.
  intros Hn Hd. unfold nearestUnits. cbv zeta.
  destruct (ulpExponent_facts n d Hn Hd) as (U0 & _).
  assert (P : 0 < 2 ^ ulpExponent n d) by (apply Z.pow_pos_nonneg; lia).
  pose proof (roundHalfEven_close n (d * 2 ^ ulpExponent n d) ltac:(nia)) as C.
  nia.
Qed.

Lemma nearestUnits_nonneg (n d : Z) :
  0 <= n -> 0 < d -> 0 <= nearestUnits n d.
Proof.
  intros Hn Hd. unfold nearestUnits. cbv zeta.
  destruct (ulpExponent_facts n d Hn Hd) as (U0 & _).
  assert (P : 0 < 2 ^ ulpExponent n d) by (apply Z.pow_pos_nonneg; lia).
  pose proof (roundHalfEven_floor n (d * 2 ^ ulpExponent n d) ltac:(nia)) as F.
  assert (0 <= n / (d * 2 ^ ulpExponent n d)) by (apply Z.div_pos; nia).
  nia.
Qed.



Section Draw.

Variables V k : Z.
Hypothesis HV0 : 0 <= V.
Hypothesis HV : V * 2 ^ 53 <= (2 ^ 53 - 1) * unitsPerOne.
Hypothesis Hk : 0 < k.

Let P := nearestUnits (V * (k * unitsPerOne)) unitsPerOne.
Let u := ulpExponent (V * (k * unitsPerOne)) unitsPerOne.

Lemma draw_half_ulp : 2 * P <= 2 * (V * k) + 2 ^ u /\ 2 * (V * k) - 2 ^ u <= 2 * P.
Proof.
  pose proof unitsPerOne_pos as HT.
  pose proof (nearestUnits_close (V * (k * unitsPerOne)) unitsPerOne ltac:(nia) HT) as C.
  fold P in C. fold u in C. nia.
Qed.

Lemma draw_ulp_small : 2 ^ (u + 52) < k * unitsPerOne.
Proof.
  pose proof unitsPerOne_pos as HT.
  destruct (ulpExponent_facts (V * (k * unitsPerOne)) unitsPerOne ltac:(nia) HT)
    as (U0 & U1 & _). fold u in U0, U1.
  assert (T52 : 2 ^ 52 < unitsPerOne)
    by (unfold unitsPerOne; apply Z.pow_lt_mono_r; lia).
  assert (HVT : V < unitsPerOne) by nia.
  destruct (Z_le_gt_dec u 0) as [Hz|Hp].
  - replace u with 0 by lia. simpl (0 + 52). nia.
  - specialize (U1 ltac:(lia)).
    assert (0 < 2 ^ (u + 52)) by (apply Z.pow_pos_nonneg; lia). nia.
Qed.

Lemma draw_below : P < k * unitsPerOne.
Proof.
  pose proof unitsPerOne_pos as HT.
  destruct draw_half_ulp as [H1 _]. pose proof draw_ulp_small as H2.
  destruct (ulpExponent_facts (V * (k * unitsPerOne)) unitsPerOne ltac:(nia) HT)
    as (U0 & _). fold u in U0.
  assert (E : 2 ^ (u + 52) = 2 ^ u * 2 ^ 52) by (apply Z.pow_add_r; lia).
  assert (0 < 2 ^ u) by (apply Z.pow_pos_nonneg; lia).
  assert (T53 : (unitsPerOne - V) * 2 ^ 53 >= unitsPerOne) by nia.
  change (2 ^ 53) with (2 * 2 ^ 52) in *. nia.
Qed.

Lemma draw_bounds : 0 <= P / unitsPerOne <= k - 1.
Proof.
  pose proof unitsPerOne_pos as HT. split.
  - apply Z.div_pos; [|lia]. apply nearestUnits_nonneg; nia.
  - assert (P / unitsPerOne < k); [|lia].
    apply Z.div_lt_upper_bound; [lia|]. pose proof draw_below. nia.
Qed.

End Draw.


Lemma randomUnits_bounds (r : UnitFrac) :
  0 <= randomUnits r
  /\ randomUnits r * 2 ^ 53 <= (2 ^ 53 - 1) * unitsPerOne
  /\ randomUnits r * uf_den r <= uf_num r * unitsPerOne.
Proof.
  pose proof (unitFrac_bounds r) as Hr. pose proof unitsPerOne_pos as HT.
  unfold randomUnits, unitsBelow. cbv zeta.
  set (n := uf_num r * unitsPerOne). set (d := uf_den r) in *.
  destruct (ulpExponent_facts n d ltac:(unfold n; nia) ltac:(lia)) as (U0 & U1 & U2).
  set (u := ulpExponent n d) in *.
  assert (P : 0 < 2 ^ u) by (apply Z.pow_pos_nonneg; lia).
  assert (M0 : 0 <= n / (d * 2 ^ u)) by (apply Z.div_pos; unfold n; nia).
  assert (M1 : n / (d * 2 ^ u) < 2 ^ 53).
  { apply Z.div_lt_upper_bound; [nia|].
    rewrite Z.pow_add_r in U2 by lia. nia. }
  assert (M2 : d * 2 ^ u * (n / (d * 2 ^ u)) <= n)
    by (apply Z.mul_div_le; nia).
  assert (Hu : u <= 1021).
  { destruct (Z_le_gt_dec u 0) as [|Hp]; [lia|].
    specialize (U1 ltac:(lia)).
    assert (L : 2 ^ (u + 52) < 2 ^ 1074).
    { fold unitsPerOne.
      assert (0 < 2 ^ (u + 52)) by (apply Z.pow_pos_nonneg; lia).
      unfold n in U1. nia. }
    apply Z.pow_lt_mono_r_iff in L; lia. }
  split; [nia|]. split.
  - assert (L : 2 ^ u <= 2 ^ 1021) by (apply Z.pow_le_mono_r; lia).
    replace unitsPerOne with (2 ^ 1021 * 2 ^ 53)
      by (unfold unitsPerOne; rewrite <- Z.pow_add_r by lia; reflexivity).
    assert (0 < 2 ^ 53) by (apply Z.pow_pos_nonneg; lia).
    assert (A : n / (d * 2 ^ u) * 2 ^ u <= (2 ^ 53 - 1) * 2 ^ 1021)
      by (apply Z.mul_le_mono_nonneg; lia).
    rewrite Z.mul_assoc. apply Z.mul_le_mono_nonneg_r; lia.
  - fold n. refine (Z.le_trans _ _ _ (Z.eq_le_incl _ _ _) M2). ring.
Qed.

Lemma roundUnits_nonneg_eq (n d : Z) : 0 <= n -> roundUnits n d = nearestUnits n d.
Proof.
  intros H. unfold roundUnits. destruct (Z.ltb_spec n 0); [lia | reflexivity].
Qed.

(** The draw is the whole part of the rounded product. *)
Lemma floor_mul_eq (r : UnitFrac) (k : Z) :
  0 <= k ->
  floor_mul r k =
  nearestUnits (randomUnits r * (k * unitsPerOne)) unitsPerOne / unitsPerOne.
Proof.
  intros Hk. destruct (randomUnits_bounds r) as (H0 & _).
  pose proof unitsPerOne_pos as HT.
  unfold floor_mul, b64_floor, b64_mul. rewrite roundUnits_nonneg_eq by nia.
  apply Z.div_mul. lia.
Qed.

Lemma floor_mul_bounds (r : UnitFrac) (k : Z) :
  0 < k -> 0 <= floor_mul r k <= k - 1.
Proof.
  intros Hk. destruct (randomUnits_bounds r) as (H0 & H1 & _).
  rewrite floor_mul_eq by lia.
  exact (draw_bounds (randomUnits r) k H0 H1 Hk).
Qed.


(** ** Whole numbers as binary64 *)







(** ** The scheduler and the effects *)

Section TimerProofs.

Variable Math_random : nat -> UnitFrac.

(** C9: [getDurationForMode] is a function of the settings and the mode:
    [workDuration * 60] for Work, [breakDuration * 60] for ShortBreak, and
    [microBreakDuration], in seconds as it is, for MicroBreak. *)
Theorem getDurationForMode_spec (st : Settings) :
  getDurationForMode st WORK = workDuration st * 60
  /\ getDurationForMode st SHORT_BREAK = breakDuration st * 60
  /\ getDurationForMode st MICRO_BREAK = microBreakDuration st.
Proof. repeat split. Qed.


Lemma runEffects_eq (fuel : nat) (now : Z) (prev s : State) :
  runEffects Math_random fuel now prev s =
  let s1 := if microBreakEffectDeps prev s
            then microBreakEffect Math_random now s else s in
  if tickEffectDeps prev s then
    match tickEffect Math_random now s1 with
    | Some s2 =>
        match fuel with
        | O => s2
        | S fuel' => runEffects Math_random fuel' now s1 s2
        end
    | None => s1
    end
  else s1.
Proof. destruct fuel; reflexivity. Qed.

(** When the tick effect issues no update, the effects end after one round. *)
Lemma runEffects_paused (fuel : nat) (now : Z) (prev s : State) :
  isActive s = false ->
  runEffects Math_random fuel now prev s =
  if microBreakEffectDeps prev s then microBreakEffect Math_random now s else s.
Proof.
  intros Hp. rewrite runEffects_eq. cbv zeta.
  assert (E : tickEffect Math_random now
                (if microBreakEffectDeps prev s
                 then microBreakEffect Math_random now s else s) = None).
  { unfold tickEffect, microBreakEffect, scheduleNextMicroBreak.
    rewrite Hp, andb_false_r. simpl.
    destruct (microBreakEffectDeps prev s); simpl; rewrite ?Hp; simpl;
      try (destruct (enableMicroBreaks (settings s)); simpl; rewrite ?Hp);
      rewrite ?andb_false_r; reflexivity. }
  rewrite E. destruct (tickEffectDeps prev s); reflexivity.
Qed.


(** The scheduler and its effect touch the two schedule refs and the draw
    counter only. *)
Lemma scheduleNextMicroBreak_core (st : Settings) (now : Z) (s : State) :
  let s' := scheduleNextMicroBreak Math_random st now s in
  settings s' = settings s /\ settingsId s' = settingsId s
  /\ mode s' = mode s /\ timeRemaining s' = timeRemaining s
  /\ isActive s' = isActive s
  /\ showMicroBreakOverlay s' = showMicroBreakOverlay s
  /\ workTimeSnapshotRef s' = workTimeSnapshotRef s /\ logs s' = logs s.
Proof.
  unfold scheduleNextMicroBreak.
  destruct (enableMicroBreaks st); simpl; repeat split.
Qed.

Lemma microBreakEffect_core (now : Z) (s : State) :
  let s' := microBreakEffect Math_random now s in
  settings s' = settings s /\ settingsId s' = settingsId s
  /\ mode s' = mode s /\ timeRemaining s' = timeRemaining s
  /\ isActive s' = isActive s
  /\ showMicroBreakOverlay s' = showMicroBreakOverlay s
  /\ workTimeSnapshotRef s' = workTimeSnapshotRef s /\ logs s' = logs s.
Proof.
  unfold microBreakEffect.
  destruct (mode_eqb (mode s) WORK && isActive s && enableMicroBreaks (settings s)).
  - apply scheduleNextMicroBreak_core.
  - destruct (enableMicroBreaks (settings s)); simpl; repeat split.
Qed.

(** While the countdown runs, the tick effect only registers the interval. *)
Lemma runEffects_running (fuel : nat) (now : Z) (prev s : State) :
  isActive s = true -> 0 < timeRemaining s ->
  runEffects Math_random fuel now prev s =
  if microBreakEffectDeps prev s then microBreakEffect Math_random now s else s.
Proof.
  intros Ha Ht. rewrite runEffects_eq. cbv zeta.
  assert (E : tickEffect Math_random now
                (if microBreakEffectDeps prev s
                 then microBreakEffect Math_random now s else s) = None).
  { unfold tickEffect.
    destruct (microBreakEffectDeps prev s).
    - destruct (microBreakEffect_core now s) as (_ & _ & _ & -> & -> & _).
      rewrite Ha. simpl. apply Z.ltb_lt in Ht. rewrite Ht. reflexivity.
    - rewrite Ha. simpl. apply Z.ltb_lt in Ht. rewrite Ht. reflexivity. }
  rewrite E. destruct (tickEffectDeps prev s); reflexivity.
Qed.

(** When the countdown does not stand at zero while it runs, the tick
    effect issues no update and the effects end after one round. *)
Lemma runEffects_at_rest (fuel : nat) (now : Z) (prev s : State) :
  (isActive s = true -> timeRemaining s <> 0) ->
  runEffects Math_random fuel now prev s =
  if microBreakEffectDeps prev s then microBreakEffect Math_random now s else s.
Proof.
  intros Hz. destruct (isActive s) eqn:Ha; [|apply runEffects_paused; exact Ha].
  destruct (Z_lt_le_dec 0 (timeRemaining s)) as [Hp|Hn];
    [apply runEffects_running; assumption|].
  specialize (Hz eq_refl). rewrite runEffects_eq. cbv zeta.
  assert (E : tickEffect Math_random now
                (if microBreakEffectDeps prev s
                 then microBreakEffect Math_random now s else s) = None).
  { assert (L : (0 <? timeRemaining s) = false) by (apply Z.ltb_ge; lia).
    assert (Q : (timeRemaining s =? 0) = false) by (apply Z.eqb_neq; exact Hz).
    unfold tickEffect.
    destruct (microBreakEffectDeps prev s).
    - destruct (microBreakEffect_core now s) as (_ & _ & _ & -> & -> & _).
      rewrite Ha, L, Q. reflexivity.
    - rewrite Ha, L, Q. reflexivity. }
  rewrite E. destruct (tickEffectDeps prev s); reflexivity.
Qed.

(** C7, as the code has it: when the timer is in Work or in ShortBreak and a
    saved settings record changes the duration of that mode, the timer stays
    in the mode, [timeRemaining] becomes the new duration of the mode and the
    timer is paused.  In MicroBreak a saved settings record, whatever it
    changes, leaves the mode, the countdown and [isActive] as they are; the
    state is one the timer rests in: a running countdown at zero has already
    left its mode. *)
Theorem onSave_duration_changed (s : State) (newSettings : Settings) (now : Z) :
  let s' := step Math_random (SaveSettings now newSettings) s in
  (mode s <> MICRO_BREAK ->
   getDurationForMode newSettings (mode s) <> getDurationForMode (settings s) (mode s) ->
   settings s' = newSettings
   /\ mode s' = mode s
   /\ timeRemaining s' = getDurationForMode (settings s') (mode s')
   /\ isActive s' = false)
  /\ (mode s = MICRO_BREAK ->
      (isActive s = true -> timeRemaining s <> 0) ->
      settings s' = newSettings
      /\ mode s' = MICRO_BREAK
      /\ timeRemaining s' = timeRemaining s
      /\ isActive s' = isActive s).
Proof.
  cbv zeta. unfold step. split.
  - intros Hm Hd.
    assert (E : onSave newSettings s =
                setIsActive false
                  (setTimeRemaining (getDurationForMode newSettings (mode s))
                     (setSettings newSettings s))).
    { unfold onSave. destruct (mode s); simpl in *; try congruence.
      - destruct (Z.eqb_spec (workDuration (settings s)) (workDuration newSettings))
          as [E|E]; [rewrite E in Hd; congruence | reflexivity].
      - destruct (Z.eqb_spec (breakDuration (settings s)) (breakDuration newSettings))
          as [E|E]; [rewrite E in Hd; congruence | reflexivity]. }
    rewrite E. rewrite runEffects_paused by reflexivity.
    destruct (microBreakEffectDeps _ _).
    + destruct (microBreakEffect_core now
        (setIsActive false
           (setTimeRemaining (getDurationForMode newSettings (mode s))
              (setSettings newSettings s)))) as (-> & _ & -> & -> & -> & _).
      simpl. repeat split.
    + simpl. repeat split.
  - intros Hm Hz.
    assert (E : onSave newSettings s = setSettings newSettings s)
      by (unfold onSave; rewrite Hm; reflexivity).
    rewrite E. rewrite runEffects_at_rest by exact Hz.
    destruct (microBreakEffectDeps _ _).
    + destruct (microBreakEffect_core now (setSettings newSettings s))
        as (-> & _ & -> & -> & -> & _).
      simpl. rewrite Hm. repeat split.
    + simpl. rewrite Hm. repeat split.
Qed.

(** C1, what the code does: pausing in Work stores the [D] milliseconds
    left before the deadline and the handler of the resume puts the deadline
    [D] milliseconds ahead again, but the effect that follows the resume
    (its dependencies contain [isActive]) schedules anew: after pause and
    resume the next micro-break is one fresh random interval away, whatever
    [D] was. *)
Theorem pause_resume_reschedules (s : State) (t0 t1 D : Z) :
  mode s = WORK -> isActive s = true ->
  enableMicroBreaks (settings s) = true ->
  0 < timeRemaining s ->
  0 < D -> 0 <= t0 ->
  nextMicroBreakTimeRef s = Some (t0 + D) ->
  let paused := step Math_random (ToggleTimer t0) s in
  let resumed := step Math_random (ToggleTimer t1) paused in
  isActive paused = false
  /\ nextMicroBreakTimeRef paused = None
  /\ microBreakRemainingRef paused = Some D
  /\ nextMicroBreakTimeRef (toggleTimer Math_random t1 paused) = Some (t1 + D)
  /\ isActive resumed = true
  /\ nextMicroBreakTimeRef resumed =
       Some (t1 + randomSeconds (settings s) (Math_random (randomCalls s)) * 1000).
Proof.
  intros Hm Ha He Ht HD Ht0 Hn.
  assert (Hp : step Math_random (ToggleTimer t0) s =
               setIsActive false (setNextMicroBreakTime None
                 (setMicroBreakRemaining (Some D) s))).
  { unfold step. rewrite runEffects_paused.
    - unfold toggleTimer, microBreakEffectDeps, microBreakEffect.
      rewrite Hm, Ha, Hn, He. simpl.
      destruct (Z.eqb_spec (t0 + D) 0); [lia|]. simpl.
      rewrite Hm, He. simpl.
      replace (Z.max 0 (t0 + D - t0)) with D by lia. reflexivity.
    - unfold toggleTimer. rewrite Ha. reflexivity. }
  cbv zeta. rewrite Hp.
  assert (Hh : toggleTimer Math_random t1
                 (setIsActive false (setNextMicroBreakTime None
                    (setMicroBreakRemaining (Some D) s))) =
               setIsActive true (setNextMicroBreakTime (Some (t1 + D))
                 (setIsActive false (setNextMicroBreakTime None
                    (setMicroBreakRemaining (Some D) s))))).
  { unfold toggleTimer. simpl. rewrite Hm. simpl.
    destruct (Z.eqb_spec D 0); [lia|]. reflexivity. }
  repeat split.
  - rewrite Hh. reflexivity.
  - unfold step. rewrite Hh. rewrite runEffects_running by (simpl; first [reflexivity | assumption]).
    unfold microBreakEffectDeps. simpl. rewrite Hm. simpl.
    apply microBreakEffect_core.
  - unfold step. rewrite Hh. rewrite runEffects_running by (simpl; first [reflexivity | assumption]).
    unfold microBreakEffectDeps, microBreakEffect, scheduleNextMicroBreak.
    simpl. rewrite Hm, He. simpl. reflexivity.
Qed.

(** *** The ledger *)

Lemma secondsOn_addSeconds (today : jsstring) (k : Z) (l : list DailyLog) :
  secondsOn today (addSeconds today k l) = secondsOn today l + k.
Proof.
  induction l as [|r l IH]; simpl.
  - rewrite str_eqb_refl. lia.
  - destruct (str_eqb (date r) today) eqn:E; simpl; rewrite E; auto.
Qed.



Lemma switchMode_logs (r : State) (m : TimerMode) (b : bool) (now : Z) (s : State) :
  logs (switchMode Math_random r m b now s) = logs s.
Proof.
  unfold switchMode, scheduleNextMicroBreak.
  destruct m, (mode r); simpl;
    destruct (workTimeSnapshotRef s), (enableMicroBreaks (settings r)),
      (autoStartWork (settings r)), (autoStartBreak (settings r)), b; reflexivity.
Qed.

Lemma runEffects_logs (fuel : nat) (now : Z) (prev s : State) :
  logs (runEffects Math_random fuel now prev s) = logs s.
Proof.
  revert prev s. induction fuel as [|fuel IH]; intros prev s;
    rewrite runEffects_eq; cbv zeta;
    set (s1 := if microBreakEffectDeps prev s
               then microBreakEffect Math_random now s else s);
    assert (H1 : logs s1 = logs s)
      by (unfold s1; destruct (microBreakEffectDeps prev s);
          [apply microBreakEffect_core | reflexivity]);
    destruct (tickEffectDeps prev s); auto;
    unfold tickEffect;
    destruct (isActive s1 && (0 <? timeRemaining s1)); auto;
    destruct ((timeRemaining s1 =? 0) && isActive s1); auto;
    rewrite ?IH; unfold countdownFinished;
    destruct (mode s1); rewrite switchMode_logs; simpl; exact H1.
Qed.

Lemma intervalCallback_logs (now : Z) (today : jsstring) (s : State) :
  logs (intervalCallback Math_random now today s) =
  if mode_eqb (mode s) WORK then addSeconds today 1 (logs s) else logs s.
Proof.
  unfold intervalCallback.
  assert (E : forall x : State, logs x = logs s ->
            logs (if mode_eqb (mode s) WORK then recordWorkTime today 1 x else x) =
            if mode_eqb (mode s) WORK then addSeconds today 1 (logs s) else logs s).
  { intros x Hx. destruct (mode_eqb (mode s) WORK); simpl; rewrite ?Hx; reflexivity. }
  apply E.
  destruct (mode_eqb (mode s) WORK && enableMicroBreaks (settings s)
            && truthy (nextMicroBreakTimeRef (setTimeRemaining (timeRemaining s - 1) s)));
    [|reflexivity].
  cbn [nextMicroBreakTimeRef setTimeRemaining].
  destruct (nextMicroBreakTimeRef s); [|reflexivity].
  destruct (z <=? now); [|reflexivity].
  rewrite switchMode_logs. reflexivity.
Qed.

Lemma tick_logs (now : Z) (today : jsstring) (s : State) :
  logs (step Math_random (Tick now today) s) =
  if isActive s && (0 <? timeRemaining s) && mode_eqb (mode s) WORK
  then addSeconds today 1 (logs s) else logs s.
Proof.
  unfold step. destruct (isActive s && (0 <? timeRemaining s)); [|reflexivity].
  rewrite runEffects_logs, intervalCallback_logs. reflexivity.
Qed.

(** *** Ticks of a running Work countdown *)

Lemma intervalCallback_not_due (now : Z) (today : jsstring) (s : State) :
  mode s = WORK -> microBreakDue s now = false ->
  intervalCallback Math_random now today s =
  recordWorkTime today 1 (setTimeRemaining (timeRemaining s - 1) s).
Proof.
  intros Hm Hd. unfold intervalCallback, microBreakDue in *. simpl.
  rewrite Hm. simpl.
  destruct (enableMicroBreaks (settings s)); [|reflexivity]. simpl in *.
  destruct (nextMicroBreakTimeRef s) as [d|]; [|reflexivity]. simpl in *.
  destruct (d =? 0); [reflexivity|]. simpl in *. rewrite Hd. reflexivity.
Qed.

Lemma work_tick (now : Z) (today : jsstring) (s : State) :
  mode s = WORK -> isActive s = true -> 1 < timeRemaining s ->
  microBreakDue s now = false ->
  step Math_random (Tick now today) s =
  recordWorkTime today 1 (setTimeRemaining (timeRemaining s - 1) s).
Proof.
  intros Hm Ha Ht Hd. unfold step. rewrite Ha.
  destruct (Z.ltb_spec 0 (timeRemaining s)); [|lia]. simpl.
  rewrite intervalCallback_not_due by assumption.
  rewrite runEffects_running by (simpl; first [assumption | lia]).
  unfold microBreakEffectDeps. simpl.
  rewrite Hm, Ha, Nat.eqb_refl, !eqb_reflx. reflexivity.
Qed.

Lemma work_ticks (today : jsstring) (ts : list Z) (s : State) :
  mode s = WORK -> isActive s = true ->
  Z.of_nat (length ts) < timeRemaining s ->
  Forall (fun t => microBreakDue s t = false) ts ->
  run Math_random (ticks today ts) s =
  setLogs (Nat.iter (length ts) (addSeconds today 1) (logs s))
    (setTimeRemaining (timeRemaining s - Z.of_nat (length ts)) s).
Proof.
  revert s. induction ts as [|t ts IH]; intros s Hm Ha Ht Hd.
  - simpl. rewrite Z.sub_0_r. destruct s; reflexivity.
  - inversion Hd as [|? ? Hd1 Hd2]; subst.
    change (run Math_random (ticks today (t :: ts)) s)
      with (run Math_random (ticks today ts) (step Math_random (Tick t today) s)).
    cbn [length] in *.
    rewrite work_tick by (try assumption; lia).
    rewrite IH; [| assumption | assumption | simpl; lia |].
    + cbn [logs recordWorkTime setLogs setTimeRemaining timeRemaining].
      rewrite <- Nat.iter_succ_r.
      replace (timeRemaining s - 1 - Z.of_nat (length ts))
        with (timeRemaining s - Z.of_nat (S (length ts))) by lia.
      reflexivity.
    + revert Hd2. apply Forall_impl. intros a. unfold microBreakDue. simpl. auto.
Qed.

Lemma secondsOn_iter (today : jsstring) (n : nat) (l : list DailyLog) :
  secondsOn today (Nat.iter n (addSeconds today 1) l) = secondsOn today l + Z.of_nat n.
Proof.
  induction n as [|n IH]; [simpl; lia|].
  rewrite Nat.iter_succ, secondsOn_addSeconds, IH. lia.
Qed.




(** *** Micro-breaks *)

Lemma runEffects_resumed (fuel : nat) (now : Z) (prev s : State) (R : Z) :
  0 < R -> resumedWork R s ->
  resumedWork R (runEffects Math_random fuel now prev s).
Proof.
  intros HR (Hm & Ha & Ht & Hs).
  rewrite runEffects_running by (first [assumption | lia]).
  destruct (microBreakEffectDeps prev s); [|repeat split; assumption].
  destruct (microBreakEffect_core now s) as (_ & _ & E1 & E2 & E3 & _ & E4 & _).
  unfold resumedWork. rewrite E1, E2, E3, E4. repeat split; assumption.
Qed.

(** Leaving a micro-break through [switchMode(WORK)]. *)
Lemma switchMode_back_to_work (r s : State) (now R : Z) :
  mode r = MICRO_BREAK -> workTimeSnapshotRef s = Some R ->
  resumedWork R (switchMode Math_random r WORK false now s).
Proof.
  intros Hm Hs. unfold switchMode. rewrite Hm. simpl. rewrite Hs.
  destruct (scheduleNextMicroBreak_core (settings r) now
              (setWorkTimeSnapshot None (setTimeRemaining R (setMode WORK s))))
    as (_ & _ & E1 & E2 & _ & _ & E4 & _).
  unfold resumedWork. simpl. rewrite E1, E2, E4. repeat split.
Qed.

Lemma micro_tick (R n now : Z) (today : jsstring) (m : State) :
  inMicroBreak R n m -> 1 < n ->
  inMicroBreak R (n - 1) (step Math_random (Tick now today) m).
Proof.
  intros (Hm & Ha & Ht & Hs & Hv) Hn. unfold step. rewrite Ha, Ht.
  destruct (Z.ltb_spec 0 n); [|lia]. simpl.
  assert (E : intervalCallback Math_random now today m = setTimeRemaining (n - 1) m).
  { unfold intervalCallback. rewrite Hm, Ht. reflexivity. }
  rewrite E. rewrite runEffects_running by (simpl; first [assumption | lia]).
  unfold microBreakEffectDeps. simpl.
  rewrite Ha, Nat.eqb_refl, !eqb_reflx.
  replace (mode_eqb (mode m) (mode m)) with true by (rewrite Hm; reflexivity).
  simpl. repeat split; assumption.
Qed.

Lemma micro_last_tick (R now : Z) (today : jsstring) (m : State) :
  inMicroBreak R 1 m -> 0 < R ->
  resumedWork R (step Math_random (Tick now today) m).
Proof.
  intros (Hm & Ha & Ht & Hs & Hv) HR. unfold step. rewrite Ha, Ht. simpl.
  assert (E : intervalCallback Math_random now today m = setTimeRemaining 0 m).
  { unfold intervalCallback. rewrite Hm, Ht. reflexivity. }
  rewrite E. unfold updateDepth. rewrite runEffects_eq. cbv zeta.
  assert (D1 : microBreakEffectDeps m (setTimeRemaining 0 m) = false).
  { unfold microBreakEffectDeps. simpl.
    rewrite Hm, Nat.eqb_refl, !eqb_reflx. reflexivity. }
  assert (D2 : tickEffectDeps m (setTimeRemaining 0 m) = true).
  { unfold tickEffectDeps. simpl. rewrite Ht, eqb_reflx. reflexivity. }
  rewrite D1, D2. unfold tickEffect. simpl. rewrite Ha. simpl.
  apply runEffects_resumed; [assumption|].
  unfold countdownFinished. simpl. rewrite Hm.
  apply switchMode_back_to_work; simpl; assumption.
Qed.

Lemma micro_skip (R n now : Z) (m : State) :
  inMicroBreak R n m -> 0 < R ->
  resumedWork R (step Math_random (SkipMicroBreak now) m).
Proof.
  intros (Hm & Ha & Ht & Hs & Hv) HR. unfold step. rewrite Hv, Hm. simpl.
  apply runEffects_resumed; [assumption|].
  unfold skipMicroBreak. apply switchMode_back_to_work; simpl; assumption.
Qed.

(** The tick at which a micro-break is due. *)
Lemma intervalCallback_due (now : Z) (today : jsstring) (s : State) :
  mode s = WORK -> microBreakDue s now = true ->
  let p := intervalCallback Math_random now today s in
  inMicroBreak (timeRemaining s) (microBreakDuration (settings s)) p
  /\ settings p = settings s /\ settingsId p = settingsId s
  /\ nextMicroBreakTimeRef p = None /\ microBreakRemainingRef p = None.
Proof.
  intros Hm Hd. unfold microBreakDue in Hd.
  apply andb_true_iff in Hd as [Hd Hd3]. apply andb_true_iff in Hd as [Hd1 Hd2].
  unfold intervalCallback. cbn [nextMicroBreakTimeRef setTimeRemaining].
  rewrite Hm, Hd1, Hd2. simpl.
  destruct (nextMicroBreakTimeRef s) as [d|]; [|discriminate].
  rewrite Hd3. unfold switchMode. simpl. rewrite Hm. simpl.
  unfold inMicroBreak. simpl. repeat split.
Qed.

Lemma preempting_tick (now : Z) (today : jsstring) (s : State) :
  mode s = WORK -> isActive s = true -> 0 < timeRemaining s ->
  microBreakDue s now = true ->
  let p := step Math_random (Tick now today) s in
  let d := microBreakDuration (settings s) in
  (d <> 0 -> inMicroBreak (timeRemaining s) d p)
  /\ (d = 0 -> resumedWork (timeRemaining s) p).
Proof.
  intros Hm Ha Ht Hd p d. unfold p, step. rewrite Ha.
  destruct (Z.ltb_spec 0 (timeRemaining s)); [|lia]. simpl.
  destruct (intervalCallback_due now today s Hm Hd)
    as ((Em & Ea & Et & Es & Ev) & Est & Eid & En & Er).
  set (c := intervalCallback Math_random now today s) in *.
  unfold updateDepth. rewrite runEffects_eq. cbv zeta.
  assert (D1 : microBreakEffectDeps s c = true)
    by (unfold microBreakEffectDeps; rewrite Hm, Em; reflexivity).
  assert (D2 : tickEffectDeps s c = true).
  { unfold tickEffectDeps. rewrite Hm, Em. simpl.
    rewrite orb_true_r. reflexivity. }
  rewrite D1, D2.
  destruct (microBreakEffect_core now c) as (_ & _ & F1 & F2 & F3 & F4 & F5 & _).
  set (c1 := microBreakEffect Math_random now c) in *.
  unfold tickEffect. rewrite F2, F3, Ea, Et. fold d. simpl.
  split; intros Hd0.
  - destruct (Z.ltb_spec 0 d).
    + unfold inMicroBreak. rewrite F1, F2, F3, F4, F5. repeat split; assumption.
    + destruct (Z.eqb_spec d 0); [contradiction|]. simpl.
      unfold inMicroBreak. rewrite F1, F2, F3, F4, F5. repeat split; assumption.
  - rewrite Hd0. simpl.
    apply runEffects_resumed; [assumption|].
    unfold countdownFinished. rewrite F1, Em.
    apply switchMode_back_to_work; simpl; congruence.
Qed.

Lemma micro_ticks (R : Z) (today : jsstring) (ts : list Z) (m : State) (n : Z) :
  inMicroBreak R n m -> Z.of_nat (length ts) < n ->
  inMicroBreak R (n - Z.of_nat (length ts)) (run Math_random (ticks today ts) m).
Proof.
  revert m n. induction ts as [|t ts IH]; intros m n Hin Hn.
  - simpl. rewrite Z.sub_0_r. exact Hin.
  - change (run Math_random (ticks today (t :: ts)) m)
      with (run Math_random (ticks today ts) (step Math_random (Tick t today) m)).
    cbn [length] in *.
    replace (n - Z.of_nat (S (length ts))) with (n - 1 - Z.of_nat (length ts)) by lia.
    apply IH; [|lia]. apply micro_tick; [assumption | lia].
Qed.

Lemma run_app (es1 es2 : list Event) (s : State) :
  run Math_random (es1 ++ es2) s = run Math_random es2 (run Math_random es1 s).
Proof. unfold run. apply fold_left_app. Qed.

Lemma micro_ticks_out (R : Z) (today : jsstring) (ts : list Z) (m : State) :
  0 < R -> ts <> [] -> inMicroBreak R (Z.of_nat (length ts)) m ->
  resumedWork R (run Math_random (ticks today ts) m).
Proof.
  intros HR Hne Hin.
  destruct (exists_last Hne) as (ts' & t & ->).
  unfold ticks. rewrite map_app, run_app. simpl.
  rewrite length_app in Hin. simpl in Hin.
  apply micro_last_tick; [|assumption].
  replace 1 with (Z.of_nat (length ts' + 1) - Z.of_nat (length ts')) by lia.
  apply micro_ticks; [assumption | lia].
Qed.

(** A negative countdown never moves: a micro-break of negative length
    only ends by the skip. *)
Lemma ticks_stuck (today : jsstring) (ts : list Z) (m : State) :
  timeRemaining m <= 0 -> run Math_random (ticks today ts) m = m.
Proof.
  intros Hm. induction ts as [|t ts IH]; [reflexivity|].
  change (run Math_random (ticks today (t :: ts)) m)
    with (run Math_random (ticks today ts) (step Math_random (Tick t today) m)).
  replace (step Math_random (Tick t today) m) with m; [exact IH|].
  unfold step. destruct (Z.ltb_spec 0 (timeRemaining m)); [lia|].
  rewrite andb_false_r. reflexivity.
Qed.

(** C2: Work with [R] seconds left is preempted into a micro-break.  When
    the micro-break ends, by its countdown reaching 0 or by the skip, the
    timer is in Work, active, with [R] seconds left, and the snapshot is
    cleared; the settings, [autoStartWork] among them, are arbitrary. *)
Theorem microBreak_returns_to_work (s : State) (now : Z) (today : jsstring)
    (ts : list Z) (t : Z) :
  mode s = WORK -> isActive s = true -> 0 < timeRemaining s ->
  microBreakDue s now = true ->
  let R := timeRemaining s in
  let d := microBreakDuration (settings s) in
  let preempted := intervalCallback Math_random now today s in
  let during := run Math_random (ticks today ts) (step Math_random (Tick now today) s) in
  (mode preempted = MICRO_BREAK /\ workTimeSnapshotRef preempted = Some R)
  /\ (Z.of_nat (length ts) = d -> resumedWork R during)
  /\ (Z.of_nat (length ts) < d \/ d < 0 ->
        mode during = MICRO_BREAK
        /\ resumedWork R (step Math_random (SkipMicroBreak t) during)).
Proof.
  intros Hm Ha Ht Hd R d preempted during.
  destruct (intervalCallback_due now today s Hm Hd) as ((Em & _ & _ & Es & _) & _).
  destruct (preempting_tick now today s Hm Ha Ht Hd) as [P1 P2].
  fold d R in P1, P2.
  split; [split; assumption|]. split.
  - intros Hlen. unfold during. destruct ts as [|t1 ts'].
    + simpl in *. apply P2. lia.
    + apply micro_ticks_out; [assumption | discriminate |].
      rewrite Hlen. apply P1. cbn [length] in Hlen. lia.
  - intros Hlen.
    assert (Hin : exists n, inMicroBreak R n during).
    { destruct Hlen as [Hlen|Hneg].
      - exists (d - Z.of_nat (length ts)). apply micro_ticks; [|assumption].
        apply P1. lia.
      - exists d. unfold during. rewrite ticks_stuck.
        + apply P1. lia.
        + destruct (P1 ltac:(lia)) as (_ & _ & E & _). rewrite E. lia. }
    destruct Hin as [n Hin]. split; [apply Hin|].
    apply micro_skip with (n := n); assumption.
Qed.

(** *** Micro-breaks switched off *)

Lemma switchMode_core (r : State) (m : TimerMode) (b : bool) (now : Z) (s : State) :
  let s' := switchMode Math_random r m b now s in
  settings s' = settings s /\ settingsId s' = settingsId s /\ mode s' = m
  /\ (enableMicroBreaks (settings r) = false ->
      nextMicroBreakTimeRef s = None -> microBreakRemainingRef s = None ->
      nextMicroBreakTimeRef s' = None /\ microBreakRemainingRef s' = None).
Proof.
  unfold switchMode, scheduleNextMicroBreak.
  destruct m, (mode r); simpl;
    destruct (workTimeSnapshotRef s), (enableMicroBreaks (settings r)),
      (autoStartWork (settings r)), (autoStartBreak (settings r)), b;
    simpl; repeat split; try discriminate; assumption.
Qed.

Lemma switchMode_clean (r : State) (m : TimerMode) (b : bool) (now : Z) (s : State) :
  settings r = settings s -> disabledAndEmpty s ->
  disabledAndEmpty (switchMode Math_random r m b now s).
Proof.
  intros E (He & Hn & Hr).
  destruct (switchMode_core r m b now s) as (E1 & _ & _ & H).
  unfold disabledAndEmpty. rewrite E1. split; [assumption|].
  apply H; [rewrite E|..]; assumption.
Qed.

Lemma microBreakEffect_disabled (now : Z) (s : State) :
  enableMicroBreaks (settings s) = false ->
  disabledAndEmpty (microBreakEffect Math_random now s).
Proof.
  intros He. unfold microBreakEffect, disabledAndEmpty.
  rewrite He, andb_false_r. simpl. auto.
Qed.

Lemma countdownFinished_core (now : Z) (r : State) :
  let s' := countdownFinished Math_random now r in
  settings s' = settings r /\ settingsId s' = settingsId r
  /\ mode s' <> MICRO_BREAK
  /\ (disabledAndEmpty r -> disabledAndEmpty s').
Proof.
  unfold countdownFinished.
  destruct (mode r);
    match goal with
    | |- context [switchMode Math_random r ?m ?b now ?x] =>
        destruct (switchMode_core r m b now x) as (E1 & E2 & E3 & _);
        pose proof (switchMode_clean r m b now x eq_refl) as Hc
    end;
    cbv zeta; rewrite E1, E2, E3; simpl;
    (split; [reflexivity | split; [reflexivity | split; [discriminate|]]]);
    intros Hd; apply Hc; exact Hd.
Qed.

Lemma effectRound_core (now : Z) (prev s : State) :
  let s1 := if microBreakEffectDeps prev s
            then microBreakEffect Math_random now s else s in
  settings s1 = settings s /\ mode s1 = mode s
  /\ (disabledAndEmpty s -> disabledAndEmpty s1)
  /\ (enableMicroBreaks (settings s) = false ->
      microBreakEffectDeps prev s = true -> disabledAndEmpty s1).
Proof.
  cbv zeta. destruct (microBreakEffectDeps prev s).
  - destruct (microBreakEffect_core now s) as (E1 & _ & E2 & _).
    split; [exact E1|]. split; [exact E2|]. split.
    + intros (He & _). apply microBreakEffect_disabled. exact He.
    + intros He _. apply microBreakEffect_disabled. exact He.
  - split; [reflexivity|]. split; [reflexivity|]. split.
    + intros H; exact H.
    + intros _ H; discriminate H.
Qed.

Lemma runEffects_core (fuel : nat) (now : Z) (prev s : State) :
  let s' := runEffects Math_random fuel now prev s in
  settings s' = settings s
  /\ (mode s <> MICRO_BREAK -> mode s' <> MICRO_BREAK)
  /\ (disabledAndEmpty s -> disabledAndEmpty s')
  /\ (enableMicroBreaks (settings s) = false ->
      microBreakEffectDeps prev s = true -> disabledAndEmpty s').
Proof.
  revert prev s. induction fuel as [|fuel IH]; intros prev s;
    rewrite runEffects_eq; cbv zeta;
    destruct (effectRound_core now prev s) as (S1 & M1 & C1 & D1);
    set (s1 := if microBreakEffectDeps prev s
               then microBreakEffect Math_random now s else s) in *;
    (assert (Hs1 : settings s1 = settings s
                   /\ (mode s <> MICRO_BREAK -> mode s1 <> MICRO_BREAK)
                   /\ (disabledAndEmpty s -> disabledAndEmpty s1)
                   /\ (enableMicroBreaks (settings s) = false ->
                       microBreakEffectDeps prev s = true -> disabledAndEmpty s1))
       by (rewrite M1; tauto));
    (destruct (tickEffectDeps prev s); [|exact Hs1]);
    unfold tickEffect;
    (destruct (isActive s1 && (0 <? timeRemaining s1)); [exact Hs1|]);
    (destruct ((timeRemaining s1 =? 0) && isActive s1); [|exact Hs1]);
    destruct (countdownFinished_core now s1) as (F1 & _ & F3 & F4).
  - rewrite F1, S1. tauto.
  - destruct (IH s1 (countdownFinished Math_random now s1)) as (G1 & G2 & G3 & _).
    rewrite G1, F1, S1. tauto.
Qed.

Lemma intervalCallback_disabled (now : Z) (today : jsstring) (s : State) :
  enableMicroBreaks (settings s) = false ->
  intervalCallback Math_random now today s =
  let s1 := setTimeRemaining (timeRemaining s - 1) s in
  if mode_eqb (mode s) WORK then recordWorkTime today 1 s1 else s1.
Proof.
  intros He. unfold intervalCallback. rewrite He, andb_false_r. reflexivity.
Qed.

Lemma intervalCallback_settings (now : Z) (today : jsstring) (s : State) :
  settings (intervalCallback Math_random now today s) = settings s.
Proof.
  unfold intervalCallback.
  assert (E : forall x : State, settings x = settings s ->
            settings (if mode_eqb (mode s) WORK then recordWorkTime today 1 x else x) =
            settings s).
  { intros x Hx. destruct (mode_eqb (mode s) WORK); simpl; exact Hx. }
  apply E.
  destruct (mode_eqb (mode s) WORK && enableMicroBreaks (settings s)
            && truthy (nextMicroBreakTimeRef (setTimeRemaining (timeRemaining s - 1) s)));
    [|reflexivity].
  cbn [nextMicroBreakTimeRef setTimeRemaining].
  destruct (nextMicroBreakTimeRef s); [|reflexivity].
  destruct (z <=? now); [|reflexivity].
  destruct (switchMode_core s MICRO_BREAK false now
              (setMicroBreakRemaining None
                 (setNextMicroBreakTime None
                    (setTimeRemaining (timeRemaining s - 1) s)))) as (E1 & _).
  rewrite E1. reflexivity.
Qed.

Lemma toggleTimer_core (now : Z) (s : State) :
  let s' := toggleTimer Math_random now s in
  settings s' = settings s /\ mode s' = mode s
  /\ (disabledAndEmpty s -> disabledAndEmpty s').
Proof.
  unfold toggleTimer, scheduleNextMicroBreak, disabledAndEmpty.
  destruct (isActive s), (mode s) eqn:Em; simpl;
    destruct (nextMicroBreakTimeRef s) as [d|] eqn:En,
             (microBreakRemainingRef s) as [m|] eqn:Er; simpl;
    repeat match goal with
           | |- context [negb (?z =? 0)] => destruct (z =? 0); simpl
           end;
    try (destruct (enableMicroBreaks (settings s)) eqn:Ee; simpl);
    (split; [reflexivity | split; [simpl; congruence |]]);
    intros (? & ? & ?); try congruence; auto.
Qed.

(** Handlers other than [onSave] keep the settings; none of them enters a
    micro-break when micro-breaks are off; all of them keep the schedule
    empty when micro-breaks stay off. *)
Lemma step_disabled (e : Event) (s : State) :
  let s' := step Math_random e s in
  (keepsDisabled e = true -> disabledAndEmpty s -> disabledAndEmpty s')
  /\ (enableMicroBreaks (settings s) = false -> mode s <> MICRO_BREAK ->
      mode s' <> MICRO_BREAK)
  /\ (match e with
      | SaveSettings _ newSettings => settings s' = newSettings
      | _ => settings s' = settings s
      end)
  /\ (enableMicroBreaks (settings s') = false ->
      match e with SaveSettings _ _ => disabledAndEmpty s' | _ => True end).
Proof.
  destruct e as [now today|now|now|now|now newSettings]; cbv zeta; unfold step.
  - (* Tick *)
    destruct (isActive s && (0 <? timeRemaining s));
      [|split; [|split; [|split]]; auto].
    destruct (runEffects_core updateDepth now s (intervalCallback Math_random now today s))
      as (E1 & E2 & E3 & _).
    pose proof (intervalCallback_settings now today s) as Hs.
    rewrite E1, Hs. split; [|split; [|split]]; auto.
    + intros _ Hd. apply E3. destruct Hd as (He & Hn & Hr).
      rewrite intervalCallback_disabled by assumption. cbv zeta.
      unfold disabledAndEmpty. destruct (mode_eqb (mode s) WORK); simpl; auto.
    + intros He Hm. apply E2.
      rewrite intervalCallback_disabled by assumption. cbv zeta.
      destruct (mode_eqb (mode s) WORK); simpl; assumption.
  - (* ToggleTimer *)
    destruct (runEffects_core updateDepth now s (toggleTimer Math_random now s))
      as (E1 & E2 & E3 & _).
    destruct (toggleTimer_core now s) as (T1 & T2 & T3).
    rewrite E1, T1. split; [|split; [|split]]; auto.
    intros _ Hm. apply E2. rewrite T2. assumption.
  - (* ResetTimer *)
    destruct (runEffects_core updateDepth now s (resetTimer s)) as (E1 & E2 & E3 & _).
    rewrite E1. split; [|split; [|split]]; auto.
    + intros _ (He & _). apply E3. unfold disabledAndEmpty. simpl. auto.
    + intros _ _. apply E2. simpl. discriminate.
  - (* SkipMicroBreak *)
    destruct (showMicroBreakOverlay s && mode_eqb (mode s) MICRO_BREAK) eqn:G;
      [|split; [|split; [|split]]; auto].
    destruct (runEffects_core updateDepth now s (skipMicroBreak Math_random now s))
      as (E1 & E2 & E3 & _).
    unfold skipMicroBreak in *.
    destruct (switchMode_core s WORK false now (setShowMicroBreakOverlay false s))
      as (W1 & _ & W3 & _).
    rewrite E1, W1. split; [|split; [|split]]; auto.
    + intros _ Hd. apply E3. apply switchMode_clean; [reflexivity|exact Hd].
    + intros _ _. apply E2. rewrite W3. discriminate.
  - (* SaveSettings *)
    destruct (runEffects_core updateDepth now s (onSave newSettings s))
      as (E1 & E2 & E3 & E4).
    assert (O : settings (onSave newSettings s) = newSettings
                /\ mode (onSave newSettings s) = mode s
                /\ microBreakEffectDeps s (onSave newSettings s) = true).
    { assert (N : (settingsId s =? S (settingsId s))%nat = false)
        by (apply Nat.eqb_neq; lia).
      unfold onSave, microBreakEffectDeps.
      destruct (mode_eqb (mode s) WORK
                && negb (workDuration (settings s) =? workDuration newSettings));
        [|destruct (mode_eqb (mode s) SHORT_BREAK
                    && negb (breakDuration (settings s) =? breakDuration newSettings))];
        simpl; rewrite N, !orb_true_r; auto. }
    destruct O as (O1 & O2 & O3).
    rewrite E1, O1. split; [|split; [|split]].
    + simpl. intros Hk _. apply E4; [|exact O3].
      rewrite O1. destruct (enableMicroBreaks newSettings); [discriminate|reflexivity].
    + intros _ Hm. apply E2. rewrite O2. exact Hm.
    + reflexivity.
    + intros He. apply E4; [rewrite O1; exact He | exact O3].
Qed.

Lemma reachable_disabled (s : State) :
  reachable Math_random s -> enableMicroBreaks (settings s) = false ->
  disabledAndEmpty s.
Proof.
  induction 1 as [st savedLogs now | e s Hr IH]; intros He.
  - unfold mount in *.
    destruct (microBreakEffect_core now (initialState st savedLogs)) as (E1 & _).
    apply microBreakEffect_disabled. rewrite <- E1. exact He.
  - destruct (step_disabled e s) as (S1 & _ & S3 & S4).
    destruct e as [now today|now|now|now|now newSettings];
      try (rewrite S3 in He; apply S1; [reflexivity | apply IH; exact He]).
    apply S4. exact He.
Qed.

Lemma run_disabled (es : list Event) (s : State) :
  forallb keepsDisabled es = true -> disabledAndEmpty s ->
  disabledAndEmpty (run Math_random es s).
Proof.
  revert s. induction es as [|e es IH]; intros s Hk Hd; [exact Hd|].
  simpl in Hk. apply andb_true_iff in Hk as [Hk1 Hk2].
  change (run Math_random (e :: es) s)
    with (run Math_random es (step Math_random e s)).
  apply IH; [exact Hk2|]. apply step_disabled; assumption.
Qed.

(** C3: in a reachable state whose settings have micro-breaks off, and
    after any further events that leave them off, the schedule is empty and
    no event, a tick in particular, takes Work into a micro-break.  A state
    reached by saving settings that switch micro-breaks off is such a state,
    whatever was scheduled before. *)
Theorem microBreaks_disabled (s : State) (es : list Event) (e : Event) :
  reachable Math_random s ->
  enableMicroBreaks (settings s) = false ->
  forallb keepsDisabled es = true ->
  let s' := run Math_random es s in
  enableMicroBreaks (settings s') = false
  /\ nextMicroBreakTimeRef s' = None
  /\ microBreakRemainingRef s' = None
  /\ (forall now, microBreakDue s' now = false)
  /\ (mode s' = WORK -> mode (step Math_random e s') <> MICRO_BREAK).
Proof.
  intros Hr He Hk s'.
  assert (Hd : disabledAndEmpty s')
    by (apply run_disabled; [exact Hk | apply reachable_disabled; assumption]).
  destruct Hd as (H1 & H2 & H3).
  repeat split; try assumption.
  - intros now. unfold microBreakDue. rewrite H1. reflexivity.
  - intros Hm. apply step_disabled; [exact H1 | rewrite Hm; discriminate].
Qed.

(** *** The sixty-tick scenario *)

Lemma randomSeconds_equal_bounds (st : Settings) (r : UnitFrac) :
  microBreakMinInterval st = microBreakMaxInterval st ->
  randomSeconds st r = microBreakMinInterval st * 60.
Proof.
  intros E. unfold randomSeconds. rewrite <- E.
  rewrite Z.min_id, Z.max_id.
  pose proof (floor_mul_bounds r (microBreakMinInterval st * 60
                                  - microBreakMinInterval st * 60 + 1)) as H.
  lia.
Qed.

Lemma scenario_schedule (ab aw : bool) (now : Z) (s : State) :
  scheduleNextMicroBreak Math_random (scenarioSettings ab aw) now s =
  setNextMicroBreakTime (Some (now + 60000))
    (setMicroBreakRemaining (Some 60000) (drawRandom s)).
Proof.
  unfold scheduleNextMicroBreak. cbn [enableMicroBreaks scenarioSettings negb].
  cbv zeta. rewrite randomSeconds_equal_bounds by reflexivity. reflexivity.
Qed.

Lemma scenario_start (ab aw : bool) (t0 : Z) :
  step Math_random (ToggleTimer t0) (mount Math_random (scenarioSettings ab aw) [] t0) =
  {| settings := scenarioSettings ab aw; settingsId := O; mode := WORK;
     timeRemaining := 1500; isActive := true; showMicroBreakOverlay := false;
     nextMicroBreakTimeRef := Some (t0 + 60000);
     microBreakRemainingRef := Some 60000;
     workTimeSnapshotRef := None; logs := []; randomCalls := 2 |}.
Proof.
  unfold step, mount.
  assert (E0 : microBreakEffect Math_random t0 (initialState (scenarioSettings ab aw) [])
               = initialState (scenarioSettings ab aw) []) by reflexivity.
  rewrite E0.
  assert (E1 : toggleTimer Math_random t0 (initialState (scenarioSettings ab aw) []) =
               setIsActive true
                 (scheduleNextMicroBreak Math_random (scenarioSettings ab aw) t0
                    (initialState (scenarioSettings ab aw) []))) by reflexivity.
  rewrite E1, scenario_schedule.
  rewrite runEffects_running by (simpl; first [reflexivity | lia]).
  unfold microBreakEffectDeps, microBreakEffect. simpl.
  rewrite scenario_schedule. reflexivity.
Qed.

(** C4, what the code does: in the scenario the sixtieth tick is the one
    that finds the micro-break due; it leaves the timer in MicroBreak with 10
    seconds to go, sixty seconds in the ledger, and a work snapshot of 1441
    seconds: the snapshot is the countdown of the render before the tick,
    not the decremented one. *)
Theorem scenario_sixty_ticks (ab aw : bool) (t0 : Z) (today : jsstring) :
  0 <= t0 ->
  let start := step Math_random (ToggleTimer t0)
                 (mount Math_random (scenarioSettings ab aw) [] t0) in
  let at59 := run Math_random (ticks today (clockReadings t0 59)) start in
  let at60 := step Math_random (Tick (t0 + 60000) today) at59 in
  (mode start = WORK /\ isActive start = true /\ timeRemaining start = 25 * 60)
  /\ (mode at59 = WORK /\ timeRemaining at59 = 25 * 60 - 59)
  /\ mode at60 = MICRO_BREAK
  /\ timeRemaining at60 = 10
  /\ workTimeSnapshotRef at60 = Some 1441
  /\ secondsOn today (logs at60) = 60.
Proof.
  intros Ht0 start at59 at60.
  assert (Es : start =
    {| settings := scenarioSettings ab aw; settingsId := O; mode := WORK;
       timeRemaining := 1500; isActive := true; showMicroBreakOverlay := false;
       nextMicroBreakTimeRef := Some (t0 + 60000);
       microBreakRemainingRef := Some 60000;
       workTimeSnapshotRef := None; logs := []; randomCalls := 2 |})
    by apply scenario_start.
  assert (E59 : at59 =
    setLogs (Nat.iter 59 (addSeconds today 1) [])
      (setTimeRemaining (1500 - 59) start)).
  { unfold at59. rewrite work_ticks; rewrite Es; try reflexivity.
    apply Forall_forall. intros t Hin. unfold clockReadings in Hin.
    apply in_map_iff in Hin as (k & <- & Hk). apply in_seq in Hk.
    unfold microBreakDue.
    cbn [settings enableMicroBreaks scenarioSettings nextMicroBreakTimeRef truthy andb].
    destruct (Z.leb_spec (t0 + 60000) (t0 + 1000 * Z.of_nat k)); [lia|].
    apply andb_false_r. }
  assert (Hdue : microBreakDue at59 (t0 + 60000) = true).
  { rewrite E59, Es. unfold microBreakDue.
    cbn [settings setLogs setTimeRemaining nextMicroBreakTimeRef enableMicroBreaks
         scenarioSettings truthy andb].
    destruct (Z.eqb_spec (t0 + 60000) 0); [lia|]. cbn [negb andb].
    destruct (Z.leb_spec (t0 + 60000) (t0 + 60000)); [reflexivity | lia]. }
  assert (Hm59 : mode at59 = WORK) by (rewrite E59, Es; reflexivity).
  assert (Ht59 : timeRemaining at59 = 1441) by (rewrite E59, Es; reflexivity).
  assert (Ha59 : isActive at59 = true) by (rewrite E59, Es; reflexivity).
  assert (Hd59 : microBreakDuration (settings at59) = 10)
    by (rewrite E59, Es; reflexivity).
  destruct (preempting_tick (t0 + 60000) today at59 Hm59 Ha59 ltac:(lia) Hdue)
    as [P _].
  rewrite Hd59, Ht59 in P. destruct (P ltac:(lia)) as (Q1 & _ & Q3 & Q4 & _).
  split; [rewrite Es; repeat split|].
  split; [split; [exact Hm59 | rewrite Ht59; reflexivity]|].
  split; [exact Q1|]. split; [exact Q3|]. split; [exact Q4|].
  unfold at60. rewrite tick_logs, Ha59, Ht59, Hm59.
  change (true && (0 <? 1441) && mode_eqb WORK WORK) with true. cbv iota.
  rewrite secondsOn_addSeconds, E59. cbn [logs setLogs].
  rewrite secondsOn_iter. reflexivity.
Qed.

End TimerProofs.

(** ** Concrete runs *)



(** The floor is taken of the rounded product: the draw
    885954025056491 / 2^54 is a binary64, its product with 61 is below 3 and
    rounds to 3, so that the draw gives 3 where the exact product gives 2. *)
Example boundary_draw_rounds_up :
  randomUnits boundaryDraw * uf_den boundaryDraw = uf_num boundaryDraw * unitsPerOne
  /\ uf_num boundaryDraw * 61 / uf_den boundaryDraw = 2
  /\ floor_mul boundaryDraw 61 = 3.
Proof. split; [|split]; vm_compute; reflexivity. Qed.

Lemma onSave_duration_changed_witness :
  mode defaultRunning <> MICRO_BREAK
  /\ getDurationForMode longerMicroBreaks (mode defaultRunning)
       <> getDurationForMode (settings defaultRunning) (mode defaultRunning)
  /\ timeRemaining (step alwaysHalf (SaveSettings 5000 longerMicroBreaks) defaultRunning)
       = 25 * 60
  /\ isActive (step alwaysHalf (SaveSettings 5000 longerMicroBreaks) defaultRunning)
       = false
  /\ mode scenarioInMicroBreak = MICRO_BREAK
  /\ timeRemaining
       (step alwaysHalf (SaveSettings 60500 longerMicroBreaks) scenarioInMicroBreak)
       = timeRemaining scenarioInMicroBreak
  /\ isActive
       (step alwaysHalf (SaveSettings 60500 longerMicroBreaks) scenarioInMicroBreak)
       = isActive scenarioInMicroBreak.
Proof.
  assert (H1 : mode defaultRunning <> MICRO_BREAK) by (vm_compute; discriminate).
  assert (H2 : getDurationForMode longerMicroBreaks (mode defaultRunning)
               <> getDurationForMode (settings defaultRunning) (mode defaultRunning))
    by (vm_compute; discriminate).
  assert (H3 : mode scenarioInMicroBreak = MICRO_BREAK) by (vm_compute; reflexivity).
  assert (H4 : isActive scenarioInMicroBreak = true -> timeRemaining scenarioInMicroBreak <> 0)
    by (intros _; vm_compute; discriminate).
  split; [exact H1|]. split; [exact H2|].
  destruct (onSave_duration_changed alwaysHalf defaultRunning longerMicroBreaks 5000)
    as (W & _).
  destruct (W H1 H2) as (_ & _ & E3 & E4).
  destruct (onSave_duration_changed alwaysHalf scenarioInMicroBreak longerMicroBreaks 60500)
    as (_ & M).
  destruct (M H3 H4) as (_ & _ & E5 & E6).
  split; [rewrite E3; vm_compute; reflexivity|]. split; [exact E4|].
  split; [exact H3|]. split; [exact E5 | exact E6].
Defined.

(** C7 as stated fails in MicroBreak: the settings modal can be saved
    while a micro-break runs; a new [microBreakDuration] then changes the
    duration of the current mode, yet the countdown keeps its 10 seconds and
    stays active. *)
Lemma onSave_ignores_microBreak :
  let s := scenarioInMicroBreak in
  let s' := step alwaysHalf (SaveSettings 60500 longerMicroBreaks) s in
  mode s = MICRO_BREAK
  /\ getDurationForMode (settings s) (mode s) = 10
  /\ getDurationForMode longerMicroBreaks (mode s) = 20
  /\ mode s' = MICRO_BREAK
  /\ timeRemaining s' = 10
  /\ timeRemaining s' <> getDurationForMode (settings s') (mode s')
  /\ isActive s' = true.
Proof. vm_compute. repeat split; discriminate. Qed.

Lemma pause_resume_reschedules_witness :
  let paused := step alwaysHalf (ToggleTimer 100000) defaultRunning in
  let resumed := step alwaysHalf (ToggleTimer 500000) paused in
  nextMicroBreakTimeRef defaultRunning = Some (100000 + 140000)
  /\ microBreakRemainingRef paused = Some 140000
  /\ nextMicroBreakTimeRef resumed = Some (500000 + 240000).
Proof.
  assert (Hn : nextMicroBreakTimeRef defaultRunning = Some (100000 + 140000))
    by (vm_compute; reflexivity).
  destruct (pause_resume_reschedules alwaysHalf defaultRunning 100000 500000 140000)
    as (_ & _ & E3 & _ & _ & E6);
    [vm_compute; reflexivity | vm_compute; reflexivity | vm_compute; reflexivity
    | vm_compute; reflexivity | lia | lia | exact Hn |].
  cbv zeta. split; [exact Hn|]. split; [exact E3|].
  rewrite E6. vm_compute. reflexivity.
Defined.

Lemma microBreak_returns_to_work_witness :
  microBreakDue scenarioAt59 60000 = true
  /\ timeRemaining scenarioAt59 = 1441
  /\ resumedWork 1441
       (run alwaysHalf (ticks newYear (clockReadings 60000 10)) scenarioInMicroBreak)
  /\ resumedWork 1441
       (step alwaysHalf (SkipMicroBreak 63500)
          (run alwaysHalf (ticks newYear (clockReadings 60000 3)) scenarioInMicroBreak)).
Proof.
  assert (Hd : microBreakDue scenarioAt59 60000 = true) by (vm_compute; reflexivity).
  assert (Ht : timeRemaining scenarioAt59 = 1441) by (vm_compute; reflexivity).
  assert (Hm : mode scenarioAt59 = WORK) by (vm_compute; reflexivity).
  assert (Ha : isActive scenarioAt59 = true) by (vm_compute; reflexivity).
  assert (Hp : 0 < timeRemaining scenarioAt59) by (rewrite Ht; lia).
  split; [exact Hd|]. split; [exact Ht|]. split.
  - destruct (microBreak_returns_to_work alwaysHalf scenarioAt59 60000 newYear
                (clockReadings 60000 10) 0 Hm Ha Hp Hd) as (_ & T & _).
    rewrite Ht in T. apply T. vm_compute. reflexivity.
  - destruct (microBreak_returns_to_work alwaysHalf scenarioAt59 60000 newYear
                (clockReadings 60000 3) 63500 Hm Ha Hp Hd) as (_ & _ & K).
    rewrite Ht in K. apply K. left. vm_compute. reflexivity.
Defined.

Lemma microBreaks_disabled_witness :
  let s := step alwaysHalf (SaveSettings 5000 microBreaksOff) defaultRunning in
  let es := [Tick 6000 newYear; ToggleTimer 6500; ToggleTimer 9000; Tick 10000 newYear] in
  nextMicroBreakTimeRef defaultRunning = Some 240000
  /\ enableMicroBreaks (settings s) = false
  /\ nextMicroBreakTimeRef (run alwaysHalf es s) = None
  /\ mode (step alwaysHalf (Tick 300000 newYear) (run alwaysHalf es s)) <> MICRO_BREAK.
Proof.
  cbv zeta.
  assert (Hr : reachable alwaysHalf
                 (step alwaysHalf (SaveSettings 5000 microBreaksOff) defaultRunning))
    by (apply reach_step, reach_step, reach_mount).
  destruct (microBreaks_disabled alwaysHalf
              (step alwaysHalf (SaveSettings 5000 microBreaksOff) defaultRunning)
              [Tick 6000 newYear; ToggleTimer 6500; ToggleTimer 9000; Tick 10000 newYear]
              (Tick 300000 newYear) Hr)
    as (_ & E2 & _ & _ & E5);
    [vm_compute; reflexivity | reflexivity |].
  split; [vm_compute; reflexivity|]. split; [vm_compute; reflexivity|].
  split; [exact E2|]. apply E5. vm_compute. reflexivity.
Defined.

Lemma scenario_sixty_ticks_witness :
  0 <= 0
  /\ workTimeSnapshotRef scenarioInMicroBreak = Some 1441
  /\ workTimeSnapshotRef scenarioInMicroBreak <> Some (25 * 60 - 60).
Proof.
  split; [lia|].
  destruct (scenario_sixty_ticks alwaysHalf true false 0 newYear ltac:(lia))
    as (_ & _ & _ & _ & E & _).
  split; [exact E | vm_compute; discriminate].
Defined.



(** ** The markdown archive *)

(** *** Lines *)

Lemma singleLine_no_LF (l : jsstring) :
  singleLine l = true -> Forall (fun c => (c =? LF)%N = false) l.
Proof.
  unfold singleLine. intros H. apply Forall_forall. intros c Hc.
  rewrite forallb_forall in H. specialize (H c Hc).
  unfold isLineTerminator in H. apply negb_true_iff in H.
  apply orb_false_iff in H as [H _]. apply orb_false_iff in H as [H _].
  apply orb_false_iff in H as [H _]. exact H.
Qed.

Lemma splitLines_nonempty (s : jsstring) :
  exists h t, splitLines s = h :: t.
Proof.
  induction s as [|c s (h & t & IH)]; simpl; [eauto|].
  destruct (c =? LF)%N; [eauto|]. rewrite IH. simpl. eauto.
Qed.

Lemma splitLines_app (l rest : jsstring) :
  Forall (fun c => (c =? LF)%N = false) l ->
  splitLines (l ++ rest) = prependHead l (splitLines rest).
Proof.
  destruct (splitLines_nonempty rest) as (h & t & E).
  induction 1 as [|c l Hc Hl IH]; simpl.
  - rewrite E. reflexivity.
  - rewrite Hc, IH, E. reflexivity.
Qed.

Lemma splitLines_join (ls : list jsstring) :
  ls <> [] -> Forall (fun l => singleLine l = true) ls ->
  splitLines (join ls) = ls.
Proof.
  intros Hne H. induction H as [|l ls Hl Hls IH]; [congruence|].
  destruct ls as [|l2 rest].
  - simpl. rewrite <- (app_nil_r l) at 1.
    rewrite splitLines_app by (apply singleLine_no_LF; exact Hl).
    simpl. rewrite app_nil_r. reflexivity.
  - change (join (l :: l2 :: rest)) with (l ++ LF :: join (l2 :: rest)).
    rewrite splitLines_app by (apply singleLine_no_LF; exact Hl).
    change (splitLines (LF :: join (l2 :: rest)))
      with ([] :: splitLines (join (l2 :: rest))).
    rewrite IH by discriminate. simpl. rewrite app_nil_r. reflexivity.
Qed.

(** *** Day headers *)

Lemma matchDayHeader_other_line (l tail : jsstring) :
  notDayHeader l = true ->
  tail = [] \/ (exists t, tail = LF :: t) ->
  matchDayHeader (l ++ tail) = None.
Proof.
  unfold notDayHeader, matchDayHeader, dayPattern, lits, str_h2.
  intros Hn Ht.
  assert (Htail : matchPrefix [Lit 35%N] tail = None
                  /\ matchPrefix [Lit 32%N] tail = None).
  { destruct Ht as [->|(t & ->)]; split; reflexivity. }
  destruct Htail as [T1 T2].
  destruct l as [|a [|b [|c l]]]; simpl in *.
  - destruct tail as [|x tail]; [reflexivity|]. simpl in T1.
    destruct (x =? 35)%N; [discriminate | reflexivity].
  - destruct (a =? 35)%N; [|reflexivity].
    destruct tail as [|x tail]; [reflexivity|]. simpl in T1.
    destruct (x =? 35)%N; [discriminate | reflexivity].
  - destruct (a =? 35)%N; [|reflexivity]. destruct (b =? 35)%N; [|reflexivity].
    destruct tail as [|x tail]; [reflexivity|]. simpl in T2.
    destruct (x =? 32)%N; [discriminate | reflexivity].
  - destruct (a =? 35)%N; [|reflexivity]. destruct (b =? 35)%N; [|reflexivity].
    destruct (c =? 32)%N; [discriminate | reflexivity].
Qed.

Lemma consHead_prependHead (c : N) (l : jsstring) (ls : list jsstring) :
  consHead c (prependHead l ls) = prependHead (c :: l) ls.
Proof. destruct ls; reflexivity. Qed.

Lemma splitDays_nonempty (skip : nat) (bol : bool) (s : jsstring) :
  exists h t, splitDays skip bol s = h :: t.
Proof.
  revert skip bol. induction s as [|c s IH]; intros skip bol; simpl; [eauto|].
  destruct skip; [|apply IH].
  destruct (if bol then matchDayHeader (c :: s) else None); [eauto|].
  destruct (IH O (isLineTerminator c)) as (h & t & E). rewrite E. simpl. eauto.
Qed.

Lemma splitDays_inline (l tail : jsstring) :
  singleLine l = true ->
  splitDays O false (l ++ tail) = prependHead l (splitDays O false tail).
Proof.
  induction l as [|c l IH]; intros H.
  - simpl. destruct (splitDays_nonempty O false tail) as (h & t & E).
    rewrite E. reflexivity.
  - simpl in H. apply andb_true_iff in H as [Hc Hl].
    apply negb_true_iff in Hc.
    change ((c :: l) ++ tail) with (c :: (l ++ tail)).
    cbn [splitDays]. rewrite Hc, IH by exact Hl.
    apply consHead_prependHead.
Qed.

Lemma splitDays_line (l tail : jsstring) :
  singleLine l = true -> notDayHeader l = true ->
  tail = [] \/ (exists t, tail = LF :: t) ->
  splitDays O true (l ++ tail) = prependHead l (splitDays O false tail).
Proof.
  intros Hl Hn Ht.
  pose proof (matchDayHeader_other_line l tail Hn Ht) as Hm.
  destruct l as [|c l].
  - simpl in *. destruct Ht as [->|(t & ->)]; [reflexivity|].
    cbn [splitDays]. rewrite Hm.
    destruct (splitDays_nonempty O (isLineTerminator LF) t) as (h & t' & E).
    rewrite E. reflexivity.
  - simpl in Hl. apply andb_true_iff in Hl as [Hc Hl].
    apply negb_true_iff in Hc.
    change ((c :: l) ++ tail) with (c :: (l ++ tail)) in *.
    cbn [splitDays]. rewrite Hm, Hc, splitDays_inline by exact Hl.
    apply consHead_prependHead.
Qed.

(** No day header among the lines: the split is the text itself. *)
Lemma splitDays_no_header (ls : list jsstring) :
  ls <> [] ->
  Forall (fun l => singleLine l = true) ls ->
  Forall (fun l => notDayHeader l = true) ls ->
  splitDays O true (join ls) = [join ls].
Proof.
  intros Hne Hs. revert Hne. induction Hs as [|l ls Hl Hls IH]; intros Hne Hn;
    [congruence|].
  inversion Hn as [|? ? Hn1 Hn2]; subst.
  destruct ls as [|l2 rest].
  - simpl. rewrite <- (app_nil_r l) at 1.
    rewrite splitDays_line by (auto).
    simpl. rewrite app_nil_r. reflexivity.
  - change (join (l :: l2 :: rest)) with (l ++ LF :: join (l2 :: rest)).
    rewrite splitDays_line by (eauto).
    cbn [splitDays]. change (isLineTerminator LF) with true.
    rewrite IH by (auto; discriminate). reflexivity.
Qed.

(** *** Numerals *)

Lemma digitsOf_acc (fuel : nat) (n : Z) (acc : jsstring) :
  digitsOf fuel n acc = digitsOf fuel n [] ++ acc.
Proof.
  revert n acc. induction fuel as [|fuel IH]; intros n acc; simpl; [reflexivity|].
  destruct (n / 10 =? 0); [reflexivity|].
  rewrite IH. rewrite (IH (n / 10) [_]). rewrite <- app_assoc. reflexivity.
Qed.

Lemma digitsOf_step (fuel : nat) (n : Z) (acc : jsstring) :
  digitsOf (S fuel) n acc =
  let acc' := Z.to_N (48 + n mod 10) :: acc in
  if n / 10 =? 0 then acc' else digitsOf fuel (n / 10) acc'.
Proof. reflexivity. Qed.

Lemma parseInt_snoc (ds : jsstring) (c : N) :
  parseInt (ds ++ [c]) = parseInt ds * 10 + (Z.of_N c - 48).
Proof. unfold parseInt. rewrite fold_left_app. reflexivity. Qed.

Lemma isDigit_of_Z (d : Z) : 0 <= d < 10 -> isDigit (Z.to_N (48 + d)) = true.
Proof.
  intros Hd. unfold isDigit. apply andb_true_iff. split; apply N.leb_le; lia.
Qed.

Lemma digitsOf_spec (fuel : nat) (n : Z) :
  0 <= n < 2 ^ Z.of_nat (S fuel) ->
  let ds := digitsOf (S fuel) n [] in
  ds <> [] /\ forallb isDigit ds = true /\ parseInt ds = n.
Proof.
  revert n. induction fuel as [|fuel IH]; intros n Hn.
  - change (2 ^ Z.of_nat 1) with 2 in Hn.
    assert (H : n / 10 = 0) by (apply Z.div_small; lia).
    assert (Hm : n mod 10 = n) by (apply Z.mod_small; lia).
    cbn [digitsOf]. rewrite H, Hm. cbn [Z.eqb].
    split; [discriminate|]. split.
    + cbn [forallb]. rewrite isDigit_of_Z by lia. reflexivity.
    + unfold parseInt. cbn [fold_left]. rewrite Z2N.id by lia. lia.
  - rewrite digitsOf_step. cbv zeta.
    pose proof (Z.mod_pos_bound n 10 ltac:(lia)) as Hm.
    pose proof (Z.div_mod n 10 ltac:(lia)) as Hdm.
    destruct (Z.eqb_spec (n / 10) 0) as [E|E].
    + split; [discriminate|]. split.
      * cbn [forallb]. rewrite isDigit_of_Z by lia. reflexivity.
      * unfold parseInt. cbn [fold_left]. rewrite Z2N.id by lia. lia.
    + assert (Hq : 0 <= n / 10 < 2 ^ Z.of_nat (S fuel)).
      { split; [apply Z.div_pos; lia|].
        apply Z.div_lt_upper_bound; [lia|].
        replace (Z.of_nat (S (S fuel))) with (Z.of_nat (S fuel) + 1) in Hn by lia.
        rewrite Z.pow_add_r in Hn by lia.
        assert (0 < 2 ^ Z.of_nat (S fuel)) by (apply Z.pow_pos_nonneg; lia).
        lia. }
      destruct (IH (n / 10) Hq) as (I1 & I2 & I3).
      rewrite digitsOf_acc.
      split; [intros C; apply app_eq_nil in C as [_ C]; discriminate|]. split.
      * rewrite forallb_app, I2. cbn [forallb].
        rewrite isDigit_of_Z by lia. reflexivity.
      * rewrite parseInt_snoc, I3, Z2N.id by lia. lia.
Qed.

Lemma numberToString_spec (n : Z) :
  0 < n ->
  numberToString n <> [] /\ forallb isDigit (numberToString n) = true
  /\ parseInt (numberToString n) = n.
Proof.
  intros Hn. unfold numberToString. apply digitsOf_spec.
  destruct (Z.log2_spec n Hn) as [_ H].
  split; [lia|].
  replace (Z.of_nat (S (Z.to_nat (Z.log2 n)))) with (Z.succ (Z.log2 n)); [exact H|].
  pose proof (Z.log2_nonneg n). lia.
Qed.

(** *** The regular expressions on the generated lines *)

Lemma matchPrefix_lits (p r : jsstring) :
  matchPrefix (lits p) (p ++ r) = Some (p, r).
Proof.
  induction p as [|c p IH]; [reflexivity|].
  unfold lits in *. cbn [map app matchPrefix classMatches].
  rewrite N.eqb_refl, IH. reflexivity.
Qed.

Lemma matchDotPlusToEnd_singleLine (s : jsstring) :
  s <> [] -> singleLine s = true -> matchDotPlusToEnd s = Some s.
Proof.
  intros Hne Hs. destruct s as [|c s]; [congruence|].
  unfold matchDotPlusToEnd. unfold singleLine in Hs. rewrite Hs. reflexivity.
Qed.

Lemma spanDigits_app (ds rest : jsstring) :
  forallb isDigit ds = true ->
  match rest with [] => True | c :: _ => isDigit c = false end ->
  spanDigits (ds ++ rest) = (ds, rest).
Proof.
  intros Hd Hr. induction ds as [|d ds IH]; simpl.
  - destruct rest as [|c rest]; [reflexivity|]. simpl. rewrite Hr. reflexivity.
  - simpl in Hd. apply andb_true_iff in Hd as [H1 H2].
    rewrite H1, IH by exact H2. reflexivity.
Qed.

Lemma parseLine_empty (st : jsstring * list HistoricalTask * Z) :
  parseLine st [] = st.
Proof. destruct st as [[ct ts] fm]. reflexivity. Qed.

Lemma parseLine_column (ct : jsstring) (ts : list HistoricalTask) (fm : Z)
    (ttl : jsstring) :
  exists ct', parseLine (ct, ts, fm) (str_h3 ++ ttl) = (ct', ts, fm).
Proof.
  unfold parseLine, columnMatch. rewrite matchPrefix_lits.
  destruct (matchDotPlusToEnd ttl) as [t|]; [eauto|].
  exists ct. reflexivity.
Qed.

Lemma parseLine_task (ct : jsstring) (ts : list HistoricalTask) (fm : Z) (t : Task) :
  text t <> [] -> singleLine (text t) = true ->
  parseLine (ct, ts, fm) (taskLine t) =
  (ct, ts ++ [ {| h_text := text t; h_completed := completed t;
                  columnTitle := ct |} ], fm).
Proof.
  intros Hne Hs. unfold parseLine, taskLine, columnMatch, taskMatch, focusMatch.
  destruct (completed t); simpl;
    rewrite (matchDotPlusToEnd_singleLine _ Hne Hs); reflexivity.
Qed.

Lemma parseLine_focus (ct : jsstring) (ts : list HistoricalTask) (fm0 n : Z) :
  0 < n ->
  parseLine (ct, ts, fm0) (str_focus ++ numberToString n ++ str_minutes) = (ct, ts, n).
Proof.
  intros Hn. destruct (numberToString_spec n Hn) as (N1 & N2 & N3).
  unfold parseLine.
  assert (C : columnMatch (str_focus ++ numberToString n ++ str_minutes) = None)
    by reflexivity.
  assert (T : taskMatch (str_focus ++ numberToString n ++ str_minutes) = None)
    by reflexivity.
  rewrite C, T. unfold focusMatch. rewrite matchPrefix_lits.
  rewrite spanDigits_app by (try exact N2; reflexivity).
  destruct (numberToString n) as [|d ds]; [congruence|].
  rewrite str_eqb_refl, N3. reflexivity.
Qed.

(** *** The lines of a day *)

Lemma isDigit_not_terminator (c : N) :
  isDigit c = true -> negb (isLineTerminator c) = true.
Proof.
  unfold isDigit, isLineTerminator. intros H.
  apply andb_true_iff in H as [H1 H2].
  apply N.leb_le in H1. apply N.leb_le in H2.
  apply negb_true_iff.
  destruct (N.eqb_spec c 10), (N.eqb_spec c 13), (N.eqb_spec c 8232),
    (N.eqb_spec c 8233); try reflexivity; subst; exfalso; lia.
Qed.

Lemma singleLine_app (a b : jsstring) :
  singleLine (a ++ b) = singleLine a && singleLine b.
Proof. apply forallb_app. Qed.

Lemma singleLine_digits (ds : jsstring) :
  forallb isDigit ds = true -> singleLine ds = true.
Proof.
  unfold singleLine. rewrite !forallb_forall. intros H c Hc.
  apply isDigit_not_terminator, H, Hc.
Qed.

Lemma Forall_filter_keeps {A : Type} (P : A -> Prop) (f : A -> bool) (l : list A) :
  Forall P l -> Forall P (filter f l).
Proof.
  rewrite !Forall_forall. intros H x Hx. apply filter_In in Hx as [Hx _]. auto.
Qed.

Lemma columnLines_lines (ts : list Task) (c : Column) :
  Forall (fun t => text t <> [] /\ singleLine (text t) = true) ts ->
  singleLine (title c) = true ->
  Forall (fun l => singleLine l = true /\ notDayHeader l = true) (columnLines ts c).
Proof.
  intros Ht Hc. unfold columnLines.
  pose proof (Forall_filter_keeps _ (fun t => str_eqb (columnId t) (col_id c)) ts Ht) as Hf.
  destruct (filter (fun t => str_eqb (columnId t) (col_id c)) ts) as [|t0 l] eqn:E;
    [constructor|].
  constructor.
  - split; [|reflexivity]. rewrite singleLine_app, Hc. reflexivity.
  - apply Forall_app. split.
    + apply Forall_forall. intros x Hx. apply in_map_iff in Hx as (t & <- & Hin).
      rewrite Forall_forall in Hf. destruct (Hf t Hin) as [_ Hs].
      unfold taskLine. destruct (completed t);
        (split; [rewrite singleLine_app, Hs; reflexivity | reflexivity]).
    + constructor; [split; reflexivity | constructor].
Qed.

Lemma focusLines_lines (fm : Z) :
  Forall (fun l => singleLine l = true /\ notDayHeader l = true) (focusLines fm).
Proof.
  unfold focusLines. destruct (Z.ltb_spec 0 fm) as [H|H]; [|constructor].
  destruct (numberToString_spec fm H) as (_ & N2 & _).
  constructor; [|constructor; [split; reflexivity | constructor]].
  split; [|reflexivity].
  rewrite !singleLine_app, (singleLine_digits _ N2). reflexivity.
Qed.

Lemma bodyLines_lines (ts : list Task) (columns : list Column) (fm : Z) :
  Forall (fun t => text t <> [] /\ singleLine (text t) = true) ts ->
  Forall (fun c => singleLine (title c) = true) columns ->
  Forall (fun l => singleLine l = true /\ notDayHeader l = true)
    ([] :: flat_map (columnLines ts) columns ++ focusLines fm).
Proof.
  intros Ht Hc. constructor; [split; reflexivity|].
  apply Forall_app. split; [|apply focusLines_lines].
  induction Hc as [|c columns Hc1 Hc2 IH]; [constructor|].
  simpl. apply Forall_app. split; [apply columnLines_lines; assumption | exact IH].
Qed.

(** *** Parsing the lines of a day *)

Lemma parse_taskLines (ct : jsstring) (hs : list HistoricalTask) (fm : Z)
    (l : list Task) :
  Forall (fun t => text t <> [] /\ singleLine (text t) = true) l ->
  exists hist,
    fold_left parseLine (map taskLine l) (ct, hs, fm) = (ct, hs ++ hist, fm)
    /\ map historicalFacts hist = map taskFacts l.
Proof.
  intros H. revert hs. induction H as [|t l [Hne Hs] Hl IH]; intros hs.
  - exists []. rewrite app_nil_r. split; reflexivity.
  - cbn [map fold_left]. rewrite parseLine_task by assumption.
    destruct (IH (hs ++ [ {| h_text := text t; h_completed := completed t;
                             columnTitle := ct |} ])) as (hist & E & M).
    exists ({| h_text := text t; h_completed := completed t; columnTitle := ct |} :: hist).
    rewrite E, <- app_assoc. split; [reflexivity|].
    cbn [map]. rewrite M. reflexivity.
Qed.

Lemma parse_columnLines (ct : jsstring) (hs : list HistoricalTask) (fm : Z)
    (ts : list Task) (c : Column) :
  Forall (fun t => text t <> [] /\ singleLine (text t) = true) ts ->
  exists ct' hist,
    fold_left parseLine (columnLines ts c) (ct, hs, fm) = (ct', hs ++ hist, fm)
    /\ map historicalFacts hist =
       map taskFacts (filter (fun t => str_eqb (columnId t) (col_id c)) ts).
Proof.
  intros Ht. unfold columnLines.
  pose proof (Forall_filter_keeps _ (fun t => str_eqb (columnId t) (col_id c)) ts Ht) as Hf.
  destruct (filter (fun t => str_eqb (columnId t) (col_id c)) ts) as [|t0 l] eqn:E.
  - exists ct, []. rewrite app_nil_r. split; reflexivity.
  - cbn [fold_left].
    destruct (parseLine_column ct hs fm (title c)) as (ct' & ->).
    rewrite fold_left_app.
    destruct (parse_taskLines ct' hs fm (t0 :: l) Hf) as (hist & -> & M).
    exists ct', hist. split; [reflexivity | exact M].
Qed.

Lemma parse_columns (ct : jsstring) (hs : list HistoricalTask) (fm : Z)
    (ts : list Task) (columns : list Column) :
  Forall (fun t => text t <> [] /\ singleLine (text t) = true) ts ->
  exists ct' hist,
    fold_left parseLine (flat_map (columnLines ts) columns) (ct, hs, fm)
      = (ct', hs ++ hist, fm)
    /\ map historicalFacts hist = map taskFacts (groupedByColumn ts columns).
Proof.
  intros Ht. revert ct hs. induction columns as [|c columns IH]; intros ct hs.
  - exists ct, []. rewrite app_nil_r. split; reflexivity.
  - simpl. rewrite fold_left_app.
    destruct (parse_columnLines ct hs fm ts c Ht) as (ct1 & h1 & -> & M1).
    destruct (IH ct1 (hs ++ h1)) as (ct2 & h2 & -> & M2).
    exists ct2, (h1 ++ h2). rewrite <- app_assoc. split; [reflexivity|].
    rewrite !map_app, M1, M2. reflexivity.
Qed.

Lemma parse_focusLines (ct : jsstring) (hs : list HistoricalTask) (fm : Z) :
  0 <= fm ->
  fold_left parseLine (focusLines fm) (ct, hs, 0) = (ct, hs, fm).
Proof.
  intros H. unfold focusLines. destruct (Z.ltb_spec 0 fm) as [Hp|Hp].
  - cbn [fold_left]. rewrite parseLine_focus by exact Hp. reflexivity.
  - simpl. f_equal. lia.
Qed.

(** *** The day header *)

Lemma matchPrefix_cons (k : CharClass) (pat : list CharClass) (s m r : jsstring) :
  matchPrefix (k :: pat) s = Some (m, r) ->
  exists c s' m',
    s = c :: s' /\ classMatches k c = true
    /\ matchPrefix pat s' = Some (m', r) /\ m = c :: m'.
Proof.
  cbn [matchPrefix]. destruct s as [|c s']; [discriminate|].
  destruct (classMatches k c) eqn:Hk; [|discriminate].
  destruct (matchPrefix pat s') as [[m' r']|] eqn:Hp; [|discriminate].
  intros E. injection E as <- <-. exists c, s', m'.
  split; [reflexivity|]. split; [exact Hk|]. split; [exact Hp | reflexivity].
Qed.

Lemma isDateString_inv (d : jsstring) :
  isDateString d = true ->
  exists y1 y2 y3 y4 m1 m2 d1 d2,
    d = [y1; y2; y3; y4; 45%N; m1; m2; 45%N; d1; d2]
    /\ forallb isDigit [y1; y2; y3; y4; m1; m2; d1; d2] = true.
Proof.
  unfold isDateString. intros H.
  destruct (matchPrefix datePattern d) as [[m r]|] eqn:E; [|discriminate H].
  destruct r; [|discriminate H]. clear H. unfold datePattern in E.
  apply matchPrefix_cons in E as (y1 & s1 & n1 & -> & Hy1 & E & ->).
  apply matchPrefix_cons in E as (y2 & s2 & n2 & -> & Hy2 & E & ->).
  apply matchPrefix_cons in E as (y3 & s3 & n3 & -> & Hy3 & E & ->).
  apply matchPrefix_cons in E as (y4 & s4 & n4 & -> & Hy4 & E & ->).
  apply matchPrefix_cons in E as (h1 & s5 & n5 & -> & Hh1 & E & ->).
  apply matchPrefix_cons in E as (m1 & s6 & n6 & -> & Hm1 & E & ->).
  apply matchPrefix_cons in E as (m2 & s7 & n7 & -> & Hm2 & E & ->).
  apply matchPrefix_cons in E as (h2 & s8 & n8 & -> & Hh2 & E & ->).
  apply matchPrefix_cons in E as (d1 & s9 & n9 & -> & Hd1 & E & ->).
  apply matchPrefix_cons in E as (d2 & s10 & n10 & -> & Hd2 & E & ->).
  cbn [matchPrefix] in E. injection E as <- ->.
  cbn [classMatches] in *.
  apply N.eqb_eq in Hh1, Hh2. subst h1 h2.
  exists y1, y2, y3, y4, m1, m2, d1, d2. split; [reflexivity|].
  cbn [forallb]. rewrite Hy1, Hy2, Hy3, Hy4, Hm1, Hm2, Hd1, Hd2. reflexivity.
Qed.

Lemma splitDays_header (d rest : jsstring) :
  isDateString d = true ->
  splitDays O true (str_h2 ++ d ++ str_tasks ++ LF :: rest) =
  [] :: d :: splitDays O false (LF :: rest).
Proof.
  intros H. destruct (isDateString_inv d H)
    as (y1 & y2 & y3 & y4 & m1 & m2 & d1 & d2 & -> & Hd).
  cbn [forallb] in Hd.
  repeat match type of Hd with
         | _ && _ = true => apply andb_true_iff in Hd as [? Hd]
         end.
  assert (M : matchDayHeader
                (str_h2 ++ [y1; y2; y3; y4; 45%N; m1; m2; 45%N; d1; d2]
                 ++ str_tasks ++ LF :: rest)
              = Some [y1; y2; y3; y4; 45%N; m1; m2; 45%N; d1; d2]).
  { unfold matchDayHeader, dayPattern, datePattern, lits, str_h2, str_tasks.
    cbn [map app matchPrefix classMatches].
    repeat match goal with E : isDigit _ = true |- _ => rewrite E; clear E end.
    reflexivity. }
  unfold str_h2 in *. cbn [app] in *. cbn [splitDays]. rewrite M. reflexivity.
Qed.

(** C10, as the code has it: for a date of the form YYYY-MM-DD, tasks
    whose texts are non-empty single lines, columns whose titles are single
    lines, and a whole number of focus minutes from 0 up to 10^21 excluded,
    parsing the generated markdown of the day gives exactly one snapshot; it
    has the date, the text and the completed flag of the tasks of each
    column in turn, and the focus minutes.  When every task is in a listed
    column, every task is among them. *)
Theorem markdown_roundtrip (d : jsstring) (ts : list Task) (columns : list Column)
    (fm : Z) :
  isDateString d = true ->
  Forall (fun t => text t <> [] /\ singleLine (text t) = true) ts ->
  Forall (fun c => singleLine (title c) = true) columns ->
  0 <= fm < 10 ^ 21 ->
  exists snap,
    parseMarkdownToSnapshots (generateDayMarkdown d ts columns fm) = [snap]
    /\ snap_date snap = d
    /\ map historicalFacts (tasks snap) = map taskFacts (groupedByColumn ts columns)
    /\ focusMinutes snap = fm
    /\ (Forall (fun t => exists c, In c columns /\ columnId t = col_id c) ts ->
        forall t, In t ts -> In t (groupedByColumn ts columns)).
Proof.
  intros Hd Ht Hc Hfm.
  set (body := flat_map (columnLines ts) columns ++ focusLines fm).
  pose proof (bodyLines_lines ts columns fm Ht Hc) as Hb. fold body in Hb.
  assert (Hs : Forall (fun l => singleLine l = true) ([] :: body))
    by (revert Hb; apply Forall_impl; intros l [H _]; exact H).
  assert (Hn : Forall (fun l => notDayHeader l = true) ([] :: body))
    by (revert Hb; apply Forall_impl; intros l [_ H]; exact H).
  assert (G : generateDayMarkdown d ts columns fm =
              str_h2 ++ d ++ str_tasks ++ LF :: join ([] :: body)).
  { unfold generateDayMarkdown, dayLines. fold body.
    change (join ((str_h2 ++ d ++ str_tasks) :: [] :: body))
      with ((str_h2 ++ d ++ str_tasks) ++ LF :: join ([] :: body)).
    rewrite <- !app_assoc. reflexivity. }
  assert (S : splitDays O true (generateDayMarkdown d ts columns fm) =
              [[]; d; LF :: join ([] :: body)]).
  { rewrite G, splitDays_header by exact Hd.
    cbn [splitDays]. change (isLineTerminator LF) with true.
    rewrite splitDays_no_header by (try assumption; discriminate). reflexivity. }
  assert (L : splitLines (LF :: join ([] :: body)) = [] :: [] :: body).
  { change (splitLines (LF :: join ([] :: body)))
      with ([] :: splitLines (join ([] :: body))).
    rewrite splitLines_join by (try assumption; discriminate). reflexivity. }
  destruct (parse_columns str_uncategorized [] 0 ts columns Ht)
    as (ct & hist & F & M).
  assert (P : parseSection d (LF :: join ([] :: body)) =
              {| snap_date := d; tasks := hist; focusMinutes := fm |}).
  { unfold parseSection. rewrite L. cbn [fold_left]. rewrite !parseLine_empty.
    unfold body. rewrite fold_left_app, F, parse_focusLines by lia. reflexivity. }
  exists {| snap_date := d; tasks := hist; focusMinutes := fm |}.
  split; [|split; [reflexivity | split; [exact M | split; [reflexivity|]]]].
  - unfold parseMarkdownToSnapshots. rewrite S. cbn [tl parseSections].
    rewrite P. reflexivity.
  - intros Hin t Hti. rewrite Forall_forall in Hin.
    destruct (Hin t Hti) as (c & Hc1 & Hc2).
    unfold groupedByColumn. apply in_flat_map. exists c. split; [exact Hc1|].
    apply filter_In. split; [exact Hti|]. apply str_eqb_eq. exact Hc2.
Qed.

Lemma markdown_roundtrip_witness :
  isDateString newYear = true
  /\ 0 <= 125 < 10 ^ 21
  /\ exists snap,
       parseMarkdownToSnapshots (generateDayMarkdown newYear boardTasks boardColumns 125)
         = [snap]
       /\ snap_date snap = newYear
       /\ map historicalFacts (tasks snap)
            = map taskFacts (groupedByColumn boardTasks boardColumns)
       /\ focusMinutes snap = 125.
Proof.
  split; [reflexivity|]. split; [lia|].
  destruct (markdown_roundtrip newYear boardTasks boardColumns 125)
    as (snap & E1 & E2 & E3 & E4 & _).
  - reflexivity.
  - repeat constructor; discriminate.
  - repeat constructor.
  - lia.
  - exists snap. repeat split; assumption.
Defined.

(** C10 as stated fails for a column title that is not a single line: the
    line feed in the title of [ghostColumn] puts a task line of its own into
    the markdown, and the parser returns two tasks for the one task given. *)
Lemma column_title_breaks_roundtrip :
  let md := generateDayMarkdown newYear [taskA] [ghostColumn] 0 in
  isDateString newYear = true
  /\ text taskA <> [] /\ singleLine (text taskA) = true
  /\ columnId taskA = col_id ghostColumn
  /\ map taskFacts (groupedByColumn [taskA] [ghostColumn]) = [([97%N], false)]
  /\ (exists snap, parseMarkdownToSnapshots md = [snap]
        /\ map historicalFacts (tasks snap)
             = [([103; 104; 111; 115; 116]%N, false); ([97%N], false)])
  /\ (forall snap, parseMarkdownToSnapshots md = [snap] ->
        map historicalFacts (tasks snap)
          <> map taskFacts (groupedByColumn [taskA] [ghostColumn])).
Proof.
  cbv zeta.
  split; [reflexivity|]. split; [discriminate|]. split; [reflexivity|].
  split; [reflexivity|]. split; [reflexivity|]. split.
  - eexists. split; [vm_compute; reflexivity | reflexivity].
  - intros snap H. vm_compute in H. injection H as <-. vm_compute. discriminate.
Qed.

(** * Further properties of the timer *)

Section TimerLaws.

Variable Math_random : nat -> UnitFrac.

(** What [switchMode] leaves in the cells that the other handlers read. *)
Lemma switchMode_fields (r : State) (m : TimerMode) (b : bool) (now : Z) (s : State) :
  let s' := switchMode Math_random r m b now s in
  workTimeSnapshotRef s' =
    (if mode_eqb (mode r) WORK && mode_eqb m MICRO_BREAK then Some (timeRemaining r)
     else if mode_eqb (mode r) MICRO_BREAK && mode_eqb m WORK then None
     else workTimeSnapshotRef s)
  /\ showMicroBreakOverlay s' =
       (if mode_eqb m MICRO_BREAK then true else showMicroBreakOverlay s)
  /\ timeRemaining s' =
       (if mode_eqb (mode r) MICRO_BREAK && mode_eqb m WORK
        then match workTimeSnapshotRef s with
             | Some snap => snap
             | None => getDurationForMode (settings r) m
             end
        else getDurationForMode (settings r) m)
  /\ isActive s' =
       match m with
       | WORK => if mode_eqb (mode r) MICRO_BREAK then true
                 else autoStartWork (settings r) && negb b
       | SHORT_BREAK => autoStartBreak (settings r) && negb b
       | MICRO_BREAK => true
       end.
Proof.
  unfold switchMode, scheduleNextMicroBreak.
  destruct m, (mode r); simpl;
    destruct (workTimeSnapshotRef s) eqn:Es, (enableMicroBreaks (settings r)),
      (autoStartWork (settings r)), (autoStartBreak (settings r)), b;
    simpl; rewrite ?Es;
    (split; [reflexivity | split; [reflexivity | split; reflexivity]]).
Qed.

(** When the countdown is paused or still positive, one round of effects
    settles the render. *)
Lemma runEffects_settled (fuel : nat) (now : Z) (prev s : State) :
  isActive s = false \/ 0 < timeRemaining s ->
  runEffects Math_random fuel now prev s =
  if microBreakEffectDeps prev s then microBreakEffect Math_random now s else s.
Proof.
  intros [Hp|Ht].
  - apply runEffects_paused. exact Hp.
  - destruct (isActive s) eqn:Ha.
    + apply runEffects_running; assumption.
    + apply runEffects_paused. exact Ha.
Qed.


(** X1: the tick that takes a running Work countdown from its last second
    to 0, with no micro-break due and a positive break duration, ends the
    work period: the timer is in ShortBreak with the break duration in
    seconds, running exactly when [autoStartBreak] is set; the snapshot and
    the overlay are as before and today has one second more in the ledger. *)
Theorem work_countdown_ends_in_break (s : State) (now : Z) (today : jsstring) :
  mode s = WORK -> isActive s = true -> timeRemaining s = 1 ->
  microBreakDue s now = false ->
  0 < breakDuration (settings s) ->
  let s' := step Math_random (Tick now today) s in
  mode s' = SHORT_BREAK
  /\ timeRemaining s' = breakDuration (settings s) * 60
  /\ isActive s' = autoStartBreak (settings s)
  /\ workTimeSnapshotRef s' = workTimeSnapshotRef s
  /\ showMicroBreakOverlay s' = showMicroBreakOverlay s
  /\ secondsOn today (logs s') = secondsOn today (logs s) + 1.
Proof.
  intros Hm Ha Ht Hd Hb. unfold step. rewrite Ha, Ht.
  change (true && (0 <? 1)) with true. cbv iota.
  rewrite intervalCallback_not_due by assumption. rewrite Ht.
  change (1 - 1) with 0.
  set (c := recordWorkTime today 1 (setTimeRemaining 0 s)).
  assert (Cm : mode c = WORK) by exact Hm.
  assert (Ca : isActive c = true) by exact Ha.
  unfold updateDepth. rewrite runEffects_eq. cbv zeta.
  assert (D1 : microBreakEffectDeps s c = false).
  { unfold microBreakEffectDeps, c. simpl.
    rewrite Hm, Nat.eqb_refl, !eqb_reflx. reflexivity. }
  assert (D2 : tickEffectDeps s c = true).
  { unfold tickEffectDeps, c. simpl. rewrite Ht. simpl.
    rewrite orb_true_r. reflexivity. }
  rewrite D1, D2.
  assert (T : tickEffect Math_random now c = Some (countdownFinished Math_random now c)).
  { unfold tickEffect. rewrite Ca. reflexivity. }
  rewrite T. unfold countdownFinished. rewrite Cm.
  set (b := switchMode Math_random c SHORT_BREAK false now (setIsActive false c)).
  destruct (switchMode_fields c SHORT_BREAK false now (setIsActive false c))
    as (F1 & F2 & F3 & F4).
  destruct (switchMode_core Math_random c SHORT_BREAK false now (setIsActive false c))
    as (_ & _ & F5 & _).
  fold b in F1, F2, F3, F4, F5. rewrite Cm in F1, F3. simpl in F1, F2, F3, F4.
  rewrite andb_true_r in F4.
  rewrite runEffects_settled by (right; rewrite F3; lia).
  assert (L : logs b = addSeconds today 1 (logs s))
    by (unfold b; rewrite switchMode_logs; reflexivity).
  destruct (microBreakEffectDeps c b).
  - destruct (microBreakEffect_core Math_random now b) as (_ & _ & -> & -> & -> & -> & -> & ->).
    rewrite F5, F3, F4, F1, F2, L, secondsOn_addSeconds. repeat split.
  - rewrite F5, F3, F4, F1, F2, L, secondsOn_addSeconds. repeat split.
Qed.


(** *** Invariants of the reachable states *)

Lemma runEffects_invariant (P : State -> Prop) :
  (forall now s, P s -> P (microBreakEffect Math_random now s)) ->
  (forall now s, P s -> timeRemaining s = 0 -> isActive s = true ->
     P (countdownFinished Math_random now s)) ->
  forall fuel now prev s, P s -> P (runEffects Math_random fuel now prev s).
Proof.
  intros He Hc fuel now. induction fuel as [|fuel IH]; intros prev s Hs;
    rewrite runEffects_eq; cbv zeta;
    set (s1 := if microBreakEffectDeps prev s
               then microBreakEffect Math_random now s else s);
    (assert (H1 : P s1)
       by (unfold s1; destruct (microBreakEffectDeps prev s); auto));
    (destruct (tickEffectDeps prev s); [|exact H1]);
    unfold tickEffect;
    (destruct (isActive s1 && (0 <? timeRemaining s1)); [exact H1|]);
    (destruct ((timeRemaining s1 =? 0) && isActive s1) eqn:G; [|exact H1]);
    apply andb_true_iff in G as [G1 G2]; apply Z.eqb_eq in G1.
  - apply Hc; assumption.
  - apply IH. apply Hc; assumption.
Qed.

Lemma intervalCallback_cases (now : Z) (today : jsstring) (s : State) :
  (mode s = WORK /\ microBreakDue s now = true)
  \/ intervalCallback Math_random now today s =
     (if mode_eqb (mode s) WORK
      then recordWorkTime today 1 (setTimeRemaining (timeRemaining s - 1) s)
      else setTimeRemaining (timeRemaining s - 1) s).
Proof.
  destruct (mode s) eqn:Hm.
  - destruct (microBreakDue s now) eqn:Hd; [left; auto|right].
    rewrite intervalCallback_not_due by assumption. reflexivity.
  - right. unfold intervalCallback. rewrite Hm. reflexivity.
  - right. unfold intervalCallback. rewrite Hm. reflexivity.
Qed.

Lemma toggleTimer_fields (now : Z) (s : State) :
  let s' := toggleTimer Math_random now s in
  mode s' = mode s /\ timeRemaining s' = timeRemaining s
  /\ isActive s' = negb (isActive s)
  /\ workTimeSnapshotRef s' = workTimeSnapshotRef s
  /\ showMicroBreakOverlay s' = showMicroBreakOverlay s
  /\ settings s' = settings s /\ settingsId s' = settingsId s
  /\ logs s' = logs s.
Proof.
  unfold toggleTimer.
  set (x := if negb (isActive s) then _ else _).
  assert (X : mode x = mode s /\ timeRemaining x = timeRemaining s
              /\ workTimeSnapshotRef x = workTimeSnapshotRef s
              /\ showMicroBreakOverlay x = showMicroBreakOverlay s
              /\ settings x = settings s /\ settingsId x = settingsId s
              /\ logs x = logs s).
  { unfold x.
    destruct (negb (isActive s)).
    - destruct (mode_eqb (mode s) WORK && truthy (microBreakRemainingRef s)).
      + destruct (microBreakRemainingRef s); simpl; tauto.
      + destruct (mode_eqb (mode s) WORK && negb (truthy (nextMicroBreakTimeRef s)));
          [|tauto].
        destruct (scheduleNextMicroBreak_core Math_random (settings s) now s)
          as (A & B & C & D & _ & F & G & H). tauto.
    - destruct (mode_eqb (mode s) WORK && truthy (nextMicroBreakTimeRef s)); [|tauto].
      destruct (nextMicroBreakTimeRef s); simpl; tauto. }
  simpl. tauto.
Qed.

Lemma onSave_fields (newSettings : Settings) (s : State) :
  let s' := onSave newSettings s in
  mode s' = mode s /\ settings s' = newSettings
  /\ workTimeSnapshotRef s' = workTimeSnapshotRef s
  /\ showMicroBreakOverlay s' = showMicroBreakOverlay s
  /\ logs s' = logs s
  /\ (timeRemaining s' = timeRemaining s
      \/ timeRemaining s' = workDuration newSettings * 60
      \/ timeRemaining s' = breakDuration newSettings * 60).
Proof.
  unfold onSave.
  destruct (mode_eqb (mode s) WORK
            && negb (workDuration (settings s) =? workDuration newSettings));
    [|destruct (mode_eqb (mode s) SHORT_BREAK
                && negb (breakDuration (settings s) =? breakDuration newSettings))];
    simpl; tauto.
Qed.

Lemma microBreakConsistent_core (s s' : State) :
  mode s' = mode s -> workTimeSnapshotRef s' = workTimeSnapshotRef s ->
  showMicroBreakOverlay s' = showMicroBreakOverlay s ->
  microBreakConsistent s -> microBreakConsistent s'.
Proof. unfold microBreakConsistent. intros -> -> ->. auto. Qed.

Lemma countdownFinished_consistent (now : Z) (s : State) :
  microBreakConsistent s ->
  microBreakConsistent (countdownFinished Math_random now s).
Proof.
  unfold microBreakConsistent, countdownFinished. intros H.
  destruct (mode s) eqn:Hm;
    match goal with
    | |- context [switchMode Math_random s ?m ?b now ?x] =>
        destruct (switchMode_fields s m b now x) as (F1 & F2 & _);
        destruct (switchMode_core Math_random s m b now x) as (_ & _ & F3 & _)
    end;
    rewrite F3, F1, F2, Hm; simpl; tauto.
Qed.

Lemma step_consistent (e : Event) (s : State) :
  microBreakConsistent s -> microBreakConsistent (step Math_random e s).
Proof.
  intros H.
  assert (R : forall now prev x, microBreakConsistent x ->
            microBreakConsistent (runEffects Math_random updateDepth now prev x)).
  { intros now prev x Hx.
    apply (runEffects_invariant microBreakConsistent); [| |exact Hx].
    - intros now' y Hy.
      destruct (microBreakEffect_core Math_random now' y) as (_ & _ & A & _ & _ & B & C & _).
      apply (microBreakConsistent_core y); assumption.
    - intros now' y Hy _ _. apply countdownFinished_consistent. exact Hy. }
  destruct e as [now today|now|now|now|now newSettings]; unfold step.
  - destruct (isActive s && (0 <? timeRemaining s)); [|exact H]. apply R.
    destruct (intervalCallback_cases now today s) as [[Hm Hd]|E].
    + destruct (intervalCallback_due Math_random now today s Hm Hd)
        as ((A & _ & _ & B & C) & _).
      unfold microBreakConsistent. rewrite A, B, C. split; [discriminate|reflexivity].
    + rewrite E. apply (microBreakConsistent_core s); [| |  | exact H];
        destruct (mode_eqb (mode s) WORK); reflexivity.
  - apply R. destruct (toggleTimer_fields now s) as (A & _ & _ & B & C & _).
    apply (microBreakConsistent_core s); assumption.
  - apply R. unfold microBreakConsistent. simpl. auto.
  - destruct (showMicroBreakOverlay s && mode_eqb (mode s) MICRO_BREAK) eqn:G;
      [|exact H].
    apply andb_true_iff in G as [_ G]. apply mode_eqb_eq in G.
    apply R. unfold skipMicroBreak, microBreakConsistent.
    destruct (switchMode_fields s WORK false now (setShowMicroBreakOverlay false s))
      as (F1 & F2 & _).
    destruct (switchMode_core Math_random s WORK false now (setShowMicroBreakOverlay false s))
      as (_ & _ & F3 & _).
    rewrite F3, F1, F2, G. simpl. auto.
  - apply R. destruct (onSave_fields newSettings s) as (A & _ & B & C & _).
    apply (microBreakConsistent_core s); assumption.
Qed.

(** X3: in every reachable state the work snapshot is set exactly during a
    micro-break, and the overlay is shown exactly then. *)
Theorem reachable_microBreak_consistent (s : State) :
  reachable Math_random s ->
  (mode s = MICRO_BREAK <-> workTimeSnapshotRef s <> None)
  /\ (mode s = MICRO_BREAK <-> showMicroBreakOverlay s = true).
Proof.
  intros Hr.
  assert (H : microBreakConsistent s).
  { induction Hr as [st savedLogs now | e s Hr IH].
    - unfold mount.
      destruct (microBreakEffect_core Math_random now (initialState st savedLogs))
        as (_ & _ & A & _ & _ & B & C & _).
      unfold microBreakConsistent. rewrite A, B, C. simpl. auto.
    - apply step_consistent. exact IH. }
  unfold microBreakConsistent in H.
  destruct (mode s); destruct H as [H1 H2]; rewrite ?H1, ?H2;
    (split; split; intros; try congruence; try discriminate; auto).
Qed.

Lemma reachable_run (es : list Event) (s : State) :
  reachable Math_random s -> reachable Math_random (run Math_random es s).
Proof.
  revert s. induction es as [|e es IH]; intros s H; [exact H|].
  change (run Math_random (e :: es) s)
    with (run Math_random es (step Math_random e s)).
  apply IH. apply reach_step. exact H.
Qed.

(** *** How a micro-break starts *)

(** X4: A micro-break is entered in one way only: by a tick of the running
    Work countdown that finds the scheduled deadline reached. *)
Theorem microBreak_only_from_due_tick (e : Event) (s : State) :
  mode (step Math_random e s) = MICRO_BREAK ->
  mode s = MICRO_BREAK
  \/ exists now today,
       e = Tick now today /\ mode s = WORK /\ isActive s = true
       /\ 0 < timeRemaining s /\ microBreakDue s now = true.
Proof.
  intros H.
  destruct (mode s) eqn:Hm; [|exfalso|left; reflexivity].
  - (* Work *)
    right. destruct e as [now today|now|now|now|now newSettings]; unfold step in H.
    + destruct (isActive s) eqn:Ha; [|simpl in H; congruence].
      destruct (Z.ltb_spec 0 (timeRemaining s)) as [Ht|Ht]; [|simpl in H; congruence].
      simpl in H. exists now, today.
      destruct (microBreakDue s now) eqn:Hd; [auto|exfalso].
      rewrite intervalCallback_not_due in H by assumption.
      destruct (runEffects_core Math_random updateDepth now s
                  (recordWorkTime today 1 (setTimeRemaining (timeRemaining s - 1) s)))
        as (_ & N & _).
      apply N; [simpl; rewrite Hm; discriminate | exact H].
    + exfalso.
      destruct (runEffects_core Math_random updateDepth now s (toggleTimer Math_random now s))
        as (_ & N & _).
      destruct (toggleTimer_fields now s) as (A & _).
      apply N; [rewrite A, Hm; discriminate | exact H].
    + exfalso.
      destruct (runEffects_core Math_random updateDepth now s (resetTimer s)) as (_ & N & _).
      apply N; [simpl; discriminate | exact H].
    + exfalso. rewrite Hm, andb_false_r in H. congruence.
    + exfalso.
      destruct (runEffects_core Math_random updateDepth now s (onSave newSettings s))
        as (_ & N & _).
      destruct (onSave_fields newSettings s) as (A & _).
      apply N; [rewrite A, Hm; discriminate | exact H].
  - (* ShortBreak *)
    destruct e as [now today|now|now|now|now newSettings]; unfold step in H.
    + destruct (isActive s && (0 <? timeRemaining s)); [|congruence].
      destruct (runEffects_core Math_random updateDepth now s
                  (intervalCallback Math_random now today s)) as (_ & N & _).
      apply N; [|exact H].
      unfold intervalCallback. rewrite Hm. simpl. rewrite Hm. discriminate.
    + destruct (runEffects_core Math_random updateDepth now s (toggleTimer Math_random now s))
        as (_ & N & _).
      destruct (toggleTimer_fields now s) as (A & _).
      apply N; [rewrite A, Hm; discriminate | exact H].
    + destruct (runEffects_core Math_random updateDepth now s (resetTimer s)) as (_ & N & _).
      apply N; [simpl; discriminate | exact H].
    + rewrite Hm, andb_false_r in H. congruence.
    + destruct (runEffects_core Math_random updateDepth now s (onSave newSettings s))
        as (_ & N & _).
      destruct (onSave_fields newSettings s) as (A & _).
      apply N; [rewrite A, Hm; discriminate | exact H].
Qed.

(** *** Who writes the ledger *)

(** X5: only a tick of a running Work countdown writes the ledger, and it adds
    one second to today's record whether the tick just counts down, starts
    a micro-break or ends the work period; the records of other days stay as
    they are.  Pausing, resuming, resetting, skipping and saving settings
    leave the ledger alone. *)
Theorem ledger_written_by_work_ticks (e : Event) (s : State) (day : jsstring) :
  match e with
  | Tick now today =>
      if isActive s && (0 <? timeRemaining s) && mode_eqb (mode s) WORK
      then logs (step Math_random e s) = addSeconds today 1 (logs s)
           /\ secondsOn today (logs (step Math_random e s))
                = secondsOn today (logs s) + 1
           /\ (day <> today ->
               secondsOn day (logs (step Math_random e s)) = secondsOn day (logs s))
      else logs (step Math_random e s) = logs s
  | _ => logs (step Math_random e s) = logs s
  end.
Proof.
  destruct e as [now today|now|now|now|now newSettings].
  - rewrite tick_logs.
    destruct (isActive s && (0 <? timeRemaining s) && mode_eqb (mode s) WORK);
      [|reflexivity].
    split; [reflexivity|]. split; [apply secondsOn_addSeconds|].
    intros Hne. induction (logs s) as [|r l IH]; simpl.
    + destruct (str_eqb today day) eqn:E; [|reflexivity].
      apply str_eqb_eq in E. congruence.
    + destruct (str_eqb (date r) today) eqn:E1; simpl.
      * apply str_eqb_eq in E1.
        destruct (str_eqb (date r) day) eqn:E2; [|reflexivity].
        apply str_eqb_eq in E2. congruence.
      * destruct (str_eqb (date r) day); [reflexivity | exact IH].
  - unfold step. rewrite runEffects_logs. apply toggleTimer_fields.
  - unfold step. rewrite runEffects_logs. reflexivity.
  - unfold step.
    destruct (showMicroBreakOverlay s && mode_eqb (mode s) MICRO_BREAK); [|reflexivity].
    rewrite runEffects_logs. unfold skipMicroBreak. rewrite switchMode_logs. reflexivity.
  - unfold step. rewrite runEffects_logs. apply onSave_fields.
Qed.

(** *** Pausing a break *)

(** X6: outside Work the pause button only stops and restarts the countdown:
    pausing and resuming a running break gives back the very same state
    (in Work, resuming draws a new micro-break instead). *)
Theorem pause_resume_break_identity (s : State) (t0 t1 : Z) :
  mode s <> WORK -> isActive s = true -> 0 < timeRemaining s ->
  (enableMicroBreaks (settings s) = false ->
   nextMicroBreakTimeRef s = None /\ microBreakRemainingRef s = None) ->
  step Math_random (ToggleTimer t1) (step Math_random (ToggleTimer t0) s) = s.
Proof.
  intros Hm Ha Ht Hc.
  assert (Hw : mode_eqb (mode s) WORK = false)
    by (destruct (mode s); [congruence | reflexivity | reflexivity]).
  assert (Fx : forall now (x : State), mode x = mode s -> settings x = settings s ->
            nextMicroBreakTimeRef x = nextMicroBreakTimeRef s ->
            microBreakRemainingRef x = microBreakRemainingRef s ->
            microBreakEffect Math_random now x = x).
  { intros now x Xm Xs Xn Xr. unfold microBreakEffect. rewrite Xm, Xs, Hw. simpl.
    destruct (enableMicroBreaks (settings s)) eqn:Ee; [reflexivity|]. simpl.
    destruct (Hc eq_refl) as [Hn Hr]. rewrite Hn in Xn. rewrite Hr in Xr.
    destruct x; simpl in *. subst. reflexivity. }
  assert (P : step Math_random (ToggleTimer t0) s = setIsActive false s).
  { unfold step.
    assert (T : toggleTimer Math_random t0 s = setIsActive false s)
      by (unfold toggleTimer; rewrite Ha, Hw; reflexivity).
    rewrite T, runEffects_paused by reflexivity.
    rewrite Fx by reflexivity. destruct (microBreakEffectDeps _ _); reflexivity. }
  rewrite P. unfold step.
  assert (T : toggleTimer Math_random t1 (setIsActive false s) = s).
  { unfold toggleTimer. simpl. rewrite Hw. simpl. rewrite <- Ha.
    destruct s; reflexivity. }
  rewrite T, runEffects_running by assumption.
  rewrite Fx by reflexivity. destruct (microBreakEffectDeps _ _); reflexivity.
Qed.

(** *** The countdown never goes below zero *)

Lemma countdownNonneg_core (s s' : State) :
  settings s' = settings s -> timeRemaining s' = timeRemaining s ->
  workTimeSnapshotRef s' = workTimeSnapshotRef s ->
  countdownNonneg s -> countdownNonneg s'.
Proof. unfold countdownNonneg. intros -> -> ->. auto. Qed.

Lemma countdownFinished_nonneg (now : Z) (s : State) :
  countdownNonneg s -> countdownNonneg (countdownFinished Math_random now s).
Proof.
  unfold countdownNonneg, countdownFinished, durationsNonneg.
  intros ((Dw & Db & Dm) & Ht & Hs).
  destruct (mode s) eqn:Hm;
    match goal with
    | |- context [switchMode Math_random s ?m ?b now ?x] =>
        destruct (switchMode_fields s m b now x) as (F1 & _ & F3 & _);
        destruct (switchMode_core Math_random s m b now x) as (F4 & _)
    end;
    rewrite F4, F1, F3, Hm; simpl;
    (split; [tauto|]);
    destruct (workTimeSnapshotRef s); (split; [lia | auto]).
Qed.

Lemma step_nonneg (e : Event) (s : State) :
  bringsNonnegDurations e -> countdownNonneg s ->
  countdownNonneg (step Math_random e s).
Proof.
  intros He H.
  assert (R : forall now prev x, countdownNonneg x ->
            countdownNonneg (runEffects Math_random updateDepth now prev x)).
  { intros now prev x Hx.
    apply (runEffects_invariant countdownNonneg); [| |exact Hx].
    - intros now' y Hy.
      destruct (microBreakEffect_core Math_random now' y) as (A & _ & _ & B & _ & _ & C & _).
      apply (countdownNonneg_core y); assumption.
    - intros now' y Hy _ _. apply countdownFinished_nonneg. exact Hy. }
  destruct e as [now today|now|now|now|now newSettings]; unfold step.
  - destruct (isActive s) eqn:Ha; [|exact H].
    destruct (Z.ltb_spec 0 (timeRemaining s)) as [Ht|Ht]; [|exact H].
    simpl. apply R.
    destruct H as (Hd & _ & Hs).
    destruct (intervalCallback_cases now today s) as [[Hm Hdue]|E].
    + destruct (intervalCallback_due Math_random now today s Hm Hdue)
        as ((_ & _ & A & B & _) & C & _).
      unfold countdownNonneg. rewrite A, B, C.
      split; [exact Hd|]. split; [apply Hd | lia].
    + rewrite E. unfold countdownNonneg.
      destruct (mode_eqb (mode s) WORK); simpl;
        (split; [exact Hd|]); (split; [lia | exact Hs]).
  - apply R. destruct (toggleTimer_fields now s) as (_ & A & _ & B & _ & C & _).
    apply (countdownNonneg_core s); assumption.
  - apply R. destruct H as (Hd & _). unfold countdownNonneg. simpl.
    split; [exact Hd|]. split; [|exact I]. destruct Hd as (Hw & _). lia.
  - destruct (showMicroBreakOverlay s && mode_eqb (mode s) MICRO_BREAK) eqn:G;
      [|exact H].
    apply R. unfold skipMicroBreak, countdownNonneg.
    destruct (switchMode_fields s WORK false now (setShowMicroBreakOverlay false s))
      as (F1 & _ & F3 & _).
    destruct (switchMode_core Math_random s WORK false now (setShowMicroBreakOverlay false s))
      as (F4 & _).
    apply andb_true_iff in G as [_ G]. apply mode_eqb_eq in G.
    destruct H as (Hd & Ht & Hs).
    rewrite F4, F1, F3, G. simpl. split; [exact Hd|].
    destruct (workTimeSnapshotRef s); (split; [|exact I]); [exact Hs|].
    destruct Hd as (Hw & _). lia.
  - apply R. simpl in He. destruct H as (_ & Ht & Hs).
    destruct (onSave_fields newSettings s) as (_ & A & B & _ & _ & C).
    unfold countdownNonneg. rewrite A, B. split; [exact He|]. split; [|exact Hs].
    destruct He as (Hw & Hb & _). destruct C as [->|[->| ->]]; lia.
Qed.

(** X7: when the durations of the settings in use are whole numbers, none
    of them negative, the countdown is never negative, whatever the
    events. *)
Theorem countdown_never_negative (st : Settings) (savedLogs : list DailyLog)
    (now : Z) (es : list Event) :
  durationsNonneg st -> Forall bringsNonnegDurations es ->
  0 <= timeRemaining (run Math_random es (mount Math_random st savedLogs now)).
Proof.
  intros Hs He.
  assert (H0 : countdownNonneg (mount Math_random st savedLogs now)).
  { unfold mount.
    destruct (microBreakEffect_core Math_random now (initialState st savedLogs))
      as (A & _ & _ & B & _ & _ & C & _).
    unfold countdownNonneg. rewrite A, B, C. simpl.
    split; [exact Hs|]. split; [|exact I]. destruct Hs as (Hw & _). lia. }
  revert H0. generalize (mount Math_random st savedLogs now).
  induction He as [|e es He1 He2 IH]; intros s H0.
  - apply H0.
  - change (run Math_random (e :: es) s)
      with (run Math_random es (step Math_random e s)).
    apply IH. apply step_nonneg; assumption.
Qed.

End TimerLaws.

(** ** Concrete runs of the further properties *)

Lemma work_countdown_ends_in_break_witness :
  mode lastSecondOfWork = WORK /\ timeRemaining lastSecondOfWork = 1
  /\ mode (step alwaysHalf (Tick 60000 newYear) lastSecondOfWork) = SHORT_BREAK
  /\ timeRemaining (step alwaysHalf (Tick 60000 newYear) lastSecondOfWork) = 5 * 60.
Proof.
  assert (Hm : mode lastSecondOfWork = WORK) by (vm_compute; reflexivity).
  assert (Ht : timeRemaining lastSecondOfWork = 1) by (vm_compute; reflexivity).
  split; [exact Hm|]. split; [exact Ht|].
  destruct (work_countdown_ends_in_break alwaysHalf lastSecondOfWork 60000 newYear Hm)
    as (E1 & E2 & _);
    [vm_compute; reflexivity | exact Ht | vm_compute; reflexivity
    | vm_compute; reflexivity |].
  split; [exact E1|]. rewrite E2. vm_compute. reflexivity.
Defined.


Lemma reachable_microBreak_consistent_witness :
  reachable alwaysHalf scenarioInMicroBreak
  /\ (mode scenarioInMicroBreak = MICRO_BREAK
      <-> workTimeSnapshotRef scenarioInMicroBreak <> None).
Proof.
  assert (Hr : reachable alwaysHalf scenarioInMicroBreak).
  { apply reach_step. unfold scenarioAt59. apply reachable_run.
    apply reach_step, reach_mount. }
  split; [exact Hr|].
  apply (reachable_microBreak_consistent alwaysHalf scenarioInMicroBreak Hr).
Defined.

Lemma microBreak_only_from_due_tick_witness :
  mode (step alwaysHalf (Tick 60000 newYear) scenarioAt59) = MICRO_BREAK
  /\ (mode scenarioAt59 = MICRO_BREAK
      \/ exists now today,
           Tick 60000 newYear = Tick now today /\ mode scenarioAt59 = WORK
           /\ isActive scenarioAt59 = true /\ 0 < timeRemaining scenarioAt59
           /\ microBreakDue scenarioAt59 now = true).
Proof.
  assert (H : mode (step alwaysHalf (Tick 60000 newYear) scenarioAt59) = MICRO_BREAK)
    by (vm_compute; reflexivity).
  split; [exact H|].
  apply (microBreak_only_from_due_tick alwaysHalf (Tick 60000 newYear) scenarioAt59 H).
Defined.

Lemma ledger_written_by_work_ticks_witness :
  [49%N] <> newYear
  /\ secondsOn [49%N] (logs (step alwaysHalf (Tick 60000 newYear) scenarioAt59))
       = secondsOn [49%N] (logs scenarioAt59)
  /\ secondsOn newYear (logs (step alwaysHalf (Tick 60000 newYear) scenarioAt59)) = 60.
Proof.
  assert (Hne : [49%N] <> newYear) by discriminate.
  split; [exact Hne|].
  pose proof (ledger_written_by_work_ticks alwaysHalf (Tick 60000 newYear)
                scenarioAt59 [49%N]) as L.
  assert (G : isActive scenarioAt59 && (0 <? timeRemaining scenarioAt59)
              && mode_eqb (mode scenarioAt59) WORK = true) by (vm_compute; reflexivity).
  cbv beta iota in L. rewrite G in L. destruct L as (_ & L2 & L3).
  split; [apply L3; exact Hne|]. rewrite L2. vm_compute. reflexivity.
Defined.

Lemma pause_resume_break_identity_witness :
  mode scenarioInMicroBreak <> WORK /\ isActive scenarioInMicroBreak = true
  /\ step alwaysHalf (ToggleTimer 65000)
       (step alwaysHalf (ToggleTimer 61000) scenarioInMicroBreak)
     = scenarioInMicroBreak.
Proof.
  assert (Hm : mode scenarioInMicroBreak <> WORK) by (vm_compute; discriminate).
  assert (Ha : isActive scenarioInMicroBreak = true) by (vm_compute; reflexivity).
  split; [exact Hm|]. split; [exact Ha|].
  apply (pause_resume_break_identity alwaysHalf scenarioInMicroBreak 61000 65000 Hm Ha).
  - vm_compute. reflexivity.
  - intros H. vm_compute in H. discriminate H.
Defined.

Lemma countdown_never_negative_witness :
  durationsNonneg oneMinuteWork
  /\ 0 <= timeRemaining
            (run alwaysHalf
               [ToggleTimer 0; Tick 1000 newYear; SaveSettings 1500 longerMicroBreaks;
                ResetTimer 2000]
               (mount alwaysHalf oneMinuteWork [] 0)).
Proof.
  assert (H : durationsNonneg oneMinuteWork) by (unfold durationsNonneg; simpl; lia).
  split; [exact H|].
  apply (countdown_never_negative alwaysHalf oneMinuteWork [] 0); [exact H|].
  repeat constructor; unfold durationsNonneg; simpl; lia.
Defined.

(** * The task board *)

Lemma findIndex_some {A : Type} (p : A -> bool) (l : list A) (i : nat) :
  findIndex p l = Some i ->
  exists before x after,
    l = before ++ x :: after /\ p x = true
    /\ Forall (fun y => p y = false) before
    /\ nth_error l i = Some x
    /\ firstn i l = before /\ skipn i l = x :: after /\ skipn (S i) l = after.
Proof.
  revert i. induction l as [|y l IH]; intros i H; [discriminate|].
  simpl in H. destruct (p y) eqn:Hy.
  - injection H as <-. exists [], y, l. repeat split; auto.
  - destruct (findIndex p l) as [j|] eqn:E; [|discriminate].
    injection H as <-.
    destruct (IH j eq_refl) as (b & x & a & -> & Hx & Hb & Hn & Hf & Hs & Hs').
    exists (y :: b), x, a. simpl. rewrite Hf.
    split; [reflexivity|]. split; [exact Hx|]. split; [constructor; assumption|].
    split; [exact Hn|]. split; [reflexivity|]. split; [exact Hs | exact Hs'].
Qed.

Lemma findIndex_none {A : Type} (p : A -> bool) (l : list A) :
  findIndex p l = None <-> Forall (fun y => p y = false) l.
Proof.
  induction l as [|y l IH]; simpl; [split; auto|].
  destruct (p y) eqn:Hy.
  - split; [discriminate|]. intros H. inversion H; congruence.
  - destruct (findIndex p l); split; intros H; try discriminate.
    + inversion H as [|? ? _ H2]; subst. apply IH in H2. discriminate.
    + constructor; [exact Hy | apply IH; reflexivity].
    + reflexivity.
Qed.

Lemma handleDropOnColumn_shape (taskId target : jsstring) (ts : list Task) :
  match handleDropOnColumn taskId target ts with
  | Some newTasks =>
      exists before d after,
        ts = before ++ d :: after /\ task_id d = taskId
        /\ Forall (fun t => task_id t <> taskId) before
        /\ newTasks = before ++ after ++ [withColumn target d]
        /\ Permutation (map task_id newTasks) (map task_id ts)
  | None => taskId = [] \/ Forall (fun t => task_id t <> taskId) ts
  end.
Proof.
  unfold handleDropOnColumn. destruct taskId as [|c0 id0]; [left; reflexivity|].
  set (taskId := c0 :: id0).
  destruct (findIndex (fun t => str_eqb (task_id t) taskId) ts) as [i|] eqn:E.
  - destruct (findIndex_some _ _ _ E) as (b & x & a & El & Hx & Hb & Hn & Hf & _ & Hs).
    rewrite Hn, Hf, Hs. exists b, x, a.
    split; [exact El|]. split; [apply str_eqb_eq; exact Hx|]. split.
    + revert Hb. apply Forall_impl. intros t Ht C.
      apply str_eqb_eq in C. congruence.
    + split; [rewrite <- app_assoc; reflexivity|].
      rewrite El, <- app_assoc, !map_app. cbn [map withColumn task_id].
      apply Permutation_app_head.
      change (map task_id a ++ [task_id x]) with (map task_id a ++ [task_id x] ++ []).
      rewrite app_nil_r. symmetry. apply Permutation_cons_append.
  - right. apply findIndex_none in E. revert E. apply Forall_impl.
    intros t Ht C. apply str_eqb_eq in C. congruence.
Qed.

Lemma handleDropOnTask_shape (dragged target : jsstring) (ts : list Task) :
  match handleDropOnTask dragged target ts with
  | Some newTasks =>
      dragged <> target
      /\ exists before d after,
           ts = before ++ d :: after /\ task_id d = dragged
           /\ Forall (fun t => task_id t <> dragged) before
           /\ ((Forall (fun t => task_id t <> target) (before ++ after)
                /\ newTasks = before ++ after ++ [d])
               \/ exists r1 tg r2,
                    before ++ after = r1 ++ tg :: r2 /\ task_id tg = target
                    /\ Forall (fun t => task_id t <> target) r1
                    /\ newTasks = r1 ++ withColumn (columnId tg) d :: tg :: r2)
           /\ Permutation (map task_id newTasks) (map task_id ts)
  | None => dragged = [] \/ dragged = target
            \/ Forall (fun t => task_id t <> dragged) ts
  end.
Proof.
  unfold handleDropOnTask. destruct dragged as [|c0 id0]; [left; reflexivity|].
  set (dragged := c0 :: id0).
  destruct (str_eqb dragged target) eqn:Eq.
  { right. left. apply str_eqb_eq. exact Eq. }
  assert (Hne : dragged <> target)
    by (intros C; apply str_eqb_eq in C; congruence).
  destruct (findIndex (fun t => str_eqb (task_id t) dragged) ts) as [i|] eqn:E.
  - destruct (findIndex_some _ _ _ E) as (b & x & a & El & Hx & Hb & Hn & Hf & _ & Hs).
    rewrite Hn, Hf, Hs.
    assert (Hb' : Forall (fun t => task_id t <> dragged) b).
    { revert Hb. apply Forall_impl. intros t Ht C. apply str_eqb_eq in C. congruence. }
    assert (Pts : Permutation (map task_id (x :: b ++ a)) (map task_id ts)).
    { rewrite El. cbn [map]. rewrite !map_app. cbn [map]. apply Permutation_middle. }
    destruct (findIndex (fun t => str_eqb (task_id t) target) (b ++ a)) as [j|] eqn:E2.
    + destruct (findIndex_some _ _ _ E2)
        as (r1 & tg & r2 & El2 & Hx2 & Hb2 & Hn2 & Hf2 & Hs2 & _).
      rewrite Hn2, Hf2, Hs2. split; [exact Hne|]. exists b, x, a.
      split; [exact El|]. split; [apply str_eqb_eq; exact Hx|]. split; [exact Hb'|].
      split.
      * right. exists r1, tg, r2. split; [exact El2|].
        split; [apply str_eqb_eq; exact Hx2|]. split; [|reflexivity].
        revert Hb2. apply Forall_impl. intros t Ht C. apply str_eqb_eq in C. congruence.
      * rewrite <- Pts, El2. cbn [map]. rewrite !map_app.
        cbn [map withColumn task_id]. symmetry. apply Permutation_middle.
    + split; [exact Hne|]. exists b, x, a.
      split; [exact El|]. split; [apply str_eqb_eq; exact Hx|]. split; [exact Hb'|].
      split.
      * left. split; [|rewrite <- app_assoc; reflexivity].
        apply findIndex_none in E2. revert E2. apply Forall_impl.
        intros t Ht C. apply str_eqb_eq in C. congruence.
      * rewrite <- Pts. cbn [map]. rewrite !map_app. cbn [map].
        symmetry. apply Permutation_cons_append.
  - right. right. apply findIndex_none in E. revert E. apply Forall_impl.
    intros t Ht C. apply str_eqb_eq in C. congruence.
Qed.



(** *** The order a column shows *)

Lemma insertSorted_open (x : Task) (l : list Task) :
  completed x = false -> insertSorted byCompletion x l = x :: l.
Proof.
  intros Hx. destruct l as [|y l]; [reflexivity|]. simpl.
  unfold byCompletion. rewrite Hx. destruct (completed y); reflexivity.
Qed.

Lemma insertSorted_done (x : Task) (opens dones : list Task) :
  completed x = true ->
  Forall (fun t => completed t = false) opens ->
  Forall (fun t => completed t = true) dones ->
  insertSorted byCompletion x (opens ++ dones) = opens ++ x :: dones.
Proof.
  intros Hx Ho Hd. induction Ho as [|y opens Hy Ho IH]; simpl.
  - destruct dones as [|z dones]; [reflexivity|]. simpl.
    inversion Hd as [|? ? Hz _]; subst.
    unfold byCompletion. rewrite Hx, Hz. reflexivity.
  - unfold byCompletion at 1. rewrite Hx, Hy. simpl. rewrite IH. reflexivity.
Qed.

Lemma sortStable_byCompletion (l : list Task) :
  sortStable byCompletion l =
  filter (fun t => negb (completed t)) l ++ filter completed l.
Proof.
  induction l as [|x l IH]; [reflexivity|].
  unfold sortStable in *. cbn [fold_right]. rewrite IH. cbn [filter].
  destruct (completed x) eqn:Hx; cbn [negb].
  - apply insertSorted_done; [exact Hx| |]; apply Forall_forall;
      intros t Ht; apply filter_In in Ht as [_ Ht];
      [apply negb_true_iff in Ht|]; exact Ht.
  - apply insertSorted_open. exact Hx.
Qed.

(** X10: A column shows its open tasks first and its finished tasks after them,
    each group in the order of the task list. *)
Theorem columnTasks_order (ts : list Task) (column : Column) :
  columnTasks ts column =
  filter (fun t => str_eqb (columnId t) (col_id column) && negb (completed t)) ts
  ++ filter (fun t => str_eqb (columnId t) (col_id column) && completed t) ts.
Proof.
  unfold columnTasks. rewrite sortStable_byCompletion.
  f_equal; induction ts as [|t ts IH]; try reflexivity; simpl;
    destruct (str_eqb (columnId t) (col_id column)); simpl;
    try destruct (completed t); simpl; rewrite ?IH; reflexivity.
Qed.

(** *** Deleting a column *)

(** X11: with two or more columns of distinct, non-empty ids, deleting a column
    moves its tasks to a column that stays, so that every task is still in a
    listed column; tasks of other columns are untouched.  With one column or
    none the tasks are left as they are, pointing at the deleted column. *)
Theorem deleteColumn_keeps_tasks_listed (id : jsstring) (columns : list Column)
    (ts : list Task) :
  ((length columns <= 1)%nat -> snd (deleteColumn id columns ts) = ts)
  /\ ((1 < length columns)%nat ->
      NoDup (map col_id columns) ->
      Forall (fun c => col_id c <> []) columns ->
      allListed ts columns ->
      let columns' := fst (deleteColumn id columns ts) in
      let ts' := snd (deleteColumn id columns ts) in
      allListed ts' columns'
      /\ Forall (fun c => col_id c <> id) columns'
      /\ Forall (fun t => columnId t <> id) ts'
      /\ length ts' = length ts
      /\ (forall t, In t ts -> columnId t <> id -> In t ts')).
Proof.
  unfold deleteColumn. cbn [fst snd]. split.
  - intros H. destruct (Nat.ltb_spec 1 (length columns)); [lia | reflexivity].
  - intros Hlen Hnd Hne Hl.
    destruct (Nat.ltb_spec 1 (length columns)); [|lia].
    assert (Hf : exists c, In c columns /\ col_id c <> id
                   /\ fallbackColumn id columns = col_id c).
    { unfold fallbackColumn.
      destruct (find (fun c => negb (str_eqb (col_id c) id)) columns) as [c|] eqn:F.
      - apply find_some in F as [Hin Hc]. exists c.
        assert (Hcid : col_id c <> id).
        { intros C. apply str_eqb_eq in C. rewrite C in Hc. discriminate. }
        split; [exact Hin|]. split; [exact Hcid|].
        rewrite Forall_forall in Hne. specialize (Hne c Hin).
        destruct (col_id c); [congruence | reflexivity].
      - exfalso. destruct columns as [|c1 [|c2 rest]]; simpl in Hlen; try lia.
        assert (E1 : col_id c1 = id).
        { pose proof (find_none _ _ F c1 (or_introl eq_refl)) as N.
          apply negb_false_iff, str_eqb_eq in N. exact N. }
        assert (E2 : col_id c2 = id).
        { pose proof (find_none _ _ F c2 (or_intror (or_introl eq_refl))) as N.
          apply negb_false_iff, str_eqb_eq in N. exact N. }
        simpl in Hnd. inversion Hnd as [|? ? Hn _]; subst.
        apply Hn. left. congruence. }
    destruct Hf as (fc & Hfin & Hfid & Hfe). rewrite Hfe.
    split; [|split; [|split; [|split]]].
    + unfold allListed in *. apply Forall_forall. intros t' Ht'.
      apply in_map_iff in Ht' as (t & <- & Hin).
      rewrite Forall_forall in Hl. destruct (Hl t Hin) as (c & Hc1 & Hc2).
      destruct (str_eqb (columnId t) id) eqn:E.
      * exists fc. split; [|reflexivity]. apply filter_In. split; [exact Hfin|].
        apply negb_true_iff. destruct (str_eqb (col_id fc) id) eqn:E'; [|reflexivity].
        apply str_eqb_eq in E'. congruence.
      * exists c. split; [|exact Hc2]. apply filter_In. split; [exact Hc1|].
        rewrite <- Hc2, E. reflexivity.
    + apply Forall_forall. intros c Hc. apply filter_In in Hc as [_ Hc].
      intros C. apply str_eqb_eq in C. rewrite C in Hc. discriminate.
    + apply Forall_forall. intros t' Ht'.
      apply in_map_iff in Ht' as (t & <- & Hin).
      destruct (str_eqb (columnId t) id) eqn:E; simpl.
      * congruence.
      * intros C. apply str_eqb_eq in C. congruence.
    + apply length_map.
    + intros t Hin Hc. apply in_map_iff. exists t. split; [|exact Hin].
      destruct (str_eqb (columnId t) id) eqn:E; [|reflexivity].
      apply str_eqb_eq in E. congruence.
Qed.

Section BoardLaws.

Variable isSameDay : Z -> Z -> bool.

Lemma completionRecorded_withColumn (v : jsstring) (t : Task) :
  completionRecorded t -> completionRecorded (withColumn v t).
Proof. exact (fun H => H). Qed.

Lemma drop_result_members (newTasks ts : list Task) :
  (forall t', In t' newTasks -> exists t v, In t ts /\ (t' = t \/ t' = withColumn v t)) ->
  Forall completionRecorded ts -> Forall completionRecorded newTasks.
Proof.
  intros H Hs. apply Forall_forall. intros t' Ht'.
  destruct (H t' Ht') as (t & v & Hin & [->| ->]);
    rewrite Forall_forall in Hs; [|apply completionRecorded_withColumn]; auto.
Qed.

(** X12: every operation of the board keeps the completion times in step with
    the completed flags: a completed task has one, an open task has none. *)
Theorem board_completion_recorded (e : BoardEvent) (columns : list Column)
    (ts : list Task) :
  Forall completionRecorded ts ->
  Forall completionRecorded (snd (boardStep isSameDay e (columns, ts))).
Proof.
  intros H. destruct e; cbn [boardStep snd].
  - unfold addTask. apply Forall_app. split; [exact H|].
    constructor; [reflexivity | constructor].
  - unfold updateTask. apply Forall_forall. intros t' Ht'.
    apply in_map_iff in Ht' as (t & <- & Hin).
    rewrite Forall_forall in H. specialize (H t Hin).
    destruct (str_eqb (task_id t) id); exact H.
  - unfold toggleTask. apply Forall_forall. intros t' Ht'.
    apply in_map_iff in Ht' as (t & <- & Hin).
    rewrite Forall_forall in H. specialize (H t Hin).
    destruct (str_eqb (task_id t) id); [|exact H].
    unfold completionRecorded. cbn [withCompletion completed completedAt].
    destruct (completed t); simpl; [reflexivity | discriminate].
  - unfold deleteTask. apply Forall_filter_keeps. exact H.
  - pose proof (handleDropOnColumn_shape taskId targetColumnId ts) as S.
    destruct (handleDropOnColumn taskId targetColumnId ts) as [newTasks|];
      cbn [snd]; [|exact H].
    destruct S as (b & d & a & -> & _ & _ & -> & _).
    apply (drop_result_members _ (b ++ d :: a)); [|exact H].
    intros t' Ht'. rewrite !in_app_iff in Ht'. simpl in Ht'.
    destruct Ht' as [Hb|[Ha|[Hd|[]]]].
    + exists t', []. rewrite in_app_iff. auto.
    + exists t', []. rewrite in_app_iff. simpl. auto.
    + exists d, targetColumnId. rewrite in_app_iff. simpl. auto.
  - pose proof (handleDropOnTask_shape draggedTaskId targetTaskId ts) as S.
    destruct (handleDropOnTask draggedTaskId targetTaskId ts) as [newTasks|];
      cbn [snd]; [|exact H].
    destruct S as (_ & b & d & a & -> & _ & _ & S & _).
    apply (drop_result_members _ (b ++ d :: a)); [|exact H].
    intros t' Ht'.
    destruct S as [(_ & ->)|(r1 & tg & r2 & E & _ & _ & ->)].
    + rewrite !in_app_iff in Ht'. simpl in Ht'.
      destruct Ht' as [Hb|[Ha|[Hd|[]]]]; exists t', [];
        rewrite in_app_iff; simpl; auto.
    + assert (Hrest : forall y, In y (r1 ++ tg :: r2) -> In y (b ++ d :: a)).
      { intros y Hy. rewrite <- E in Hy. rewrite in_app_iff in *. simpl.
        destruct Hy; auto. }
      rewrite in_app_iff in Ht'. simpl in Ht'.
      destruct Ht' as [H1|[Hd|[Hg|H2]]].
      * exists t', []. split; [|auto]. apply Hrest. rewrite in_app_iff. auto.
      * exists d, (columnId tg). split; [|auto]. rewrite in_app_iff. simpl. auto.
      * exists tg, []. split; [|auto]. apply Hrest. rewrite in_app_iff. simpl. auto.
      * exists t', []. split; [|auto]. apply Hrest. rewrite in_app_iff. simpl. auto.
  - unfold deleteColumn. cbn [snd].
    destruct (1 <? length columns)%nat; [|exact H].
    apply Forall_forall. intros t' Ht'.
    apply in_map_iff in Ht' as (t & <- & Hin).
    rewrite Forall_forall in H. specialize (H t Hin).
    destruct (str_eqb (columnId t) id); exact H.
  - unfold cleanupOldTasks. apply Forall_filter_keeps. exact H.
Qed.

(** X13: A task leaves the board in two ways only: it is deleted by its id, or
    it is a completed task that the cleanup removes.  No other operation
    loses a task. *)
Theorem board_never_loses_task (e : BoardEvent) (columns : list Column)
    (ts : list Task) (t : Task) :
  In t ts ->
  In (task_id t) (map task_id (snd (boardStep isSameDay e (columns, ts))))
  \/ e = DeleteTask (task_id t)
  \/ exists today, e = CleanupOldTasks today /\ completed t = true.
Proof.
  intros Hin. destruct e; cbn [boardStep snd].
  - left. unfold addTask. rewrite map_app, in_app_iff. left.
    apply in_map. exact Hin.
  - left. unfold updateTask. rewrite map_map. apply in_map_iff.
    exists t. split; [|exact Hin]. destruct (str_eqb (task_id t) id); reflexivity.
  - left. unfold toggleTask. rewrite map_map. apply in_map_iff.
    exists t. split; [|exact Hin]. destruct (str_eqb (task_id t) id); reflexivity.
  - destruct (str_eqb (task_id t) id) eqn:E.
    + right. left. apply str_eqb_eq in E. congruence.
    + left. apply in_map. unfold deleteTask. apply filter_In.
      split; [exact Hin|]. rewrite E. reflexivity.
  - left. pose proof (handleDropOnColumn_shape taskId targetColumnId ts) as S.
    destruct (handleDropOnColumn taskId targetColumnId ts) as [newTasks|];
      cbn [snd]; [|apply in_map; exact Hin].
    destruct S as (_ & _ & _ & _ & _ & _ & _ & P).
    apply (Permutation_in _ (Permutation_sym P)). apply in_map. exact Hin.
  - left. pose proof (handleDropOnTask_shape draggedTaskId targetTaskId ts) as S.
    destruct (handleDropOnTask draggedTaskId targetTaskId ts) as [newTasks|];
      cbn [snd]; [|apply in_map; exact Hin].
    destruct S as (_ & _ & _ & _ & _ & _ & _ & _ & P).
    apply (Permutation_in _ (Permutation_sym P)). apply in_map. exact Hin.
  - left. unfold deleteColumn. cbn [snd].
    destruct (1 <? length columns)%nat; [|apply in_map; exact Hin].
    rewrite map_map. apply in_map_iff. exists t. split; [|exact Hin].
    destruct (str_eqb (columnId t) id); reflexivity.
  - destruct (completed t) eqn:Ec.
    + right. right. exists today. auto.
    + left. apply in_map. unfold cleanupOldTasks. apply filter_In.
      split; [exact Hin|]. rewrite Ec. reflexivity.
Qed.

End BoardLaws.

(** * The ledger and the import *)

Lemma addSeconds_dates_exact (today : jsstring) (k : Z) (l : list DailyLog) :
  map date (addSeconds today k l) =
  map date l ++ (if existsb (fun r => str_eqb (date r) today) l then [] else [today]).
Proof.
  induction l as [|r l IH]; [reflexivity|]. simpl.
  destruct (str_eqb (date r) today); simpl.
  - rewrite app_nil_r. reflexivity.
  - rewrite IH. reflexivity.
Qed.

Lemma addSeconds_NoDup (today : jsstring) (k : Z) (l : list DailyLog) :
  NoDup (map date l) -> NoDup (map date (addSeconds today k l)).
Proof.
  intros H. rewrite addSeconds_dates_exact.
  destruct (existsb (fun r => str_eqb (date r) today) l) eqn:E.
  - rewrite app_nil_r. exact H.
  - apply NoDup_app; [exact H | constructor; [intros []|constructor] |].
    intros a Ha [Et|[]]. subst a. apply in_map_iff in Ha as (r & Hr & Hin).
    assert (C : existsb (fun r => str_eqb (date r) today) l = true).
    { apply existsb_exists. exists r. split; [exact Hin|].
      apply str_eqb_eq. exact Hr. }
    congruence.
Qed.

Section LedgerLaws.

Variable Math_random : nat -> UnitFrac.

(** X14: the timer keeps one ledger record per day: when the dates of the
    ledger are distinct they stay distinct after every event, and a record
    is added only by the first Work tick of a day that has none. *)
Theorem ledger_one_record_per_day (e : Event) (s : State) :
  NoDup (map date (logs s)) ->
  NoDup (map date (logs (step Math_random e s)))
  /\ (length (logs s) <= length (logs (step Math_random e s)) <= S (length (logs s)))%nat
  /\ (length (logs (step Math_random e s)) = S (length (logs s)) ->
      exists now today,
        e = Tick now today /\ mode s = WORK
        /\ ~ In today (map date (logs s))).
Proof.
  intros H.
  assert (K : logs (step Math_random e s) = logs s
              \/ exists now today,
                   e = Tick now today /\ mode s = WORK
                   /\ logs (step Math_random e s) = addSeconds today 1 (logs s)).
  { destruct e as [now today|now|now|now|now newSettings].
    - rewrite tick_logs.
      destruct (isActive s && (0 <? timeRemaining s)); [|left; reflexivity]. simpl.
      destruct (mode_eqb (mode s) WORK) eqn:Em; [|left; reflexivity].
      right. exists now, today. apply mode_eqb_eq in Em. auto.
    - left. unfold step. rewrite runEffects_logs.
      unfold toggleTimer, scheduleNextMicroBreak.
      destruct (negb (isActive s)),
        (mode_eqb (mode s) WORK && truthy (microBreakRemainingRef s)),
        (microBreakRemainingRef s),
        (mode_eqb (mode s) WORK && negb (truthy (nextMicroBreakTimeRef s))),
        (negb (enableMicroBreaks (settings s))),
        (mode_eqb (mode s) WORK && truthy (nextMicroBreakTimeRef s)),
        (nextMicroBreakTimeRef s); reflexivity.
    - left. unfold step. rewrite runEffects_logs. reflexivity.
    - left. unfold step.
      destruct (showMicroBreakOverlay s && mode_eqb (mode s) MICRO_BREAK); [|reflexivity].
      rewrite runEffects_logs. unfold skipMicroBreak. rewrite switchMode_logs.
      reflexivity.
    - left. unfold step. rewrite runEffects_logs. unfold onSave.
      destruct (mode_eqb (mode s) WORK
                && negb (workDuration (settings s) =? workDuration newSettings));
        [|destruct (mode_eqb (mode s) SHORT_BREAK
                    && negb (breakDuration (settings s) =? breakDuration newSettings))];
        reflexivity. }
  destruct K as [->|(now & today & -> & Hm & E)].
  - split; [exact H|]. split; [lia|]. intros C. lia.
  - rewrite E.
    pose proof (addSeconds_dates_exact today 1 (logs s)) as D.
    assert (L : length (addSeconds today 1 (logs s)) =
                (length (logs s)
                 + (if existsb (fun r => str_eqb (date r) today) (logs s)
                    then 0 else 1))%nat).
    { rewrite <- (length_map date), D, length_app, length_map.
      destruct (existsb _ _); reflexivity. }
    split; [apply addSeconds_NoDup; exact H|].
    destruct (existsb (fun r => str_eqb (date r) today) (logs s)) eqn:X.
    + split; [lia|]. intros C. lia.
    + split; [lia|]. intros _. exists now, today.
      split; [reflexivity|]. split; [exact Hm|].
      intros Hin. apply in_map_iff in Hin as (r & Hr & Hin).
      assert (C : existsb (fun r => str_eqb (date r) today) (logs s) = true).
      { apply existsb_exists. exists r. split; [exact Hin|].
        apply str_eqb_eq. exact Hr. }
      congruence.
Qed.

End LedgerLaws.

Lemma secondsOn_app_known (d : jsstring) (l extra : list DailyLog) :
  In d (map date l) -> secondsOn d (l ++ extra) = secondsOn d l.
Proof.
  induction l as [|r l IH]; simpl; [intros []|].
  destruct (str_eqb (date r) d) eqn:E; [reflexivity|].
  intros [C|Hin]; [|apply IH; exact Hin].
  apply str_eqb_eq in C. congruence.
Qed.

Lemma existsb_str_eqb_In (d : jsstring) (l : list jsstring) :
  existsb (str_eqb d) l = true <-> In d l.
Proof.
  rewrite existsb_exists. split.
  - intros (x & Hx & E). apply str_eqb_eq in E. congruence.
  - intros H. exists d. split; [exact H | apply str_eqb_refl].
Qed.

Lemma filter_nothing {A : Type} (f : A -> bool) (l : list A) :
  (forall x, In x l -> f x = false) -> filter f l = [].
Proof.
  induction l as [|x l IH]; intros H; [reflexivity|]. simpl.
  rewrite (H x (or_introl eq_refl)). apply IH. intros y Hy. apply H. right. exact Hy.
Qed.

(** X15: importing an archive only adds: the ledger and the snapshots that
    were there stay in front, unchanged, so the seconds of every day already
    in the ledger are what they were; and importing the same archive a
    second time adds nothing. *)
Theorem import_adds_only_new_days (snapshots : list DailySnapshot)
    (prevLogs : list DailyLog) (prevSnapshots : list DailySnapshot) :
  (forall d, In d (map date prevLogs) ->
     secondsOn d (importLogs snapshots prevLogs) = secondsOn d prevLogs)
  /\ firstn (length prevLogs) (importLogs snapshots prevLogs) = prevLogs
  /\ firstn (length prevSnapshots) (importSnapshots snapshots prevSnapshots)
       = prevSnapshots
  /\ importLogs snapshots (importLogs snapshots prevLogs)
       = importLogs snapshots prevLogs
  /\ importSnapshots snapshots (importSnapshots snapshots prevSnapshots)
       = importSnapshots snapshots prevSnapshots.
Proof.
  split; [|split; [|split; [|split]]].
  - intros d Hd. unfold importLogs. apply secondsOn_app_known. exact Hd.
  - unfold importLogs. rewrite firstn_app, Nat.sub_diag, firstn_all. simpl.
    apply app_nil_r.
  - unfold importSnapshots. rewrite firstn_app, Nat.sub_diag, firstn_all. simpl.
    apply app_nil_r.
  - unfold importLogs at 1.
    rewrite filter_nothing; [simpl; apply app_nil_r|].
    intros x Hx.
    destruct (0 <? focusMinutes x) eqn:Ef; [|apply andb_false_r].
    rewrite andb_true_r. apply negb_false_iff. apply existsb_str_eqb_In.
    unfold importLogs. rewrite map_app, in_app_iff.
    destruct (existsb (str_eqb (snap_date x)) (map date prevLogs)) eqn:Ex.
    + left. apply existsb_str_eqb_In. exact Ex.
    + right. rewrite map_map. cbn [date]. apply in_map_iff. exists x.
      split; [reflexivity|]. apply filter_In. split; [exact Hx|].
      rewrite Ex, Ef. reflexivity.
  - unfold importSnapshots at 1.
    rewrite filter_nothing; [apply app_nil_r|].
    intros x Hx. apply negb_false_iff. apply existsb_str_eqb_In.
    unfold importSnapshots. rewrite map_app, in_app_iff.
    destruct (existsb (str_eqb (snap_date x)) (map snap_date prevSnapshots)) eqn:Ex.
    + left. apply existsb_str_eqb_In. exact Ex.
    + right. apply in_map. apply filter_In. split; [exact Hx|].
      rewrite Ex. reflexivity.
Qed.

Lemma NoDup_map_filter {A B : Type} (g : A -> B) (f : A -> bool) (l : list A) :
  NoDup (map g l) -> NoDup (map g (filter f l)).
Proof.
  induction l as [|x l IH]; intros H; [constructor|]. simpl in *.
  inversion H as [|? ? Hn Hd]; subst.
  destruct (f x); [|apply IH; exact Hd].
  simpl. constructor; [|apply IH; exact Hd].
  intros C. apply Hn. apply in_map_iff in C as (y & Hy & Hin).
  apply in_map_iff. exists y. split; [exact Hy|].
  apply filter_In in Hin. apply Hin.
Qed.

(** X16: when the days of the archive are distinct, an import keeps one record
    per day in the ledger and one snapshot per day (an archive with the same
    day twice adds both). *)
Theorem import_one_record_per_day (snapshots : list DailySnapshot)
    (prevLogs : list DailyLog) (prevSnapshots : list DailySnapshot) :
  NoDup (map snap_date snapshots) ->
  (NoDup (map date prevLogs) ->
   NoDup (map date (importLogs snapshots prevLogs)))
  /\ (NoDup (map snap_date prevSnapshots) ->
      NoDup (map snap_date (importSnapshots snapshots prevSnapshots))).
Proof.
  intros Hs. split; intros Hp.
  - unfold importLogs. rewrite map_app, map_map. cbn [date].
    apply NoDup_app; [exact Hp | apply NoDup_map_filter; exact Hs |].
    intros a Ha Hb. apply in_map_iff in Hb as (x & <- & Hx).
    apply filter_In in Hx as [_ Hx]. apply andb_true_iff in Hx as [Hx _].
    apply negb_true_iff in Hx.
    apply existsb_str_eqb_In in Ha. congruence.
  - unfold importSnapshots. rewrite map_app.
    apply NoDup_app; [exact Hp | apply NoDup_map_filter; exact Hs |].
    intros a Ha Hb. apply in_map_iff in Hb as (x & <- & Hx).
    apply filter_In in Hx as [_ Hx]. apply negb_true_iff in Hx.
    apply existsb_str_eqb_In in Ha. congruence.
Qed.

(** * The archive read line by line *)

Lemma matchPrefix_split (pat : list CharClass) (s m r : jsstring) :
  matchPrefix pat s = Some (m, r) -> s = m ++ r /\ length m = length pat.
Proof.
  revert s m r. induction pat as [|k pat IH]; intros s m r H.
  - simpl in H. injection H as <- <-. auto.
  - apply matchPrefix_cons in H as (c & s' & m' & -> & _ & H & ->).
    destruct (IH _ _ _ H) as [-> E]. simpl. auto.
Qed.

(** A pattern none of whose classes takes a line terminator sees a line
    followed by the rest of the text as it sees the line alone. *)
Lemma matchPrefix_line (pat : list CharClass) (l tail : jsstring) :
  Forall (fun k => classMatches k LF = false) pat ->
  tail = [] \/ (exists t, tail = LF :: t) ->
  matchPrefix pat (l ++ tail) =
  match matchPrefix pat l with
  | Some (m, r) => Some (m, r ++ tail)
  | None => None
  end.
Proof.
  intros Hp Ht. revert l. induction Hp as [|k pat Hk Hp IH]; intros l; [reflexivity|].
  destruct l as [|c l].
  - simpl. destruct Ht as [->|(t & ->)]; [reflexivity|]. rewrite Hk. reflexivity.
  - cbn [app matchPrefix]. destruct (classMatches k c); [|reflexivity].
    rewrite IH. destruct (matchPrefix pat l) as [[m r]|]; reflexivity.
Qed.

Lemma dayPattern_no_LF : Forall (fun k => classMatches k LF = false) dayPattern.
Proof. repeat constructor. Qed.

Lemma singleLine_suffix (a b : jsstring) :
  singleLine (a ++ b) = true -> singleLine b = true.
Proof.
  rewrite singleLine_app. intros H. apply andb_true_iff in H. apply H.
Qed.

Lemma matchDayHeader_line (l tail : jsstring) :
  singleLine l = true ->
  tail = [] \/ (exists t, tail = LF :: t) ->
  matchDayHeader (l ++ tail) = headerDate l.
Proof.
  intros Hl Ht. unfold matchDayHeader, headerDate.
  rewrite (matchPrefix_line _ _ _ dayPattern_no_LF Ht).
  destruct (matchPrefix dayPattern l) as [[m r]|] eqn:E; [|reflexivity].
  destruct r as [|c r].
  - simpl. destruct Ht as [->|(t & ->)]; reflexivity.
  - apply matchPrefix_split in E as [E _]. rewrite E in Hl.
    apply singleLine_suffix in Hl. simpl in Hl.
    apply andb_true_iff in Hl as [Hc _]. apply negb_true_iff in Hc.
    simpl. rewrite Hc. reflexivity.
Qed.

Lemma splitDays_skip (a tail : jsstring) :
  splitDays (length a) false (a ++ tail) = splitDays O false tail.
Proof.
  induction a as [|c a IH]; [reflexivity|]. simpl. exact IH.
Qed.

Lemma splitDays_header_line (l tail d : jsstring) :
  singleLine l = true ->
  tail = [] \/ (exists t, tail = LF :: t) ->
  headerDate l = Some d ->
  splitDays O true (l ++ tail) = [] :: d :: splitDays O false tail.
Proof.
  intros Hl Ht Hd.
  pose proof (matchDayHeader_line l tail Hl Ht) as Hm. rewrite Hd in Hm.
  assert (Hlen : length l = 16%nat).
  { unfold headerDate in Hd.
    destruct (matchPrefix dayPattern l) as [[m r]|] eqn:E; [|discriminate].
    destruct r; [|discriminate].
    apply matchPrefix_split in E as [-> E]. rewrite app_nil_r. exact E. }
  destruct l as [|c l]; [discriminate|].
  change ((c :: l) ++ tail) with (c :: (l ++ tail)) in *.
  cbn [splitDays]. rewrite Hm.
  simpl in Hlen. injection Hlen as Hlen. rewrite <- Hlen, splitDays_skip.
  reflexivity.
Qed.

Lemma splitDays_plain_line (l tail : jsstring) :
  singleLine l = true ->
  tail = [] \/ (exists t, tail = LF :: t) ->
  headerDate l = None ->
  splitDays O true (l ++ tail) = prependHead l (splitDays O false tail).
Proof.
  intros Hl Ht Hn.
  pose proof (matchDayHeader_line l tail Hl Ht) as Hm. rewrite Hn in Hm.
  destruct l as [|c l].
  - simpl in *. destruct Ht as [->|(t & ->)]; [reflexivity|].
    cbn [splitDays]. rewrite Hm.
    destruct (splitDays_nonempty O (isLineTerminator LF) t) as (h & t' & E).
    rewrite E. reflexivity.
  - simpl in Hl. apply andb_true_iff in Hl as [Hc Hl].
    apply negb_true_iff in Hc.
    change ((c :: l) ++ tail) with (c :: (l ++ tail)) in *.
    cbn [splitDays]. rewrite Hm, Hc, splitDays_inline by exact Hl.
    apply consHead_prependHead.
Qed.

Lemma splitDays_of_lines (ls : list jsstring) :
  ls <> [] -> Forall (fun l => singleLine l = true) ls ->
  splitDays O true (join ls) = preText ls :: sectionChunks ls.
Proof.
  intros Hne H. induction H as [|l ls Hl Hls IH]; [congruence|].
  destruct ls as [|l2 rest].
  - cbn [join preText sectionChunks]. rewrite <- (app_nil_r l) at 1.
    destruct (headerDate l) as [d|] eqn:Hd.
    + rewrite (splitDays_header_line l [] d) by auto. reflexivity.
    + rewrite splitDays_plain_line by auto. simpl. rewrite app_nil_r. reflexivity.
  - change (join (l :: l2 :: rest)) with (l ++ LF :: join (l2 :: rest)).
    assert (T : splitDays O false (LF :: join (l2 :: rest)) =
                (LF :: preText (l2 :: rest)) :: sectionChunks (l2 :: rest)).
    { cbn [splitDays]. change (isLineTerminator LF) with true.
      rewrite IH by discriminate. reflexivity. }
    cbn [preText sectionChunks].
    destruct (headerDate l) as [d|] eqn:Hd.
    + rewrite (splitDays_header_line l _ d) by eauto. rewrite T. reflexivity.
    + rewrite splitDays_plain_line by eauto. rewrite T.
      cbn [prependHead]. reflexivity.
Qed.

Lemma fold_parseLine_empties (k : nat) (st : jsstring * list HistoricalTask * Z) :
  fold_left parseLine (repeat [] k) st = st.
Proof.
  induction k as [|k IH]; [reflexivity|]. simpl. rewrite parseLine_empty. exact IH.
Qed.

Lemma splitLines_single (l : jsstring) :
  singleLine l = true -> splitLines l = [l].
Proof.
  intros H. rewrite <- (app_nil_r l) at 1.
  rewrite splitLines_app by (apply singleLine_no_LF; exact H).
  simpl. rewrite app_nil_r. reflexivity.
Qed.

Lemma splitLines_preText (ls : list jsstring) :
  Forall (fun l => singleLine l = true) ls ->
  exists k, splitLines (preText ls) = fst (daysOfLines ls) ++ repeat [] k.
Proof.
  induction 1 as [|l ls Hl Hls (k & IH)].
  - exists 1%nat. reflexivity.
  - cbn [preText daysOfLines].
    destruct (daysOfLines ls) as [pre days] eqn:E. cbn [fst] in IH.
    destruct (headerDate l) as [d|].
    + exists 1%nat. reflexivity.
    + cbn [fst]. destruct ls as [|l2 rest].
      * exists O. simpl in E. injection E as <- <-.
        rewrite splitLines_single by exact Hl. reflexivity.
      * exists k. rewrite splitLines_app by (apply singleLine_no_LF; exact Hl).
        change (splitLines (LF :: preText (l2 :: rest)))
          with ([] :: splitLines (preText (l2 :: rest))).
        rewrite IH. simpl. rewrite app_nil_r. reflexivity.
Qed.

Lemma parseSections_of_lines (ls : list jsstring) :
  Forall (fun l => singleLine l = true) ls ->
  parseSections (sectionChunks ls) = snapshotsOfLines ls.
Proof.
  induction 1 as [|l ls Hl Hls IH]; [reflexivity|].
  unfold snapshotsOfLines in *. cbn [sectionChunks daysOfLines].
  destruct (daysOfLines ls) as [pre days] eqn:E. cbn [snd] in IH.
  destruct (headerDate l) as [d|]; [|exact IH].
  cbn [parseSections snd map fst]. rewrite IH. f_equal.
  unfold parseSection, snapshotOfLines.
  destruct ls as [|l2 rest].
  - simpl in E. injection E as <- <-. reflexivity.
  - change (splitLines (LF :: preText (l2 :: rest)))
      with ([] :: splitLines (preText (l2 :: rest))).
    destruct (splitLines_preText (l2 :: rest) Hls) as (k & ->).
    rewrite E. cbn [fst fold_left]. rewrite parseLine_empty, fold_left_app.
    rewrite fold_parseLine_empties. reflexivity.
Qed.

Lemma join_consHead (c : N) (ls : list jsstring) :
  ls <> [] -> join (consHead c ls) = c :: join ls.
Proof.
  destruct ls as [|h [|h2 t]]; [congruence | reflexivity | reflexivity].
Qed.

Lemma join_splitLines (s : jsstring) : join (splitLines s) = s.
Proof.
  induction s as [|c s IH]; [reflexivity|]. simpl.
  destruct (splitLines_nonempty s) as (h & t & E).
  destruct (c =? LF)%N eqn:Ec.
  - apply N.eqb_eq in Ec. subst c. rewrite E in *.
    change (join ([] :: h :: t)) with ([] ++ LF :: join (h :: t)).
    rewrite IH. reflexivity.
  - rewrite join_consHead by (rewrite E; discriminate). rewrite IH. reflexivity.
Qed.

Lemma splitLines_singleLines (s : jsstring) :
  onlyLineFeeds s = true -> Forall (fun l => singleLine l = true) (splitLines s).
Proof.
  induction s as [|c s IH]; intros H; [repeat constructor|].
  simpl in H. apply andb_true_iff in H as [Hc Hs]. specialize (IH Hs).
  simpl. destruct (splitLines_nonempty s) as (h & t & E). rewrite E in *.
  destruct (c =? LF)%N eqn:Ec.
  - constructor; [reflexivity | exact IH].
  - inversion IH as [|? ? Hh Ht]; subst. simpl. constructor; [|exact Ht].
    simpl. rewrite Hh, andb_true_r.
    unfold isLineTerminator. unfold LF in Ec. rewrite Ec. simpl. exact Hc.
Qed.

(** X17: the parser reads an archive day by day: when line feeds are the only
    line terminators of the text, it returns one snapshot for each line that
    is a day header, in order, with the date of the header and what the
    lines up to the next header hold; everything before the first header is
    ignored. *)
Theorem parse_reads_line_by_line (content : jsstring) :
  onlyLineFeeds content = true ->
  parseMarkdownToSnapshots content = snapshotsOfLines (splitLines content).
Proof.
  intros H. unfold parseMarkdownToSnapshots.
  pose proof (splitLines_singleLines content H) as Hs.
  destruct (splitLines_nonempty content) as (h & t & E).
  rewrite <- (join_splitLines content) at 1.
  rewrite splitDays_of_lines by (try exact Hs; rewrite E; discriminate).
  cbn [tl]. apply parseSections_of_lines. exact Hs.
Qed.

(** ** Concrete boards, ledgers and archives *)

Lemma deleteColumn_keeps_tasks_listed_witness :
  allListed (snd (deleteColumn [100]%N boardColumns boardTasks))
            (fst (deleteColumn [100]%N boardColumns boardTasks))
  /\ length (snd (deleteColumn [100]%N boardColumns boardTasks)) = length boardTasks.
Proof.
  destruct (deleteColumn_keeps_tasks_listed [100]%N boardColumns boardTasks) as [_ H].
  destruct H as (H1 & _ & _ & H4 & _).
  - simpl. lia.
  - simpl. constructor; [|constructor; [|constructor]].
    + intros [C|[]]. discriminate C.
    + intros [].
  - constructor; [discriminate|]. constructor; [discriminate|]. constructor.
  - unfold allListed, boardTasks, boardColumns.
    constructor; [eexists; split; [right; left; reflexivity | reflexivity]|].
    constructor; [eexists; split; [left; reflexivity | reflexivity]|].
    constructor; [eexists; split; [right; left; reflexivity | reflexivity]|].
    constructor.
  - split; [exact H1 | exact H4].
Defined.

Lemma boardTasks_recorded : Forall completionRecorded boardTasks.
Proof.
  unfold boardTasks.
  constructor; [unfold completionRecorded; simpl; discriminate|].
  constructor; [unfold completionRecorded; simpl; reflexivity|].
  constructor; [unfold completionRecorded; simpl; discriminate|].
  constructor.
Defined.

Lemma board_completion_recorded_witness :
  Forall completionRecorded boardTasks
  /\ Forall completionRecorded
       (snd (boardStep sameSpanOfDay (ToggleTask [50]%N 9) (boardColumns, boardTasks))).
Proof.
  split; [exact boardTasks_recorded|].
  apply (board_completion_recorded sameSpanOfDay (ToggleTask [50]%N 9)
           boardColumns boardTasks boardTasks_recorded).
Defined.

Lemma board_never_loses_task_witness :
  In (hd taskA (tl boardTasks)) boardTasks
  /\ (In (task_id (hd taskA (tl boardTasks)))
        (map task_id
           (snd (boardStep sameSpanOfDay (DropOnTask [51]%N [50]%N)
                   (boardColumns, boardTasks))))
      \/ DropOnTask [51]%N [50]%N = DeleteTask (task_id (hd taskA (tl boardTasks)))
      \/ exists today,
           DropOnTask [51]%N [50]%N = CleanupOldTasks today
           /\ completed (hd taskA (tl boardTasks)) = true).
Proof.
  assert (H : In (hd taskA (tl boardTasks)) boardTasks)
    by (simpl; right; left; reflexivity).
  split; [exact H|].
  apply (board_never_loses_task sameSpanOfDay (DropOnTask [51]%N [50]%N)
           boardColumns boardTasks _ H).
Defined.

Lemma ledger_one_record_per_day_witness :
  NoDup (map date (logs scenarioAt59))
  /\ NoDup (map date (logs (step alwaysHalf (Tick 60000 newYear) scenarioAt59))).
Proof.
  assert (H : NoDup (map date (logs scenarioAt59))).
  { vm_compute. constructor; [intros []|constructor]. }
  split; [exact H|].
  apply (ledger_one_record_per_day alwaysHalf (Tick 60000 newYear) scenarioAt59 H).
Defined.

Lemma import_adds_only_new_days_witness :
  In newYear (map date knownLedger)
  /\ secondsOn newYear (importLogs archiveSnapshots knownLedger) = 600
  /\ importLogs archiveSnapshots (importLogs archiveSnapshots knownLedger)
       = importLogs archiveSnapshots knownLedger.
Proof.
  assert (H : In newYear (map date knownLedger)) by (left; reflexivity).
  split; [exact H|].
  destruct (import_adds_only_new_days archiveSnapshots knownLedger [])
    as (H1 & _ & _ & H4 & _).
  split; [|exact H4]. rewrite (H1 newYear H). reflexivity.
Defined.

Lemma import_one_record_per_day_witness :
  NoDup (map snap_date archiveSnapshots)
  /\ NoDup (map date knownLedger)
  /\ NoDup (map date (importLogs archiveSnapshots knownLedger)).
Proof.
  assert (Hs : NoDup (map snap_date archiveSnapshots)).
  { simpl. constructor; [|constructor; [|constructor]].
    - intros [C|[]]. discriminate C.
    - intros []. }
  assert (Hl : NoDup (map date knownLedger)).
  { simpl. constructor; [intros []|constructor]. }
  split; [exact Hs|]. split; [exact Hl|].
  destruct (import_one_record_per_day archiveSnapshots knownLedger [] Hs) as [H _].
  exact (H Hl).
Defined.

Lemma parse_reads_line_by_line_witness :
  onlyLineFeeds (generateDayMarkdown newYear boardTasks boardColumns 25) = true
  /\ parseMarkdownToSnapshots (generateDayMarkdown newYear boardTasks boardColumns 25)
     = snapshotsOfLines
         (splitLines (generateDayMarkdown newYear boardTasks boardColumns 25)).
Proof.
  assert (H : onlyLineFeeds (generateDayMarkdown newYear boardTasks boardColumns 25)
              = true) by (vm_compute; reflexivity).
  split; [exact H|].
  apply (parse_reads_line_by_line _ H).
Defined.

(** * The countdown on the dial *)








(** * The month file *)

(** ** Lines and days *)

Lemma join_cons (l : jsstring) (Y : list jsstring) :
  Y <> [] -> join (l :: Y) = l ++ LF :: join Y.
Proof. destruct Y; [congruence | reflexivity]. Qed.

Lemma join_app (X Y : list jsstring) :
  X <> [] -> Y <> [] -> join (X ++ Y) = join X ++ LF :: join Y.
Proof.
  intros HX HY. induction X as [|x X IH]; [congruence|].
  destruct X as [|x2 X].
  - cbn [app]. rewrite join_cons by exact HY. reflexivity.
  - change ((x :: x2 :: X) ++ Y) with (x :: ((x2 :: X) ++ Y)).
    rewrite join_cons by discriminate. rewrite IH by discriminate.
    rewrite (join_cons x (x2 :: X)) by discriminate.
    rewrite <- app_assoc. reflexivity.
Qed.

Lemma join_flatten (X S Y : list jsstring) :
  S <> [] -> join (X ++ join S :: Y) = join (X ++ S ++ Y).
Proof.
  intros HS.
  assert (T : join (join S :: Y) = join (S ++ Y)).
  { destruct Y as [|y Y]; [rewrite app_nil_r; reflexivity|].
    rewrite join_cons, join_app by (try exact HS; discriminate). reflexivity. }
  destruct X as [|x X]; [exact T|].
  rewrite !(join_app (x :: X)); try discriminate.
  - rewrite T. reflexivity.
  - destruct S; [congruence | discriminate].
Qed.

Lemma parse_of_lines (ls : list jsstring) :
  ls <> [] -> Forall (fun l => singleLine l = true) ls ->
  parseMarkdownToSnapshots (join ls) = snapshotsOfLines ls.
Proof.
  intros Hne Hs. unfold parseMarkdownToSnapshots.
  rewrite splitDays_of_lines by assumption.
  cbn [tl]. apply parseSections_of_lines. exact Hs.
Qed.

Lemma daysOfLines_app (X Z : list jsstring) :
  fst (daysOfLines Z) = [] ->
  daysOfLines (X ++ Z)
  = (fst (daysOfLines X), snd (daysOfLines X) ++ snd (daysOfLines Z)).
Proof.
  intros HZ. induction X as [|l X IH].
  - simpl. rewrite <- HZ. destruct (daysOfLines Z); reflexivity.
  - cbn [app daysOfLines]. rewrite IH.
    destruct (daysOfLines X) as [pre days]. cbn [fst snd].
    destruct (headerDate l); reflexivity.
Qed.

Lemma snapshotsOfLines_app (X Z : list jsstring) :
  fst (daysOfLines Z) = [] ->
  snapshotsOfLines (X ++ Z) = snapshotsOfLines X ++ snapshotsOfLines Z.
Proof.
  intros HZ. unfold snapshotsOfLines. rewrite daysOfLines_app by exact HZ.
  cbn [snd]. apply map_app.
Qed.

Lemma daysOfLines_header (l : jsstring) (Z : list jsstring) :
  headerDate l <> None -> fst (daysOfLines (l :: Z)) = [].
Proof.
  intros H. cbn [daysOfLines]. destruct (daysOfLines Z).
  destruct (headerDate l); [reflexivity | congruence].
Qed.

Lemma snapshotOfLines_date (d : jsstring) (body : list jsstring) :
  snap_date (snapshotOfLines d body) = d.
Proof.
  unfold snapshotOfLines.
  destruct (fold_left parseLine body (str_uncategorized, [], 0)) as [[ct ts] fm].
  reflexivity.
Qed.

Lemma fold_parseLine_idle (P : list jsstring) (st : jsstring * list HistoricalTask * Z) :
  Forall (fun p => forall st', parseLine st' p = st') P ->
  fold_left parseLine P st = st.
Proof.
  intros H. revert st. induction H as [|p P Hp _ IH]; intros st; [reflexivity|].
  cbn [fold_left]. rewrite Hp. apply IH.
Qed.

Lemma snapshotOfLines_idle (d : jsstring) (body P : list jsstring) :
  Forall (fun p => forall st', parseLine st' p = st') P ->
  snapshotOfLines d (body ++ P) = snapshotOfLines d body.
Proof.
  intros H. unfold snapshotOfLines.
  rewrite fold_left_app, fold_parseLine_idle by exact H. reflexivity.
Qed.

(** Lines after the last day that say nothing change no snapshot. *)
Lemma snapshotsOfLines_trailing (S P : list jsstring) :
  Forall (fun p => headerDate p = None) P ->
  Forall (fun p => forall st', parseLine st' p = st') P ->
  snapshotsOfLines (S ++ P) = snapshotsOfLines S
  /\ (fst (daysOfLines (S ++ P)) = fst (daysOfLines S) ++ P
      \/ fst (daysOfLines (S ++ P)) = fst (daysOfLines S)).
Proof.
  intros Hh Hp. unfold snapshotsOfLines. induction S as [|l S [IH1 IH2]].
  - cbn [app]. assert (E : daysOfLines P = (P, [])).
    { clear Hp. induction Hh as [|p P Hp _ IH]; [reflexivity|].
      cbn [daysOfLines]. rewrite IH, Hp. reflexivity. }
    rewrite E. split; [reflexivity | left; reflexivity].
  - cbn [app daysOfLines].
    destruct (daysOfLines (S ++ P)) as [pre' days'].
    destruct (daysOfLines S) as [pre days]. cbn [fst snd] in *.
    destruct (headerDate l) as [d|]; cbn [fst snd map].
    + split; [|right; reflexivity]. rewrite IH1. f_equal.
      destruct IH2 as [-> | ->]; [|reflexivity].
      apply snapshotOfLines_idle. exact Hp.
    + split; [exact IH1|]. destruct IH2 as [-> | ->]; [left | right]; reflexivity.
Qed.

Lemma snapshotsOfLines_dates (X : list jsstring) :
  map snap_date (snapshotsOfLines X) = map fst (snd (daysOfLines X)).
Proof.
  unfold snapshotsOfLines. rewrite map_map. apply map_ext.
  intros [d b]. apply snapshotOfLines_date.
Qed.

(** ** The place of a new day *)

Lemma insertIndex_firstLaterDay (date : jsstring) (lines : list jsstring) :
  insertIndex date lines = firstLaterDay date lines.
Proof.
  unfold insertIndex.
  assert (G : forall k,
             match find (fun ed => str_ltb date (fst ed)) (existingDatesFrom k lines) with
             | Some ed => snd ed
             | None => (k + length lines)%nat
             end = (k + firstLaterDay date lines)%nat).
  { induction lines as [|l lines IH]; intros k; [reflexivity|].
    cbn [existingDatesFrom firstLaterDay length].
    specialize (IH (S k)).
    destruct (headerDate l) as [d|].
    - cbn [find fst]. destruct (str_ltb date d).
      + cbn [snd]. lia.
      + destruct (find _ (existingDatesFrom (S k) lines)); lia.
    - destruct (find _ (existingDatesFrom (S k) lines)); lia. }
  exact (G O).
Qed.

Lemma firstLaterDay_split (date : jsstring) (ls : list jsstring) :
  Forall (fun d => str_ltb date d = false)
    (map fst (snd (daysOfLines (firstn (firstLaterDay date ls) ls))))
  /\ match skipn (firstLaterDay date ls) ls with
     | [] => True
     | l :: _ => exists d, headerDate l = Some d /\ str_ltb date d = true
     end.
Proof.
  induction ls as [|l ls [IH1 IH2]]; [split; [constructor | exact I]|].
  cbn [firstLaterDay]. destruct (headerDate l) as [d|] eqn:Hd.
  - destruct (str_ltb date d) eqn:Hlt.
    + cbn [firstn skipn daysOfLines snd map]. split; [constructor|].
      exists d. split; assumption.
    + cbn [firstn skipn daysOfLines].
      destruct (daysOfLines (firstn (firstLaterDay date ls) ls)) as [pre days].
      rewrite Hd. cbn [snd map fst] in *. split; [|exact IH2].
      constructor; assumption.
  - cbn [firstn skipn daysOfLines].
    destruct (daysOfLines (firstn (firstLaterDay date ls) ls)) as [pre days].
    rewrite Hd. cbn [snd] in *. split; assumption.
Qed.

Lemma Forall_firstn_keeps {A : Type} (P : A -> Prop) (n : nat) (l : list A) :
  Forall P l -> Forall P (firstn n l).
Proof.
  intros H. revert n. induction H as [|x l Hx _ IH]; intros [|n]; simpl;
    try constructor; auto.
Qed.

Lemma Forall_skipn_keeps {A : Type} (P : A -> Prop) (n : nat) (l : list A) :
  Forall P l -> Forall P (skipn n l).
Proof.
  intros H. revert n. induction H as [|x l Hx Hl IH]; intros [|n]; simpl;
    try constructor; auto.
Qed.

Lemma onlyLineFeeds_app (a b : jsstring) :
  onlyLineFeeds (a ++ b) = onlyLineFeeds a && onlyLineFeeds b.
Proof. apply forallb_app. Qed.

Lemma idle_rule_lines :
  Forall (fun p => headerDate p = None) [str_rule; []]
  /\ Forall (fun p => forall st', parseLine st' p = st') [str_rule; []]
  /\ Forall (fun l => singleLine l = true) [str_rule; []].
Proof.
  split; [|split].
  - repeat constructor.
  - constructor; [intros [[ct ts] fm]; reflexivity|].
    constructor; [intros st; apply parseLine_empty | constructor].
  - repeat constructor.
Qed.

(** The text that an insertion gives, as lines. *)
Lemma insert_as_lines (X Y : list jsstring) (c : jsstring) :
  join (X ++ (c ++ LF :: str_rule ++ [LF]) :: Y)
  = join (X ++ (splitLines c ++ [str_rule; []]) ++ Y).
Proof.
  destruct (splitLines_nonempty c) as (h & t & E).
  assert (J : c ++ LF :: str_rule ++ [LF] = join (splitLines c ++ [str_rule; []])).
  { rewrite join_app by (try discriminate; rewrite E; discriminate).
    rewrite join_splitLines. reflexivity. }
  rewrite J. apply join_flatten. rewrite E. discriminate.
Qed.

Lemma updateMonthlyMarkdown_insert (E date c : jsstring) :
  includes E (dayHeader date) = false ->
  updateMonthlyMarkdown E date c
  = join (firstn (firstLaterDay date (splitLines E)) (splitLines E)
          ++ (c ++ LF :: str_rule ++ [LF])
          :: skipn (firstLaterDay date (splitLines E)) (splitLines E)).
Proof.
  intros H. unfold updateMonthlyMarkdown. rewrite H. cbv zeta.
  rewrite insertIndex_firstLaterDay. reflexivity.
Qed.

Lemma parse_inserted_day (E date c : jsstring) :
  onlyLineFeeds E = true -> onlyLineFeeds c = true ->
  includes E (dayHeader date) = false ->
  headerDate (hd [] (splitLines c)) <> None ->
  exists before after,
    parseMarkdownToSnapshots E = before ++ after
    /\ parseMarkdownToSnapshots (updateMonthlyMarkdown E date c)
       = before ++ parseMarkdownToSnapshots c ++ after
    /\ Forall (fun s => str_ltb date (snap_date s) = false) before
    /\ match after with
       | [] => True
       | s :: _ => str_ltb date (snap_date s) = true
       end.
Proof.
  intros HE Hc Hinc Hhd.
  set (ls := splitLines E). set (i := firstLaterDay date ls).
  pose proof (splitLines_singleLines E HE) as HsE. fold ls in HsE.
  pose proof (splitLines_singleLines c Hc) as Hsc.
  destruct (splitLines_nonempty c) as (h & body & Ec). rewrite Ec in *.
  cbn [hd] in Hhd.
  destruct (firstLaterDay_split date ls) as [Hb Ha]. fold i in Hb, Ha.
  destruct idle_rule_lines as (I1 & I2 & I3).
  assert (HY : fst (daysOfLines (skipn i ls)) = []).
  { destruct (skipn i ls) as [|l Y]; [reflexivity|].
    destruct Ha as (d & Hd & _). apply daysOfLines_header. congruence. }
  exists (snapshotsOfLines (firstn i ls)), (snapshotsOfLines (skipn i ls)).
  split; [|split; [|split]].
  - rewrite <- (join_splitLines E). fold ls.
    destruct (splitLines_nonempty E) as (h0 & t0 & E0). fold ls in E0.
    rewrite parse_of_lines by (try exact HsE; rewrite E0; discriminate).
    rewrite <- (firstn_skipn i ls) at 1. apply snapshotsOfLines_app. exact HY.
  - rewrite updateMonthlyMarkdown_insert by exact Hinc. fold ls. fold i.
    rewrite insert_as_lines, Ec.
    rewrite parse_of_lines.
    + rewrite snapshotsOfLines_app.
      * f_equal. rewrite snapshotsOfLines_app by exact HY. f_equal.
        destruct (snapshotsOfLines_trailing (h :: body) _ I1 I2) as [-> _].
        rewrite <- (join_splitLines c) at 1. rewrite Ec.
        symmetry. apply parse_of_lines; [discriminate | exact Hsc].
      * change (((h :: body) ++ [str_rule; []]) ++ skipn i ls)
          with (h :: ((body ++ [str_rule; []]) ++ skipn i ls)).
        apply daysOfLines_header. exact Hhd.
    + destruct (firstn i ls); discriminate.
    + apply Forall_app. split; [apply Forall_firstn_keeps; exact HsE|].
      apply Forall_app. split; [|apply Forall_skipn_keeps; exact HsE].
      apply Forall_app. split; [exact Hsc | exact I3].
  - apply Forall_forall. intros s Hs.
    apply (in_map snap_date) in Hs. rewrite snapshotsOfLines_dates in Hs.
    rewrite Forall_forall in Hb. apply Hb. exact Hs.
  - destruct (skipn i ls) as [|l Y] eqn:EY; [exact I|].
    destruct Ha as (d & Hd & Hlt).
    unfold snapshotsOfLines. cbn [daysOfLines].
    destruct (daysOfLines Y) as [pre days]. rewrite Hd. cbn [snd map fst].
    rewrite snapshotOfLines_date. exact Hlt.
Qed.

(** X19: a day that the month file does not have yet is added without
    touching the others: for a date of the form YYYY-MM-DD, after the
    update the file reads as before, with the days of the new content put
    before the first day that is later than the date, or at the end when no
    day is later. *)
Theorem update_adds_day (existingContent date dayContent : jsstring) :
  isDateString date = true ->
  onlyLineFeeds existingContent = true -> onlyLineFeeds dayContent = true ->
  includes existingContent (dayHeader date) = false ->
  headerDate (hd [] (splitLines dayContent)) <> None ->
  exists before after,
    parseMarkdownToSnapshots existingContent = before ++ after
    /\ parseMarkdownToSnapshots (updateMonthlyMarkdown existingContent date dayContent)
       = before ++ parseMarkdownToSnapshots dayContent ++ after
    /\ Forall (fun s => str_ltb date (snap_date s) = false) before
    /\ match after with
       | [] => True
       | s :: _ => str_ltb date (snap_date s) = true
       end.
Proof. intros _. exact (parse_inserted_day existingContent date dayContent). Qed.

(** ** Replacing the block of a day *)

Lemma matchPrefix_extend (pat : list CharClass) (s m r y : jsstring) :
  matchPrefix pat s = Some (m, r) -> matchPrefix pat (s ++ y) = Some (m, r ++ y).
Proof.
  revert s m r. induction pat as [|k pat IH]; intros s m r H.
  - simpl in H. injection H as <- <-. reflexivity.
  - apply matchPrefix_cons in H as (c & s' & m' & -> & Hc & H & ->).
    cbn [app matchPrefix]. rewrite Hc, (IH _ _ _ H). reflexivity.
Qed.

(** A text without line feed is not found across a line feed. *)
Lemma matchPrefix_before_LF (p X R m r : jsstring) :
  ~ In LF p ->
  matchPrefix (lits p) (X ++ LF :: R) = Some (m, r) ->
  exists r', matchPrefix (lits p) X = Some (m, r').
Proof.
  revert X m r. induction p as [|a p IH]; intros X m r Hn H.
  - simpl in H. injection H as <- _. exists X. reflexivity.
  - unfold lits in *. cbn [map] in *.
    apply matchPrefix_cons in H as (c & s' & m' & E & Hc & H & ->).
    cbn [classMatches] in Hc. apply N.eqb_eq in Hc. subst c.
    destruct X as [|x X].
    + simpl in E. injection E as E _. exfalso. apply Hn. left. congruence.
    + cbn [app] in E. injection E as Ex Es. subst x s'.
      destruct (IH X m' r) as (r' & Hr); [intros C; apply Hn; right; exact C | exact H |].
      exists r'. cbn [matchPrefix classMatches]. rewrite N.eqb_refl, Hr. reflexivity.
Qed.

Lemma includes_cons_false (c : N) (s p : jsstring) :
  includes (c :: s) p = false ->
  matchPrefix (lits p) (c :: s) = None /\ includes s p = false.
Proof.
  cbn [includes]. destruct (matchPrefix (lits p) (c :: s)); [discriminate|]. auto.
Qed.

Lemma includes_nil (p : jsstring) : p <> [] -> includes [] p = false.
Proof. destruct p; [congruence | reflexivity]. Qed.

Lemma includes_app_l (x y p : jsstring) :
  includes (x ++ y) p = false -> includes x p = false.
Proof.
  induction x as [|c x IH]; intros H.
  - destruct p as [|a p]; [|reflexivity].
    destruct y; discriminate H.
  - cbn [app] in H. apply includes_cons_false in H as [Hm Hi].
    cbn [includes]. rewrite (IH Hi).
    destruct (matchPrefix (lits p) (c :: x)) as [[m r]|] eqn:E; [|reflexivity].
    apply (matchPrefix_extend _ _ _ _ y) in E. cbn [app] in E. congruence.
Qed.

Lemma includes_app_r (x y p : jsstring) :
  includes (x ++ y) p = false -> includes y p = false.
Proof.
  induction x as [|c x IH]; intros H; [exact H|].
  cbn [app] in H. apply includes_cons_false in H as [_ Hi]. exact (IH Hi).
Qed.

Lemma includes_found (a p b : jsstring) : includes (a ++ p ++ b) p = true.
Proof.
  induction a as [|c a IH].
  - cbn [app]. destruct (p ++ b) eqn:E; cbn [includes]; rewrite <- ?E, matchPrefix_lits;
      reflexivity.
  - cbn [app includes]. rewrite IH.
    destruct (matchPrefix (lits p) (c :: a ++ p ++ b)); reflexivity.
Qed.

Lemma includes_snoc_LF (x p : jsstring) :
  p <> [] -> ~ In LF p ->
  includes x p = false -> includes (x ++ [LF]) p = false.
Proof.
  intros Hne Hn. induction x as [|c x IH]; intros H.
  - destruct p as [|a p]; [congruence|]. cbn [app includes].
    unfold lits. cbn [map matchPrefix classMatches].
    destruct (N.eqb_spec LF a) as [E|_]; [exfalso; apply Hn; left; congruence|].
    reflexivity.
  - apply includes_cons_false in H as [Hm Hi]. cbn [app includes].
    rewrite (IH Hi).
    destruct (matchPrefix (lits p) (c :: x ++ [LF])) as [[m r]|] eqn:E; [|reflexivity].
    apply (matchPrefix_before_LF p (c :: x) [] m r Hn) in E as (r' & E). congruence.
Qed.

Lemma includes_cons_LF (x p : jsstring) :
  p <> [] -> ~ In LF p ->
  includes x p = false -> includes (LF :: x) p = false.
Proof.
  intros Hne Hn H. cbn [includes]. rewrite H.
  destruct p as [|a p]; [congruence|].
  unfold lits. cbn [map matchPrefix classMatches].
  destruct (N.eqb_spec LF a) as [E|_]; [exfalso; apply Hn; left; congruence|].
  reflexivity.
Qed.

Lemma replaceDayRegex_clean (h : list CharClass) (t A R before : jsstring) :
  (forall A1 c A2, A = A1 ++ c :: A2 -> matchPrefix h (c :: A2 ++ R) = None) ->
  replaceDayRegex h t before O (A ++ R)
  = A ++ replaceDayRegex h t (before ++ A) O R.
Proof.
  revert before. induction A as [|c A IH]; intros before H.
  - rewrite app_nil_r. reflexivity.
  - cbn [app replaceDayRegex]. rewrite (H [] c A eq_refl).
    rewrite IH.
    + rewrite <- app_assoc. reflexivity.
    + intros A1 c' A2 E. apply (H (c :: A1) c' A2). rewrite E. reflexivity.
Qed.

Lemma replaceDayRegex_none (p t s before : jsstring) :
  includes s p = false ->
  replaceDayRegex (lits p) t before O s = s.
Proof.
  intros H. rewrite <- (app_nil_r s) at 1.
  rewrite replaceDayRegex_clean; [simpl; apply app_nil_r|].
  intros A1 c A2 E. rewrite app_nil_r. subst s.
  apply includes_app_r in H. apply includes_cons_false in H. apply H.
Qed.

Lemma replaceDayRegex_before_line (p t A R before : jsstring) :
  p <> [] -> ~ In LF p ->
  A = [] \/ (exists A', A = A' ++ [LF]) ->
  includes A p = false ->
  replaceDayRegex (lits p) t before O (A ++ R)
  = A ++ replaceDayRegex (lits p) t (before ++ A) O R.
Proof.
  intros Hne Hn HA Hi. apply replaceDayRegex_clean.
  intros A1 c A2 E. subst A. apply includes_app_r in Hi.
  apply includes_cons_false in Hi as [Hm _].
  destruct HA as [C|(A' & C)]; [destruct A1; discriminate C|].
  assert (S : exists X, c :: A2 = X ++ [LF]).
  { destruct (exists_last (l := c :: A2) ltac:(discriminate)) as (X & z & EX).
    exists X. rewrite EX. f_equal. f_equal.
    rewrite EX, app_assoc in C. apply app_inj_tail in C. apply C. }
  destruct S as (X & EX).
  destruct (matchPrefix (lits p) (c :: A2 ++ R)) as [[m r]|] eqn:M; [|reflexivity].
  exfalso. change (c :: A2 ++ R) with ((c :: A2) ++ R) in M.
  rewrite EX, <- app_assoc in M. cbn [app] in M.
  apply (matchPrefix_before_LF p X R m r Hn) in M as (r' & M).
  apply (matchPrefix_extend _ _ _ _ [LF]) in M. rewrite <- EX in M. congruence.
Qed.

Lemma replaceDayRegex_skip (h : list CharClass) (t X R before : jsstring) :
  replaceDayRegex h t before (length X) (X ++ R)
  = replaceDayRegex h t (before ++ X) O R.
Proof.
  revert before. induction X as [|c X IH]; intros before.
  - rewrite app_nil_r. reflexivity.
  - cbn [app length replaceDayRegex]. rewrite IH, <- app_assoc. reflexivity.
Qed.

Lemma getSubstitution_plain (matched before after template : jsstring) :
  existsb (N.eqb 36) template = false ->
  getSubstitution matched before after template = template.
Proof.
  induction template as [|c t IH]; intros H; [reflexivity|].
  cbn [existsb] in H. apply orb_false_iff in H as [Hc Ht].
  cbn [getSubstitution]. rewrite N.eqb_sym, Hc, (IH Ht). reflexivity.
Qed.

(** *** The lazy run over the lines of a day *)

Lemma splitLines_no_LF (s : jsstring) :
  Forall (fun l => Forall (fun c => (c =? LF)%N = false) l) (splitLines s).
Proof.
  induction s as [|c s IH]; [repeat constructor|]. cbn [splitLines].
  destruct (c =? LF)%N eqn:E; [constructor; [constructor | exact IH]|].
  destruct (splitLines s) as [|h t]; simpl.
  - repeat constructor. exact E.
  - inversion IH; subst. constructor; [constructor; assumption | assumption].
Qed.

Lemma join_header_body (h : jsstring) (L : list jsstring) :
  join (h :: L) = h ++ flat_map (cons LF) L.
Proof.
  revert h. induction L as [|l L IH]; intros h; [simpl; rewrite app_nil_r; reflexivity|].
  rewrite join_cons by discriminate. rewrite IH. reflexivity.
Qed.

Lemma dayEndAhead_inside (c : N) (rest : jsstring) :
  (c =? LF)%N = false -> dayEndAhead (c :: rest) = false.
Proof.
  intros H. unfold dayEndAhead, lits.
  cbn [map matchPrefix classMatches]. rewrite H. reflexivity.
Qed.

Lemma lazyToDayEnd_line (l T : jsstring) :
  Forall (fun c => (c =? LF)%N = false) l ->
  lazyToDayEnd (l ++ T) = (l ++ fst (lazyToDayEnd T), snd (lazyToDayEnd T)).
Proof.
  induction 1 as [|c l Hc _ IH].
  - simpl. destruct (lazyToDayEnd T); reflexivity.
  - cbn [app lazyToDayEnd]. rewrite (dayEndAhead_inside c _ Hc), IH. reflexivity.
Qed.

Lemma rule_not_ahead (l T : jsstring) :
  Forall (fun c => (c =? LF)%N = false) l ->
  str_eqb l str_rule = false ->
  matchPrefix (lits (LF :: str_rule ++ [LF])) (LF :: l ++ LF :: T) = None.
Proof.
  intros Hl Hr. unfold lits, str_rule in *. cbn [map app matchPrefix classMatches].
  rewrite N.eqb_refl.
  destruct l as [|a l]; [reflexivity|]. cbn [app str_eqb] in *.
  destruct (a =? 45)%N eqn:Ea; [|reflexivity]. cbn [andb] in Hr.
  destruct l as [|b l]; [reflexivity|]. cbn [app str_eqb] in *.
  destruct (b =? 45)%N eqn:Eb; [|reflexivity]. cbn [andb] in Hr.
  destruct l as [|c l]; [reflexivity|]. cbn [app str_eqb] in *.
  destruct (c =? 45)%N eqn:Ec; [|reflexivity]. cbn [andb] in Hr.
  destruct l as [|d l]; [discriminate Hr|]. cbn [app].
  inversion Hl as [|? ? _ Hl1]; subst. inversion Hl1 as [|? ? _ Hl2]; subst.
  inversion Hl2 as [|? ? _ Hl3]; subst. inversion Hl3 as [|? ? Hd _]; subst.
  rewrite Hd. reflexivity.
Qed.

Lemma dayEndAhead_plainLine (l T : jsstring) :
  Forall (fun c => (c =? LF)%N = false) l ->
  plainLine l = true ->
  dayEndAhead (LF :: l ++ LF :: T) = false.
Proof.
  intros Hl Hp. unfold plainLine in Hp. apply andb_true_iff in Hp as [Hr Hh].
  apply negb_true_iff in Hr.
  unfold dayEndAhead. rewrite (rule_not_ahead l T Hl Hr).
  cbn [matchPrefix classMatches]. rewrite N.eqb_refl.
  rewrite (matchPrefix_line dayPattern l (LF :: T) dayPattern_no_LF) by eauto.
  destruct (matchPrefix dayPattern l) as [[m r]|]; [discriminate Hh | reflexivity].
Qed.

Lemma lazyToDayEnd_lines (L : list jsstring) (T : jsstring) :
  Forall (fun l => Forall (fun c => (c =? LF)%N = false) l) L ->
  Forall (fun l => plainLine l = true) L ->
  dayEndAhead (LF :: T) = true ->
  lazyToDayEnd (flat_map (cons LF) L ++ LF :: T) = (flat_map (cons LF) L, LF :: T).
Proof.
  intros Hn Hp HT. induction L as [|l L IH].
  - cbn [flat_map app lazyToDayEnd]. rewrite HT. reflexivity.
  - inversion Hn as [|? ? Hl Hn']; subst. inversion Hp as [|? ? Hpl Hp']; subst.
    specialize (IH Hn' Hp').
    cbn [flat_map]. rewrite <- app_assoc.
    change ((LF :: l) ++ flat_map (cons LF) L ++ LF :: T)
      with (LF :: l ++ flat_map (cons LF) L ++ LF :: T).
    cbn [lazyToDayEnd].
    assert (A : dayEndAhead (LF :: l ++ flat_map (cons LF) L ++ LF :: T) = false).
    { destruct L as [|l2 L].
      - apply dayEndAhead_plainLine; assumption.
      - cbn [flat_map]. rewrite <- app_assoc.
        change ((LF :: l2) ++ flat_map (cons LF) L ++ LF :: T)
          with (LF :: (l2 ++ flat_map (cons LF) L ++ LF :: T)).
        apply dayEndAhead_plainLine; assumption. }
    rewrite A, lazyToDayEnd_line by exact Hl. rewrite IH. reflexivity.
Qed.

Lemma dayHeader_facts (date : jsstring) :
  isDateString date = true ->
  ~ In LF (dayHeader date)
  /\ exists X, dayHeader date = 35%N :: X.
Proof.
  intros H. destruct (isDateString_inv date H)
    as (y1 & y2 & y3 & y4 & m1 & m2 & d1 & d2 & -> & Hd).
  split; [|eexists; reflexivity].
  cbn [forallb] in Hd.
  repeat match type of Hd with
         | _ && _ = true => apply andb_true_iff in Hd as [? Hd]
         end.
  unfold dayHeader, str_h2, str_tasks, LF. cbn [app In].
  intros C.
  repeat match type of C with
         | _ \/ _ => destruct C as [C|C]
         end;
    try discriminate C; try contradiction;
    subst; discriminate.
Qed.

Lemma includes_other_start (c a : N) (s X : jsstring) :
  (c =? a)%N = false -> includes (c :: s) (a :: X) = includes s (a :: X).
Proof.
  intros H. cbn [includes]. unfold lits. cbn [map matchPrefix classMatches].
  rewrite H. reflexivity.
Qed.

Lemma rule_tail_clean (B p : jsstring) :
  (exists X, p = 35%N :: X) ->
  includes B p = false ->
  includes (LF :: str_rule ++ LF :: B) p = false
  /\ dayEndAhead (LF :: str_rule ++ LF :: B) = true.
Proof.
  intros (X & ->) H. split; [|reflexivity].
  unfold str_rule. cbn [app].
  rewrite !includes_other_start by reflexivity. exact H.
Qed.

Lemma replace_day_block (A B date old c2 : jsstring) (L : list jsstring) :
  isDateString date = true ->
  A = [] \/ (exists A', A = A' ++ [LF]) ->
  includes A (dayHeader date) = false ->
  includes B (dayHeader date) = false ->
  splitLines old = dayHeader date :: L ->
  Forall (fun l => plainLine l = true) L ->
  updateMonthlyMarkdown (A ++ old ++ LF :: str_rule ++ LF :: B) date c2
  = A ++ getSubstitution old A (LF :: str_rule ++ LF :: B) c2
      ++ LF :: str_rule ++ LF :: B.
Proof.
  intros Hd HA HiA HiB Hold Hp.
  destruct (dayHeader_facts date Hd) as (Hn & X & HX).
  assert (Hne : dayHeader date <> []) by (rewrite HX; discriminate).
  destruct (rule_tail_clean B (dayHeader date) (ex_intro _ X HX) HiB) as [HiT HT].
  set (T := LF :: str_rule ++ LF :: B) in *.
  pose proof (splitLines_no_LF old) as HL. rewrite Hold in HL.
  inversion HL as [|? ? _ HL']; subst.
  assert (Eold : old = dayHeader date ++ flat_map (cons LF) L).
  { rewrite <- (join_splitLines old), Hold. apply join_header_body. }
  unfold updateMonthlyMarkdown.
  assert (F : includes (A ++ old ++ T) (dayHeader date) = true).
  { rewrite Eold, <- app_assoc. apply includes_found. }
  rewrite F.
  rewrite replaceDayRegex_before_line by assumption. f_equal. cbn [app].
  assert (M : matchPrefix (lits (dayHeader date)) (old ++ T)
              = Some (dayHeader date, flat_map (cons LF) L ++ T)).
  { rewrite Eold, <- app_assoc. apply matchPrefix_lits. }
  assert (Z : lazyToDayEnd (flat_map (cons LF) L ++ T) = (flat_map (cons LF) L, T)).
  { apply lazyToDayEnd_lines; assumption. }
  destruct old as [|c old']; [rewrite HX in Eold; discriminate Eold|].
  cbn [app replaceDayRegex]. cbn [app] in M. rewrite M, Z.
  rewrite <- Eold. f_equal.
  replace (length (c :: old') - 1)%nat with (length old') by (simpl; lia).
  rewrite replaceDayRegex_skip. apply replaceDayRegex_none. exact HiT.
Qed.

(** X20: a day that the month file has is replaced in place.  When the block
    of the day starts on a line of its own, is followed by a rule and its
    lines after the header are neither rules nor headers, and the header of
    the date is nowhere else in the file, the update puts the replacement
    text where the block was and leaves the rest as it is.  The replacement
    text is the new content with the dollar patterns of [replace] expanded;
    it is the new content itself when that holds no dollar sign. *)
Theorem update_replaces_day (A B date old dayContent : jsstring)
    (L : list jsstring) :
  isDateString date = true ->
  A = [] \/ (exists A', A = A' ++ [LF]) ->
  includes A (dayHeader date) = false ->
  includes B (dayHeader date) = false ->
  splitLines old = dayHeader date :: L ->
  Forall (fun l => plainLine l = true) L ->
  updateMonthlyMarkdown (A ++ old ++ LF :: str_rule ++ LF :: B) date dayContent
  = A ++ getSubstitution old A (LF :: str_rule ++ LF :: B) dayContent
      ++ LF :: str_rule ++ LF :: B
  /\ (existsb (N.eqb 36) dayContent = false ->
      updateMonthlyMarkdown (A ++ old ++ LF :: str_rule ++ LF :: B) date dayContent
      = A ++ dayContent ++ LF :: str_rule ++ LF :: B).
Proof.
  intros Hd HA HiA HiB Hold Hp.
  pose proof (replace_day_block A B date old dayContent L Hd HA HiA HiB Hold Hp) as R.
  split; [exact R|]. intros Hc. rewrite R, getSubstitution_plain by exact Hc.
  reflexivity.
Qed.

(** ** Exporting a day again *)

Lemma join_insert (X Y : list jsstring) (s : jsstring) :
  join (X ++ s :: Y)
  = match X with [] => [] | _ :: _ => join X ++ [LF] end
    ++ s ++ match Y with [] => [] | _ :: _ => LF :: join Y end.
Proof.
  assert (T : join (s :: Y) = s ++ match Y with [] => [] | _ :: _ => LF :: join Y end).
  { destruct Y; [simpl; rewrite app_nil_r; reflexivity | reflexivity]. }
  destruct X as [|x X]; [exact T|].
  rewrite join_app by discriminate. rewrite T, <- app_assoc. reflexivity.
Qed.

Lemma includes_around (X Y : list jsstring) (p : jsstring) :
  p <> [] -> ~ In LF p ->
  includes (join (X ++ Y)) p = false ->
  includes (match X with [] => [] | _ :: _ => join X ++ [LF] end) p = false
  /\ includes (match Y with [] => [] | _ :: _ => LF :: join Y end) p = false.
Proof.
  intros Hne Hn H. destruct X as [|x X], Y as [|y Y].
  - split; apply includes_nil; exact Hne.
  - split; [apply includes_nil; exact Hne|].
    apply includes_cons_LF; assumption.
  - rewrite app_nil_r in H. split; [|apply includes_nil; exact Hne].
    apply includes_snoc_LF; assumption.
  - rewrite join_app in H by discriminate. split.
    + apply (includes_app_l _ (join (y :: Y))). rewrite <- app_assoc. exact H.
    + apply (includes_app_r (join (x :: X))). exact H.
Qed.

Lemma export_again (F date c1 c2 : jsstring) (L1 : list jsstring) :
  isDateString date = true ->
  includes F (dayHeader date) = false ->
  splitLines c1 = dayHeader date :: L1 ->
  Forall (fun l => plainLine l = true) L1 ->
  existsb (N.eqb 36) c2 = false ->
  updateMonthlyMarkdown (updateMonthlyMarkdown F date c1) date c2
  = updateMonthlyMarkdown F date c2.
Proof.
  intros Hd Hi Hc1 Hp Hc2.
  destruct (dayHeader_facts date Hd) as (Hn & X0 & HX).
  assert (Hne : dayHeader date <> []) by (rewrite HX; discriminate).
  rewrite (updateMonthlyMarkdown_insert F date c1 Hi),
          (updateMonthlyMarkdown_insert F date c2 Hi).
  set (ls := splitLines F). set (i := firstLaterDay date ls).
  rewrite !join_insert.
  assert (HF : includes (join (firstn i ls ++ skipn i ls)) (dayHeader date) = false).
  { rewrite firstn_skipn. unfold ls. rewrite join_splitLines. exact Hi. }
  destruct (includes_around _ _ _ Hne Hn HF) as [HA HB].
  set (A := match firstn i ls with [] => [] | _ :: _ => join (firstn i ls) ++ [LF] end) in *.
  set (B := match skipn i ls with [] => [] | _ :: _ => LF :: join (skipn i ls) end) in *.
  assert (HAs : A = [] \/ (exists A', A = A' ++ [LF])).
  { unfold A. destruct (firstn i ls); [left; reflexivity | right; eexists; reflexivity]. }
  rewrite <- !app_assoc. cbn [app].
  change ((str_rule ++ [LF]) ++ B) with (str_rule ++ LF :: B).
  rewrite (replace_day_block A B date c1 c2 L1 Hd HAs HA HB Hc1 Hp).
  rewrite getSubstitution_plain by exact Hc2. reflexivity.
Qed.

(** X21: exporting a day a second time overwrites the first export: when
    the file did not have the day, the lines of the first content after its
    header are neither rules nor headers, and the second content holds no
    dollar sign, two updates in a row give the file that the second alone
    would have given. *)
Theorem second_export_replaces_first (existingContent date first second : jsstring)
    (L : list jsstring) :
  isDateString date = true ->
  includes existingContent (dayHeader date) = false ->
  splitLines first = dayHeader date :: L ->
  Forall (fun l => plainLine l = true) L ->
  existsb (N.eqb 36) second = false ->
  updateMonthlyMarkdown (updateMonthlyMarkdown existingContent date first) date second
  = updateMonthlyMarkdown existingContent date second.
Proof. exact (export_again existingContent date first second L). Qed.

(** ** What an export writes *)

Lemma matchPrefix_app_none (p q : list CharClass) (s : jsstring) :
  matchPrefix p s = None -> matchPrefix (p ++ q) s = None.
Proof.
  revert s. induction p as [|k p IH]; intros s H; [discriminate H|].
  cbn [app matchPrefix] in *. destruct s as [|c s]; [reflexivity|].
  destruct (classMatches k c); [|reflexivity].
  destruct (matchPrefix p s) as [[m r]|] eqn:E; [discriminate H|].
  rewrite (IH s E). reflexivity.
Qed.

Lemma singleLine_onlyLineFeeds (l : jsstring) :
  singleLine l = true -> onlyLineFeeds l = true.
Proof.
  induction l as [|c l IH]; [reflexivity|]. simpl. intros H.
  apply andb_true_iff in H as [Hc Hl]. rewrite (IH Hl), andb_true_r.
  unfold isLineTerminator in Hc. apply negb_true_iff in Hc.
  apply orb_false_iff in Hc as [Hc H4]. apply orb_false_iff in Hc as [Hc H3].
  apply orb_false_iff in Hc as [_ H2]. rewrite H2, H3, H4. reflexivity.
Qed.

Lemma onlyLineFeeds_join (ls : list jsstring) :
  Forall (fun l => singleLine l = true) ls -> onlyLineFeeds (join ls) = true.
Proof.
  induction 1 as [|l ls Hl _ IH]; [reflexivity|].
  destruct ls as [|l2 ls]; [apply singleLine_onlyLineFeeds; exact Hl|].
  rewrite join_cons by discriminate.
  rewrite onlyLineFeeds_app, (singleLine_onlyLineFeeds l Hl).
  cbn [andb]. change (onlyLineFeeds (LF :: join (l2 :: ls)))
    with (onlyLineFeeds (join (l2 :: ls))). exact IH.
Qed.

Lemma dayHeader_line (d : jsstring) :
  isDateString d = true ->
  singleLine (dayHeader d) = true /\ headerDate (dayHeader d) = Some d.
Proof.
  intros H. destruct (isDateString_inv d H)
    as (y1 & y2 & y3 & y4 & m1 & m2 & d1 & d2 & -> & Hd).
  cbn [forallb] in Hd.
  repeat match type of Hd with
         | _ && _ = true => apply andb_true_iff in Hd as [? Hd]
         end.
  split.
  - unfold dayHeader, str_h2, str_tasks. cbn [app singleLine forallb].
    repeat match goal with
           | E : isDigit ?c = true |- _ =>
               rewrite (isDigit_not_terminator c E); clear E
           end.
    reflexivity.
  - unfold headerDate, dayHeader, dayPattern, datePattern, lits, str_h2, str_tasks.
    cbn [map app matchPrefix classMatches].
    repeat match goal with E : isDigit _ = true |- _ => rewrite E; clear E end.
    reflexivity.
Qed.

(** The lines of a generated day after its header: single lines that are
    neither rules nor headers. *)
Lemma generated_lines_plain (ts : list Task) (columns : list Column) (fm : Z) :
  Forall (fun t => singleLine (text t) = true) ts ->
  Forall (fun c => singleLine (title c) = true) columns ->
  Forall (fun l => singleLine l = true /\ plainLine l = true)
    ([] :: flat_map (columnLines ts) columns ++ focusLines fm).
Proof.
  intros Ht Hc. constructor; [split; reflexivity|]. apply Forall_app. split.
  - apply Forall_flat_map. revert Hc. apply Forall_impl. intros c Hc.
    unfold columnLines.
    pose proof (Forall_filter_keeps _ (fun t => str_eqb (columnId t) (col_id c)) ts Ht)
      as Hf.
    destruct (filter (fun t => str_eqb (columnId t) (col_id c)) ts) as [|t0 rest] eqn:E;
      [constructor|].
    constructor.
    + split; [|reflexivity]. rewrite singleLine_app, Hc. reflexivity.
    + apply Forall_app. split; [|repeat constructor].
      apply Forall_map. revert Hf. apply Forall_impl. intros t Hx.
      unfold taskLine. destruct (completed t); split;
        try reflexivity; rewrite singleLine_app, Hx; reflexivity.
  - unfold focusLines. destruct (Z.ltb_spec 0 fm) as [Hp|_]; [|constructor].
    destruct (numberToString_spec fm Hp) as (_ & Hd & _).
    constructor; [|repeat constructor].
    split; [|reflexivity].
    rewrite !singleLine_app, (singleLine_digits _ Hd). reflexivity.
Qed.

Lemma generated_day_lines (d : jsstring) (ts : list Task) (columns : list Column)
    (fm : Z) :
  isDateString d = true ->
  Forall (fun t => singleLine (text t) = true) ts ->
  Forall (fun c => singleLine (title c) = true) columns ->
  splitLines (generateDayMarkdown d ts columns fm)
    = dayHeader d :: [] :: flat_map (columnLines ts) columns ++ focusLines fm
  /\ onlyLineFeeds (generateDayMarkdown d ts columns fm) = true.
Proof.
  intros Hd Ht Hc.
  pose proof (generated_lines_plain ts columns fm Ht Hc) as Hb.
  destruct (dayHeader_line d Hd) as [Hh _].
  assert (Hs : Forall (fun l => singleLine l = true) (dayLines d ts columns fm)).
  { unfold dayLines. constructor; [exact Hh|].
    revert Hb. apply Forall_impl. intros l [H _]. exact H. }
  unfold generateDayMarkdown. split.
  - rewrite splitLines_join by (try exact Hs; discriminate). reflexivity.
  - apply onlyLineFeeds_join. exact Hs.
Qed.








Lemma updateMonthlyMarkdown_nonempty (E date c : jsstring) :
  includes E (dayHeader date) = false ->
  exists x y, updateMonthlyMarkdown E date c = x :: y.
Proof.
  intros H. rewrite updateMonthlyMarkdown_insert by exact H.
  rewrite join_insert.
  destruct (firstn _ _) as [|l0 X].
  - destruct c; cbn [app]; eexists _, _; reflexivity.
  - destruct (join (l0 :: X)); cbn [app]; eexists _, _; reflexivity.
Qed.

Lemma exportTodayToMarkdown_eq (today yearMonth : jsstring) (logs : list DailyLog)
    (ts : list Task) (columns : list Column) (fileContent : jsstring) :
  exportTodayToMarkdown today yearMonth logs ts columns fileContent
  = updateMonthlyMarkdown (contentOrTitle yearMonth fileContent) today
      (generateDayMarkdown today ts columns (exportedFocusMinutes today logs)).
Proof. reflexivity. Qed.

(** X23: exporting again overwrites the export before it.  When the file
    read by the first export (or the title of the month, for an empty file)
    does not hold today's header, the texts and titles of the first export
    are single lines and the content of the second holds no dollar sign, the
    second export writes what it would have written in place of the first. *)
Theorem export_twice (today yearMonth : jsstring)
    (logs1 logs2 : list DailyLog) (ts1 ts2 : list Task) (columns1 columns2 : list Column)
    (fileContent : jsstring) :
  isDateString today = true ->
  includes (contentOrTitle yearMonth fileContent) (dayHeader today) = false ->
  Forall (fun t => singleLine (text t) = true) ts1 ->
  Forall (fun c => singleLine (title c) = true) columns1 ->
  existsb (N.eqb 36)
    (generateDayMarkdown today ts2 columns2 (exportedFocusMinutes today logs2)) = false ->
  exportTodayToMarkdown today yearMonth logs2 ts2 columns2
    (exportTodayToMarkdown today yearMonth logs1 ts1 columns1 fileContent)
  = exportTodayToMarkdown today yearMonth logs2 ts2 columns2 fileContent.
Proof.
  intros Hd Hi Ht Hc H2.
  rewrite !exportTodayToMarkdown_eq.
  destruct (updateMonthlyMarkdown_nonempty (contentOrTitle yearMonth fileContent) today
              (generateDayMarkdown today ts1 columns1 (exportedFocusMinutes today logs1))
              Hi) as (x & y & E).
  rewrite E. cbn [contentOrTitle]. rewrite <- E.
  destruct (generated_day_lines today ts1 columns1
              (exportedFocusMinutes today logs1) Hd Ht Hc) as [G1 _].
  apply (export_again _ today _ _ _ Hd Hi G1); [|exact H2].
  pose proof (generated_lines_plain ts1 columns1 (exportedFocusMinutes today logs1) Ht Hc)
    as Hp.
  revert Hp. apply Forall_impl. intros l [_ H]. exact H.
Qed.

(** ** Concrete month files *)


Lemma update_adds_day_witness :
  isDateString newYear = true
  /\ includes januaryFile (dayHeader newYear) = false
  /\ exists before after,
       parseMarkdownToSnapshots januaryFile = before ++ after
       /\ parseMarkdownToSnapshots (updateMonthlyMarkdown januaryFile newYear newYearContent)
          = before ++ parseMarkdownToSnapshots newYearContent ++ after.
Proof.
  assert (H : includes januaryFile (dayHeader newYear) = false)
    by (vm_compute; reflexivity).
  split; [vm_compute; reflexivity|]. split; [exact H|].
  destruct (update_adds_day januaryFile newYear newYearContent)
    as (b & a & E1 & E2 & _);
    [vm_compute; reflexivity | vm_compute; reflexivity | vm_compute; reflexivity
    | exact H | vm_compute; discriminate |].
  exists b, a. split; assumption.
Defined.

Lemma update_replaces_day_witness :
  isDateString newYear = true
  /\ includes januaryTitle (dayHeader newYear) = false
  /\ updateMonthlyMarkdown
       (januaryTitle ++ newYearContent ++ LF :: str_rule ++ LF :: []) newYear
       (generateDayMarkdown newYear [] [] 0)
     = januaryTitle ++ generateDayMarkdown newYear [] [] 0
         ++ LF :: str_rule ++ LF :: [].
Proof.
  assert (Hd : isDateString newYear = true) by reflexivity.
  assert (Hi : includes januaryTitle (dayHeader newYear) = false)
    by (vm_compute; reflexivity).
  split; [exact Hd|]. split; [exact Hi|].
  destruct (update_replaces_day januaryTitle [] newYear newYearContent
              (generateDayMarkdown newYear [] [] 0)
              (tl (splitLines newYearContent)) Hd) as [_ R].
  - right. exists (str_h1 ++ january ++ str_record ++ [LF; LF]).
    vm_compute. reflexivity.
  - exact Hi.
  - reflexivity.
  - vm_compute. reflexivity.
  - apply Forall_forall. apply (proj1 (forallb_forall plainLine _)).
    vm_compute. reflexivity.
  - apply R. vm_compute. reflexivity.
Defined.

Lemma second_export_replaces_first_witness :
  isDateString newYear = true
  /\ includes januaryFile (dayHeader newYear) = false
  /\ updateMonthlyMarkdown (updateMonthlyMarkdown januaryFile newYear newYearContent)
       newYear (generateDayMarkdown newYear [] [] 0)
     = updateMonthlyMarkdown januaryFile newYear (generateDayMarkdown newYear [] [] 0).
Proof.
  assert (Hd : isDateString newYear = true) by reflexivity.
  assert (Hi : includes januaryFile (dayHeader newYear) = false)
    by (vm_compute; reflexivity).
  split; [exact Hd|]. split; [exact Hi|].
  apply (second_export_replaces_first januaryFile newYear newYearContent
           (generateDayMarkdown newYear [] [] 0)
           (tl (splitLines newYearContent)) Hd Hi).
  - vm_compute. reflexivity.
  - apply Forall_forall. apply (proj1 (forallb_forall plainLine _)).
    vm_compute. reflexivity.
  - vm_compute. reflexivity.
Defined.


Lemma export_twice_witness :
  isDateString newYear = true
  /\ includes (contentOrTitle january []) (dayHeader newYear) = false
  /\ exportTodayToMarkdown newYear january knownLedger [] boardColumns
       (exportTodayToMarkdown newYear january [] boardTasks boardColumns [])
     = exportTodayToMarkdown newYear january knownLedger [] boardColumns [].
Proof.
  assert (Hd : isDateString newYear = true) by reflexivity.
  assert (Hi : includes (contentOrTitle january []) (dayHeader newYear) = false)
    by (vm_compute; reflexivity).
  split; [exact Hd|]. split; [exact Hi|].
  apply (export_twice newYear january [] knownLedger boardTasks [] boardColumns boardColumns
           [] Hd Hi).
  - repeat constructor.
  - repeat constructor.
  - vm_compute. reflexivity.
Defined.

(** * The month file written at once *)

Lemma str_ltb_asym (a b : jsstring) : str_ltb a b = true -> str_ltb b a = false.
Proof.
  revert b. induction a as [|x a IH]; intros [|y b] H; try reflexivity;
    try discriminate H.
  cbn [str_ltb] in *.
  destruct (N.ltb_spec x y) as [Hxy|Hxy].
  - destruct (N.ltb_spec y x); [lia | reflexivity].
  - destruct (N.ltb_spec y x) as [Hyx|Hyx]; [discriminate H|]. exact (IH b H).
Qed.

Lemma insertSorted_perm {A : Type} (cmp : A -> A -> Z) (x : A) (l : list A) :
  Permutation (insertSorted cmp x l) (x :: l).
Proof.
  induction l as [|y l IH]; [reflexivity|]. cbn [insertSorted].
  destruct (0 <? cmp x y); [|reflexivity].
  rewrite IH. apply perm_swap.
Qed.

Lemma sortStable_perm {A : Type} (cmp : A -> A -> Z) (l : list A) :
  Permutation (sortStable cmp l) l.
Proof.
  induction l as [|x l IH]; [reflexivity|].
  unfold sortStable in *. cbn [fold_right].
  rewrite insertSorted_perm. constructor. exact IH.
Qed.

Lemma insertSorted_strings (x : jsstring) (l : list jsstring) :
  Sorted (fun a b => str_ltb b a = false) l ->
  Sorted (fun a b => str_ltb b a = false) (insertSorted compareStrings x l).
Proof.
  induction 1 as [|y l Hl IH Hy]; [repeat constructor|].
  cbn [insertSorted]. unfold compareStrings at 1.
  destruct (str_ltb x y) eqn:Exy.
  - cbn [Z.ltb Z.compare]. constructor; [constructor; assumption|].
    constructor. apply str_ltb_asym. exact Exy.
  - destruct (str_ltb y x) eqn:Eyx; cbn [Z.ltb Z.compare].
    + constructor; [exact IH|].
      destruct l as [|z l]; cbn [insertSorted].
      * constructor. exact Exy.
      * inversion Hy as [|? ? Hyz]; subst.
        destruct (0 <? compareStrings x z); constructor; assumption.
    + constructor; [constructor; assumption|]. constructor. exact Eyx.
Qed.

Lemma sortStable_strings (l : list jsstring) :
  Sorted (fun a b => str_ltb b a = false) (sortStable compareStrings l).
Proof.
  induction l as [|x l IH]; [constructor|].
  unfold sortStable in *. cbn [fold_right]. apply insertSorted_strings. exact IH.
Qed.

Lemma join_flatten_all (c : jsstring -> jsstring) (r e : jsstring)
    (X : list jsstring) (ds : list jsstring) :
  join (X ++ flat_map (fun d => [c d; r; e]) ds)
  = join (X ++ flat_map (fun d => splitLines (c d) ++ [r; e]) ds).
Proof.
  revert X. induction ds as [|d ds IH]; intros X; [reflexivity|].
  cbn [flat_map].
  change ([c d; r; e] ++ flat_map (fun d => [c d; r; e]) ds)
    with (c d :: ([r; e] ++ flat_map (fun d => [c d; r; e]) ds)).
  rewrite <- (join_splitLines (c d)) at 1.
  destruct (splitLines_nonempty (c d)) as (h & t & E).
  rewrite join_flatten by (rewrite E; discriminate).
  rewrite !app_assoc. rewrite IH. rewrite <- !app_assoc. reflexivity.
Qed.

Lemma snapshotsOfLines_blocks (c : jsstring -> jsstring) (ds : list jsstring) :
  Forall (fun d => headerDate (hd [] (splitLines (c d))) <> None) ds ->
  fst (daysOfLines (flat_map (fun d => splitLines (c d) ++ [str_rule; []]) ds)) = []
  /\ snapshotsOfLines (flat_map (fun d => splitLines (c d) ++ [str_rule; []]) ds)
     = flat_map (fun d => snapshotsOfLines (splitLines (c d))) ds.
Proof.
  destruct idle_rule_lines as (I1 & I2 & _).
  induction 1 as [|d ds Hd _ [IH1 IH2]]; [split; reflexivity|].
  cbn [flat_map]. destruct (splitLines_nonempty (c d)) as (h & t & E).
  rewrite E in *. cbn [hd] in Hd. split.
  - rewrite <- app_assoc. cbn [app]. apply daysOfLines_header. exact Hd.
  - rewrite snapshotsOfLines_app by exact IH1. rewrite IH2. f_equal.
    apply (snapshotsOfLines_trailing (h :: t) _ I1 I2).
Qed.

Lemma contentOf_entry (d : jsstring) (m : list (jsstring * jsstring)) :
  In d (map fst m) -> exists e, In e m /\ contentOf d m = snd e.
Proof.
  intros H. unfold contentOf.
  destruct (find (fun e => str_eqb (fst e) d) m) as [e|] eqn:F.
  - exists e. split; [apply (find_some _ _ F) | reflexivity].
  - exfalso. apply in_map_iff in H as (e & He & Hin).
    pose proof (find_none _ _ F e Hin) as N. cbv beta in N.
    rewrite He, str_eqb_refl in N. discriminate.
Qed.

(** X24: a month file written at once reads back as the days of its
    contents, in the ascending order of the dates they are stored under.
    This holds when the month string is a single line and every content has
    line feeds as its only line terminators and starts with the header of a
    day. *)
Theorem monthly_markdown_reads_back (yearMonth : jsstring)
    (dailyContents : list (jsstring * jsstring)) :
  singleLine yearMonth = true ->
  NoDup (map fst dailyContents) ->
  Forall (fun e => onlyLineFeeds (snd e) = true
                   /\ headerDate (hd [] (splitLines (snd e))) <> None) dailyContents ->
  exists sortedDates,
    Permutation sortedDates (map fst dailyContents)
    /\ Sorted (fun a b => str_ltb b a = false) sortedDates
    /\ parseMarkdownToSnapshots (generateMonthlyMarkdown yearMonth dailyContents)
       = flat_map (fun d => parseMarkdownToSnapshots (contentOf d dailyContents))
           sortedDates.
Proof.
  intros Hy _ Hc.
  exists (sortStable compareStrings (map fst dailyContents)).
  split; [apply sortStable_perm|]. split; [apply sortStable_strings|].
  unfold generateMonthlyMarkdown. cbv zeta.
  set (ds := sortStable compareStrings (map fst dailyContents)).
  assert (Hds : Forall (fun d => onlyLineFeeds (contentOf d dailyContents) = true
                        /\ headerDate (hd [] (splitLines (contentOf d dailyContents)))
                           <> None) ds).
  { apply Forall_forall. intros d Hd.
    apply (Permutation_in _ (sortStable_perm compareStrings (map fst dailyContents))) in Hd.
    destruct (contentOf_entry d dailyContents Hd) as (e & He & ->).
    rewrite Forall_forall in Hc. exact (Hc e He). }
  rewrite join_flatten_all.
  destruct idle_rule_lines as (_ & _ & I3).
  rewrite parse_of_lines.
  - destruct (snapshotsOfLines_blocks (fun d => contentOf d dailyContents) ds) as [B1 B2].
    { revert Hds. apply Forall_impl. intros d [_ H]. exact H. }
    cbv beta in B1, B2.
    rewrite snapshotsOfLines_app by exact B1.
    refine (eq_trans (f_equal (app _) B2) _). cbn [app].
    change (snapshotsOfLines [str_h1 ++ yearMonth ++ str_record; []]) with (@nil DailySnapshot).
    cbn [app]. clear B1 B2. induction Hds as [|d ds' [Hd1 _] _ IH]; [reflexivity|].
    cbn [flat_map]. rewrite IH. f_equal.
    rewrite <- (join_splitLines (contentOf d dailyContents)) at 2.
    destruct (splitLines_nonempty (contentOf d dailyContents)) as (h & t & E).
    symmetry. apply parse_of_lines; [rewrite E; discriminate|].
    apply splitLines_singleLines. exact Hd1.
  - discriminate.
  - apply Forall_app. split.
    + constructor; [|repeat constructor]. rewrite !singleLine_app, Hy. reflexivity.
    + apply Forall_flat_map. revert Hds. apply Forall_impl. intros d [H _].
      apply Forall_app. split; [apply splitLines_singleLines; exact H | exact I3].
Qed.

(** * The statistics *)












Section StatsLaws.

Variable isSameDay : Z -> Z -> bool.

Lemma filter_filter_implied {A : Type} (p q : A -> bool) (l : list A) :
  (forall x, p x = true -> q x = true) ->
  filter p (filter q l) = filter p l.
Proof.
  intros H. induction l as [|x l IH]; [reflexivity|]. cbn [filter].
  destruct (q x) eqn:Q; cbn [filter]; rewrite IH; [reflexivity|].
  destruct (p x) eqn:P; [|reflexivity]. rewrite (H x P) in Q. discriminate.
Qed.

(** X26: cleaning the board of old tasks never changes what the statistics
    count for the day of the cleaning: the tasks completed that day all
    stay.  The count of that day is that of the tasks left plus the
    completed tasks of the snapshot of the day. *)
Theorem cleanup_keeps_todays_count (today : Z) (dateStr : jsstring)
    (ts : list Task) (historicalSnapshots : list DailySnapshot) :
  getCompletedCountForDate isSameDay today dateStr
    (cleanupOldTasks isSameDay today ts) historicalSnapshots
  = getCompletedCountForDate isSameDay today dateStr ts historicalSnapshots
  /\ forall t, In t ts -> completed t = true ->
       (In t (cleanupOldTasks isSameDay today ts)
        <-> exists doneAt, completedAt t = Some doneAt /\ doneAt <> 0
                           /\ isSameDay doneAt today = true).
Proof.
  split.
  - unfold getCompletedCountForDate, cleanupOldTasks. cbv zeta.
    rewrite filter_filter_implied; [reflexivity|].
    intros t H. apply andb_true_iff in H as [H H3]. apply andb_true_iff in H as [H1 H2].
    rewrite H1, H2. cbn [negb andb]. rewrite H3. reflexivity.
  - intros t Hin Hc. unfold cleanupOldTasks. rewrite filter_In, Hc. cbn [negb andb].
    split.
    + intros [_ H]. destruct (completedAt t) as [doneAt|]; [|discriminate H].
      exists doneAt. cbn [truthy] in H.
      destruct (Z.eqb_spec doneAt 0) as [E|E]; [discriminate H|].
      cbn [negb andb] in H. destruct (isSameDay doneAt today); [|discriminate H].
      auto.
    + intros (doneAt & -> & Hz & Hs). split; [exact Hin|].
      cbn [truthy]. destruct (Z.eqb_spec doneAt 0) as [E|E]; [contradiction|].
      cbn [negb andb]. rewrite Hs. reflexivity.
Qed.

End StatsLaws.

Lemma cleanup_keeps_todays_count_witness :
  In (hd taskA boardTasks) boardTasks /\ completed (hd taskA boardTasks) = true
  /\ (In (hd taskA boardTasks) (cleanupOldTasks sameSpanOfDay 86400000 boardTasks)
      <-> exists doneAt, completedAt (hd taskA boardTasks) = Some doneAt /\ doneAt <> 0
                         /\ sameSpanOfDay doneAt 86400000 = true).
Proof.
  assert (H1 : In (hd taskA boardTasks) boardTasks) by (left; reflexivity).
  assert (H2 : completed (hd taskA boardTasks) = true) by reflexivity.
  split; [exact H1|]. split; [exact H2|].
  destruct (cleanup_keeps_todays_count sameSpanOfDay 86400000 newYear boardTasks [])
    as [_ K].
  exact (K _ H1 H2).
Defined.

Lemma find_app_first {A : Type} (f : A -> bool) (l1 l2 : list A) :
  find f (l1 ++ l2) = match find f l1 with
                      | Some x => Some x
                      | None => find f l2
                      end.
Proof.
  induction l1 as [|x l1 IH]; [reflexivity|]. cbn [app find].
  destruct (f x); [reflexivity | exact IH].
Qed.

Lemma find_present {A : Type} (key : A -> jsstring) (d : jsstring) (l : list A) :
  In d (map key l) -> exists x, find (fun x => str_eqb (key x) d) l = Some x.
Proof.
  induction l as [|y l IH]; intros H; [destruct H|]. cbn [find].
  destruct (str_eqb (key y) d) eqn:E; [eexists; reflexivity|].
  destruct H as [H|H]; [|exact (IH H)].
  cbn in H. rewrite H, str_eqb_refl in E. discriminate.
Qed.

Lemma focus_minutes_after_import (d : jsstring) (snapshots : list DailySnapshot)
    (logs : list DailyLog) (historicalSnapshots : list DailySnapshot) :
  Forall (fun s => 0 <= focusMinutes s) snapshots ->
  getFocusMinutesForDate d logs historicalSnapshots
    <= getFocusMinutesForDate d (importLogs snapshots logs)
         (importSnapshots snapshots historicalSnapshots)
  /\ (In d (map date logs) -> In d (map snap_date historicalSnapshots) ->
      getFocusMinutesForDate d (importLogs snapshots logs)
        (importSnapshots snapshots historicalSnapshots)
      = getFocusMinutesForDate d logs historicalSnapshots).
Proof.
  intros Hn. rewrite Forall_forall in Hn.
  unfold getFocusMinutesForDate, importLogs, importSnapshots. cbv zeta.
  rewrite !find_app_first. split.
  - apply Z.max_le_compat.
    + destruct (find (fun l => str_eqb (date l) d) logs) as [r|]; [lia|].
      destruct (find _ (map _ _)) as [r|] eqn:F; [|lia].
      apply find_some in F as [F _]. apply in_map_iff in F as (s & <- & Hs).
      apply filter_In in Hs as [Hs _]. pose proof (Hn s Hs). cbn [secondsWorked].
      apply Z.div_pos; lia.
    + destruct (find (fun s => str_eqb (snap_date s) d) historicalSnapshots) as [p|];
        [lia|].
      destruct (find _ (filter _ _)) as [s|] eqn:F; [|lia].
      apply find_some in F as [F _]. apply filter_In in F as [Hs _].
      exact (Hn s Hs).
  - intros HL HP.
    destruct (find_present date d logs HL) as (r & ->).
    destruct (find_present snap_date d historicalSnapshots HP) as (p & ->).
    reflexivity.
Qed.

(** X27: an import never lowers the focus minutes that the statistics show
    for a day, when the archive has no negative minutes, and it leaves them
    as they are for a day that the ledger and the snapshots both have. *)
Theorem import_never_lowers_focus (d : jsstring) (snapshots : list DailySnapshot)
    (logs : list DailyLog) (historicalSnapshots : list DailySnapshot) :
  Forall (fun s => 0 <= focusMinutes s) snapshots ->
  getFocusMinutesForDate d logs historicalSnapshots
    <= getFocusMinutesForDate d (importLogs snapshots logs)
         (importSnapshots snapshots historicalSnapshots)
  /\ (In d (map date logs) -> In d (map snap_date historicalSnapshots) ->
      getFocusMinutesForDate d (importLogs snapshots logs)
        (importSnapshots snapshots historicalSnapshots)
      = getFocusMinutesForDate d logs historicalSnapshots).
Proof. exact (focus_minutes_after_import d snapshots logs historicalSnapshots). Qed.

Lemma import_never_lowers_focus_witness :
  Forall (fun s => 0 <= focusMinutes s) archiveSnapshots
  /\ getFocusMinutesForDate newYear knownLedger []
     <= getFocusMinutesForDate newYear (importLogs archiveSnapshots knownLedger)
          (importSnapshots archiveSnapshots []).
Proof.
  assert (H : Forall (fun s => 0 <= focusMinutes s) archiveSnapshots).
  { repeat constructor; simpl; lia. }
  split; [exact H|].
  apply (import_never_lowers_focus newYear archiveSnapshots knownLedger [] H).
Defined.

Lemma monthly_markdown_reads_back_witness :
  singleLine january = true
  /\ exists sortedDates,
       Permutation sortedDates [secondOfJanuary; newYear]
       /\ parseMarkdownToSnapshots
            (generateMonthlyMarkdown january
               [(secondOfJanuary, generateDayMarkdown secondOfJanuary [] [] 5);
                (newYear, newYearContent)])
          = flat_map
              (fun d => parseMarkdownToSnapshots
                          (contentOf d
                             [(secondOfJanuary, generateDayMarkdown secondOfJanuary [] [] 5);
                              (newYear, newYearContent)]))
              sortedDates.
Proof.
  assert (H : singleLine january = true) by reflexivity.
  split; [exact H|].
  destruct (monthly_markdown_reads_back january
              [(secondOfJanuary, generateDayMarkdown secondOfJanuary [] [] 5);
               (newYear, newYearContent)] H) as (ds & P & _ & E).
  - simpl. constructor; [|constructor; [|constructor]].
    + intros [C|[]]. discriminate C.
    + intros [].
  - constructor; [split; [vm_compute; reflexivity | vm_compute; discriminate]|].
    constructor; [split; [vm_compute; reflexivity | vm_compute; discriminate]|].
    constructor.
  - exists ds. split; [exact P | exact E].
Defined.

(** * Tasks outside the listed columns *)

Lemma columnLines_listed (ts : list Task) (columns : list Column) (c : Column) :
  In c columns ->
  columnLines
    (filter (fun t => existsb (fun c => str_eqb (columnId t) (col_id c)) columns) ts) c
  = columnLines ts c.
Proof.
  intros Hc. unfold columnLines. cbv zeta.
  rewrite filter_filter_implied; [reflexivity|].
  intros t Ht. apply existsb_exists. exists c. split; assumption.
Qed.

(** X28: a task whose column is not among the listed columns is left out of
    the export: the markdown of the day is the one of the tasks that are in
    a listed column, and it is the markdown of an empty board when no task is
    in a listed column. *)
Theorem export_leaves_out_unlisted_tasks (d : jsstring) (ts : list Task)
    (columns : list Column) (fm : Z) :
  generateDayMarkdown d ts columns fm
  = generateDayMarkdown d
      (filter (fun t => existsb (fun c => str_eqb (columnId t) (col_id c)) columns) ts)
      columns fm
  /\ (Forall (fun t => existsb (fun c => str_eqb (columnId t) (col_id c)) columns = false)
        ts ->
      generateDayMarkdown d ts columns fm = generateDayMarkdown d [] [] fm).
Proof.
  assert (G : forall ts', (forall c, In c columns -> columnLines ts' c = columnLines ts c) ->
              generateDayMarkdown d ts' columns fm = generateDayMarkdown d ts columns fm).
  { intros ts' H. unfold generateDayMarkdown, dayLines. do 4 f_equal.
    induction columns as [|c cs IH]; [reflexivity|]. cbn [flat_map].
    rewrite (H c (or_introl eq_refl)). f_equal. apply IH.
    intros c' Hc'. apply H. right. exact Hc'. }
  split.
  - symmetry. apply G. intros c Hc. apply columnLines_listed. exact Hc.
  - intros Hu. rewrite Forall_forall in Hu.
    unfold generateDayMarkdown, dayLines. do 4 f_equal. cbn [flat_map].
    clear G. induction columns as [|c cs IH]; [reflexivity|]. cbn [flat_map].
    assert (E : columnLines ts c = []).
    { unfold columnLines. cbv zeta. rewrite filter_nothing; [reflexivity|].
      intros t Ht. specialize (Hu t Ht). cbn [existsb] in Hu.
      apply orb_false_iff in Hu. apply Hu. }
    rewrite E. cbn [app]. apply IH. intros t Ht. specialize (Hu t Ht).
    cbn [existsb] in Hu. apply orb_false_iff in Hu. apply Hu.
Qed.

Lemma export_leaves_out_unlisted_tasks_witness :
  Forall (fun t => existsb (fun c => str_eqb (columnId t) (col_id c)) boardColumns = false)
    [taskA]
  /\ generateDayMarkdown newYear [taskA] boardColumns 25
     = generateDayMarkdown newYear [] [] 25.
Proof.
  assert (H : Forall (fun t => existsb (fun c => str_eqb (columnId t) (col_id c))
                                 boardColumns = false) [taskA]).
  { constructor; [reflexivity | constructor]. }
  split; [exact H|].
  destruct (export_leaves_out_unlisted_tasks newYear [taskA] boardColumns 25) as [_ K].
  exact (K H).
Defined.
